(** * Price analyzer backend: price normalisation and value scoring

    A shallow embedding of [app/utils/price_normalizer.py],
    [app/services/scoring_service.py] and [app/services/mock_service.py],
    with the properties of the specification stated over it.

    Python [float]s are IEEE 754 binary64 numbers.  Every finite binary64
    number is an integer multiple of [2^-1074], so a finite float is kept as
    that integer; each arithmetic operation is the exact operation on the
    rationals followed by one rounding to nearest, ties to even, which is
    how IEEE 754 defines it.  The two zeros are identified: of what is
    modelled here only the display of a price tells them apart. *)

From Stdlib Require Import ZArith Lia List Bool String Ascii Sorted.
From Stdlib Require SpecFloat.
From stdpp Require Import base option list gmap.

Local Open Scope Z_scope.

(** ** Binary64 arithmetic *)

Module F64.

(** [Fin n] is the number [n * 2^-1074]. *)
Inductive float : Set :=
  | Fin (n : Z)
  | PInf
  | NInf
  | NaN.

(** One, in units of [2^-1074]. *)
Definition unit : Z := 2 ^ 1074.

(** [2^1024] in the same units: the first magnitude that is out of range. *)
Definition top : Z := 2 ^ 2098.

(** [p / q] rounded to the nearest integer, ties to the even one ([0 < q]). *)
Definition rhe_plain (p q : Z) : Z :=
  let d := p / q in
  match 2 * (p mod q) ?= q with
  | Lt => d
  | Gt => d + 1
  | Eq => if Z.even d then d else d + 1
  end.

(** Cancelling the common factors of two of a fraction leaves its value
    unchanged and keeps the numbers short. *)
Fixpoint cancel2 (a b : positive) : positive * positive :=
  match a, b with
  | xO a', xO b' => cancel2 a' b'
  | _, _ => (a, b)
  end.

Definition reduced (p q : Z) : Z * Z :=
  match p, q with
  | Zpos a, Zpos b => let '(a', b') := cancel2 a b in (Zpos a', Zpos b')
  | Zneg a, Zpos b => let '(a', b') := cancel2 a b in (Zneg a', Zpos b')
  | _, _ => (p, q)
  end.

Definition rhe (p q : Z) : Z :=
  let '(p', q') := reduced p q in rhe_plain p' q'.

(** The integer part of [p / q]. *)
Definition quot (p q : Z) : Z :=
  let '(p', q') := reduced p q in p' / q'.

(** The binary64 grid around a magnitude [v] (in units) has step [2^k] with
    [k = max 0 (log2 v - 52)]: 53 significant bits, and never finer than
    one unit (the subnormal range). *)
Definition grid (v : Z) : Z := Z.max 0 (Z.log2 v - 52).

(** Nearest grid point to [p / q], for [0 <= p] and [0 < q]. *)
Definition mag_round (p q : Z) : Z :=
  let k := grid (quot p q) in
  2 ^ k * rhe p (q * 2 ^ k).

Definition round_z (p q : Z) : Z :=
  if 0 <=? p then mag_round p q else - mag_round (- p) q.

Definition of_z (r : Z) : float :=
  if top <=? r then PInf else if r <=? - top then NInf else Fin r.

(** The float nearest to the rational [p / q] units ([0 < q]). *)
Definition rnd (p q : Z) : float := of_z (round_z p q).

(** [float(i)] for a Python int (within the float range; Python raises
    OverflowError beyond it), and decimal literals [n / 10^k], [0 <= k]. *)
Definition of_int (i : Z) : float := rnd (i * unit) 1.
Definition dec (n : Z) (k : Z) : float := rnd (n * unit) (10 ^ k).

Definition fneg (x : float) : float :=
  match x with
  | Fin n => Fin (- n)
  | PInf => NInf
  | NInf => PInf
  | NaN => NaN
  end.

Definition fadd (x y : float) : float :=
  match x, y with
  | NaN, _ | _, NaN => NaN
  | PInf, NInf | NInf, PInf => NaN
  | PInf, _ | _, PInf => PInf
  | NInf, _ | _, NInf => NInf
  | Fin a, Fin b => rnd (a + b) 1
  end.

Definition fsub (x y : float) : float := fadd x (fneg y).

(** Sign of a non-NaN float: -1, 0 or 1. *)
Definition sgn (x : float) : Z :=
  match x with
  | Fin n => Z.sgn n
  | PInf => 1
  | NInf => -1
  | NaN => 0
  end.

Definition fmul (x y : float) : float :=
  match x, y with
  | NaN, _ | _, NaN => NaN
  | Fin a, Fin b => rnd (a * b) unit
  | _, _ =>
      match sgn x * sgn y with
      | 0 => NaN
      | Zpos _ => PInf
      | Zneg _ => NInf
      end
  end.

(** Python's [x / y] on floats: [None] stands for ZeroDivisionError. *)
Definition fdiv (x y : float) : option float :=
  match y with
  | Fin 0 => None
  | NaN => Some NaN
  | Fin b =>
      Some match x with
           | Fin a => if 0 <? b then rnd (a * unit) b else rnd (- a * unit) (- b)
           | NaN => NaN
           | _ => if 0 <? sgn x * b then PInf else NInf
           end
  | _ =>
      Some match x with
           | Fin _ => Fin 0
           | _ => NaN
           end
  end.

(** Python's [a / b] on ints (true division), correctly rounded. *)
Definition int_truediv (a b : Z) : option float :=
  if b =? 0 then None
  else Some (if 0 <? b then rnd (a * unit) b else rnd (- a * unit) (- b)).

Definition feq (x y : float) : bool :=
  match x, y with
  | Fin a, Fin b => a =? b
  | PInf, PInf | NInf, NInf => true
  | _, _ => false
  end.

Definition flt (x y : float) : bool :=
  match x, y with
  | NaN, _ | _, NaN => false
  | Fin a, Fin b => a <? b
  | NInf, NInf | PInf, _ | _, NInf => false
  | _, _ => true
  end.

Definition fle (x y : float) : bool :=
  match x, y with
  | NaN, _ | _, NaN => false
  | Fin a, Fin b => a <=? b
  | NInf, _ | _, PInf => true
  | _, _ => false
  end.

(** Python's [max(a, b)] and [min(a, b)]: the first argument is kept unless
    the second compares strictly greater (smaller). *)
Definition py_max (a b : float) : float := if flt a b then b else a.
Definition py_min (a b : float) : float := if flt b a then b else a.

(** Python's [round(x, 2)]: the exact value of [x] is rounded to a whole
    number of hundredths, ties to even, and that decimal is read back as
    the nearest float.  Infinities and NaN round to themselves. *)
Definition round2 (x : float) : float :=
  match x with
  | Fin n => rnd (rhe (n * 100) unit * unit) 100
  | _ => x
  end.

(** Python's [round(x, 1)]. *)
Definition round1 (x : float) : float :=
  match x with
  | Fin n => rnd (rhe (n * 10) unit * unit) 10
  | _ => x
  end.

(** A number of the binary64 range (as opposed to an infinity or NaN). *)
Definition finite (x : float) : bool :=
  match x with
  | Fin n => (- top <? n) && (n <? top)
  | _ => false
  end.

(** [n] units is a binary64 number: it lies on its own grid. *)
Definition representable (x : float) : bool :=
  match x with
  | Fin n => finite x && (n mod 2 ^ grid (Z.abs n) =? 0)
  | _ => true
  end.

Definition is_nan (x : float) : bool :=
  match x with NaN => true | _ => false end.

(** The same number in the Standard Library's specification of IEEE 754
    floats (53 bits of precision, exponents up to 1024). *)
Definition to_spec (x : float) : SpecFloat.spec_float :=
  match x with
  | Fin 0 => SpecFloat.S754_zero false
  | Fin n =>
      let k := grid (Z.abs n) in
      SpecFloat.S754_finite (n <? 0) (Z.to_pos (Z.abs n / 2 ^ k)) (k - 1074)
  | PInf => SpecFloat.S754_infinity false
  | NInf => SpecFloat.S754_infinity true
  | NaN => SpecFloat.S754_nan
  end.

(** The closed interval [[0, 10]] of scores. *)
Definition in_0_10 (x : float) : Prop :=
  fle (of_int 0) x = true /\ fle x (of_int 10) = true.

(** The closed interval [[0, 5]] of ratings. *)
Definition in_0_5 (x : float) : Prop :=
  fle (of_int 0) x = true /\ fle x (of_int 5) = true.

(** A scoring weight: a finite factor between 0 and 1/2. *)
Definition weight_ok (w : float) : Prop :=
  exists n, w = Fin n /\ 0 <= n /\ 2 * n <= unit.

End F64.

Import F64.

Arguments unit : simpl never.
Arguments top : simpl never.
Arguments rnd : simpl never.
Arguments of_int : simpl never.
Arguments dec : simpl never.

(** ** Python strings

    A [str] is a sequence of Unicode code points.  Literals are written as
    Rocq strings and decoded from UTF-8. *)

Abbreviation pystr := (list Z).

Fixpoint utf8 (bs : list Z) : pystr :=
  match bs with
  | [] => []
  | b :: rest =>
      if b <? 128 then b :: utf8 rest
      else if b <? 224 then
        match rest with
        | c1 :: r => ((b - 192) * 64 + (c1 - 128)) :: utf8 r
        | _ => [b]
        end
      else if b <? 240 then
        match rest with
        | c1 :: c2 :: r =>
            ((b - 224) * 4096 + (c1 - 128) * 64 + (c2 - 128)) :: utf8 r
        | _ => [b]
        end
      else
        match rest with
        | c1 :: c2 :: c3 :: r =>
            ((b - 240) * 262144 + (c1 - 128) * 4096 + (c2 - 128) * 64
             + (c3 - 128)) :: utf8 r
        | _ => [b]
        end
  end.

Definition str (s : string) : pystr :=
  utf8 (map (fun b => Z.of_N (Byte.to_N b)) (list_byte_of_string s)).

Fixpoint str_eqb (a b : pystr) : bool :=
  match a, b with
  | [], [] => true
  | x :: a', y :: b' => (x =? y) && str_eqb a' b'
  | _, _ => false
  end.

(** Python's [str.isspace], which is also the regular expression class
    [\s] on [str] patterns. *)
Definition is_space (c : Z) : bool :=
  ((9 <=? c) && (c <=? 13)) || ((28 <=? c) && (c <=? 32))
  || (c =? 133) || (c =? 160) || (c =? 5760)
  || ((8192 <=? c) && (c <=? 8202))
  || (c =? 8232) || (c =? 8233) || (c =? 8239) || (c =? 8287) || (c =? 12288).

Definition ascii_lower (c : Z) : Z :=
  if (65 <=? c) && (c <=? 90) then c + 32 else c.

(** Whether the text character [c] matches the pattern character [p] (an
    ASCII character) under [re.IGNORECASE].  Besides the two ASCII cases,
    [i] matches U+0130 and U+0131, [s] matches U+017F and [k] matches
    U+212A. *)
Definition re_ignorecase_eq (p c : Z) : bool :=
  let lp := ascii_lower p in
  (ascii_lower c =? lp)
  || ((lp =? 105) && ((c =? 304) || (c =? 305)))
  || ((lp =? 115) && (c =? 383))
  || ((lp =? 107) && (c =? 8490)).

(** [str.upper] on a character that matched an ASCII letter. *)
Definition upper_char (c : Z) : Z :=
  if (97 <=? c) && (c <=? 122) then c - 32
  else if c =? 383 then 83
  else if c =? 305 then 73
  else c.

Fixpoint lstrip_by (f : Z -> bool) (s : pystr) : pystr :=
  match s with
  | c :: s' => if f c then lstrip_by f s' else s
  | [] => []
  end.

Definition rstrip_by (f : Z -> bool) (s : pystr) : pystr :=
  rev (lstrip_by f (rev s)).

(** [s.strip()] *)
Definition strip (s : pystr) : pystr := rstrip_by is_space (lstrip_by is_space s).

(** [s.split()] on runs of whitespace; [cur] is the current word, reversed. *)
Fixpoint split_ws (s cur : pystr) : list pystr :=
  match s with
  | [] => match cur with [] => [] | _ => [rev cur] end
  | c :: s' =>
      if is_space c then
        match cur with
        | [] => split_ws s' []
        | _ => rev cur :: split_ws s' []
        end
      else split_ws s' (c :: cur)
  end.

(** [sep.join(l)] *)
Fixpoint join (sep : pystr) (l : list pystr) : pystr :=
  match l with
  | [] => []
  | [w] => w
  | w :: l' => w ++ sep ++ join sep l'
  end.

Fixpoint starts_with (pre s : pystr) : bool :=
  match pre, s with
  | [], _ => true
  | p :: pre', c :: s' => (p =? c) && starts_with pre' s'
  | _ :: _, [] => false
  end.

(** [sub in s] *)
Fixpoint contains (sub s : pystr) : bool :=
  starts_with sub s ||
  match s with
  | [] => false
  | _ :: s' => contains sub s'
  end.

(** [s.replace(old, new)] for a non-empty [old]: occurrences are replaced
    from the left without overlap; [skip] counts the characters of a
    matched occurrence still to be dropped. *)
Fixpoint replace_from (old new : pystr) (skip : nat) (s : pystr) : pystr :=
  match s with
  | [] => []
  | c :: s' =>
      match skip with
      | S k => replace_from old new k s'
      | O =>
          if starts_with old s
          then new ++ replace_from old new (length old - 1) s'
          else c :: replace_from old new 0 s'
      end
  end.

Definition replace (old new s : pystr) : pystr := replace_from old new 0 s.

(** [s.count(c)], [s.split(c)] and [s.rfind(c)] for a one-character [c]. *)
Definition count (c : Z) (s : pystr) : Z :=
  Z.of_nat (length (List.filter (fun x => x =? c) s)).

Fixpoint split_on (c : Z) (s : pystr) : list pystr :=
  match s with
  | [] => [[]]
  | x :: s' =>
      if x =? c then [] :: split_on c s'
      else match split_on c s' with
           | w :: ws => (x :: w) :: ws
           | [] => [[x]]
           end
  end.

Fixpoint rfind_from (c : Z) (s : pystr) (i last : Z) : Z :=
  match s with
  | [] => last
  | x :: s' => rfind_from c s' (i + 1) (if x =? c then i else last)
  end.

Definition rfind (c : Z) (s : pystr) : Z := rfind_from c s 0 (-1).

(** A literal pattern matched at the start of [s] ignoring case: what
    follows the match. *)
Fixpoint match_ci (pat s : pystr) : option pystr :=
  match pat, s with
  | [], _ => Some s
  | p :: pat', c :: s' => if re_ignorecase_eq p c then match_ci pat' s' else None
  | _ :: _, [] => None
  end.

(** The first alternative that matches at the start of [s]: the matched
    text and what follows it. *)
Fixpoint match_alt_ci (alts : list pystr) (s : pystr) : option (pystr * pystr) :=
  match alts with
  | [] => None
  | alt :: alts' =>
      match match_ci alt s with
      | Some rest => Some (take (length alt) s, rest)
      | None => match_alt_ci alts' s
      end
  end.

(** [re.sub(r'^(a|b|...)\s*', '', s, flags=re.IGNORECASE)] *)
Definition sub_prefix_ci (alts : list pystr) (s : pystr) : pystr :=
  match match_alt_ci alts s with
  | Some (_, rest) => lstrip_by is_space rest
  | None => s
  end.

(** [re.sub(r'\s*(a|b|...)$', '', s, flags=re.IGNORECASE)] on a string
    without trailing whitespace: the alternative is matched backwards from
    the end, and the match extends to the left over the whitespace before
    it. *)
Definition sub_suffix_ci (alts : list pystr) (s : pystr) : pystr :=
  match match_alt_ci (map (@rev Z) alts) (rev s) with
  | Some (_, rest) => rev (lstrip_by is_space rest)
  | None => s
  end.

(** ** Price normaliser ([app/utils/price_normalizer.py])

    The table of Unicode decimal digits beyond ASCII (category Nd, used by
    [\d] and by [float]) belongs to the Python runtime; it is a parameter
    of the model: [unicode_decimal c] is the digit value of a non-ASCII
    code point [c] that is a decimal digit. *)

Module PriceNormalizer.

Section WithUnicode.

Variable unicode_decimal : Z -> option Z.

Definition decimal_value (c : Z) : option Z :=
  if (48 <=? c) && (c <=? 57) then Some (c - 48)
  else if c <? 128 then None
  else unicode_decimal c.

(** The class [\d]. *)
Definition is_decimal (c : Z) : bool :=
  match decimal_value c with Some _ => true | None => false end.

Definition CURRENCY_SYMBOLS : list (pystr * pystr) :=
  [ (str "$", str "USD");
    (str "€", str "EUR");
    (str "£", str "GBP");
    (str "¥", str "JPY");
    (str "₹", str "INR");
    (str "C$", str "CAD");
    (str "A$", str "AUD");
    (str "₽", str "RUB");
    (str "R$", str "BRL");
    (str "₩", str "KRW") ].

Definition EXCHANGE_RATES_TO_USD : list (pystr * float) :=
  [ (str "USD", dec 10 1);
    (str "EUR", dec 108 2);
    (str "GBP", dec 127 2);
    (str "JPY", dec 67 4);
    (str "INR", dec 12 3);
    (str "CAD", dec 74 2);
    (str "AUD", dec 65 2);
    (str "RUB", dec 11 3);
    (str "BRL", dec 20 2);
    (str "KRW", dec 75 5) ].

(** [d.get(key, default)] on a dict of floats kept in insertion order. *)
Fixpoint dict_get (d : list (pystr * float)) (key : pystr) (default : float)
  : float :=
  match d with
  | [] => default
  | (k, v) :: d' => if str_eqb k key then v else dict_get d' key default
  end.

Definition clean_price_string (price_str : pystr) : pystr :=
  match price_str with
  | [] => []
  | _ =>
      let cleaned := strip price_str in
      let cleaned :=
        sub_prefix_ci [str "from"; str "starting at"; str "price:"; str "now"]
                      cleaned in
      let cleaned :=
        sub_suffix_ci [str "per unit"; str "each"; str "/ea"] cleaned in
      join (str " ") (split_ws cleaned [])
  end.

(** The loop over [CURRENCY_SYMBOLS.items()], in insertion order. *)
Fixpoint detect_symbol (symbols : list (pystr * pystr)) (cleaned : pystr)
  : option (pystr * pystr) :=
  match symbols with
  | [] => None
  | (symbol, code) :: symbols' =>
      if contains symbol cleaned
      then Some (code, strip (replace symbol [] cleaned))
      else detect_symbol symbols' cleaned
  end.

Definition iso_codes : list pystr :=
  [str "USD"; str "EUR"; str "GBP"; str "JPY"; str "INR";
   str "CAD"; str "AUD"; str "RUB"; str "BRL"; str "KRW"].

Definition detect_currency (price_str : pystr) : pystr * pystr :=
  let cleaned := clean_price_string price_str in
  match detect_symbol CURRENCY_SYMBOLS cleaned with
  | Some r => r
  | None =>
      match match_alt_ci iso_codes cleaned with
      | Some (group1, rest) => (map upper_char group1, strip rest)
      | None => (str "USD", cleaned)
      end
  end.

(** A run of decimal digits at the start of [s]: the number read after
    the digits already in [acc], how many digits were read, and the rest. *)
Fixpoint digits (s : pystr) (acc n : Z) : Z * Z * pystr :=
  match s with
  | [] => (acc, n, [])
  | c :: s' =>
      match decimal_value c with
      | Some d => digits s' (acc * 10 + d) (n + 1)
      | None => (acc, n, s)
      end
  end.

(** [float(s)] on the strings that reach it here: they consist of decimal
    digits, ['.'] and ['-'] only, everything else having been removed by
    the regular expression.  On these, [float] accepts an optional sign
    followed by digits with at most one point and at least one digit, and
    returns the nearest float; [None] stands for ValueError. *)
Definition py_float (s : pystr) : option float :=
  let '(negative, body) :=
    match s with
    | c :: s' => if c =? 45 then (true, s') else (false, s)
    | [] => (false, s)
    end in
  let sign x := if negative : bool then fneg x else x in
  let '(ip, ni, rest) := digits body 0 0 in
  match rest with
  | [] => if 0 <? ni then Some (sign (rnd (ip * unit) 1)) else None
  | c :: frac =>
      if c =? 46 then
        let '(fp, nf, rest') := digits frac ip 0 in
        match rest' with
        | [] => if 0 <? ni + nf
                then Some (sign (rnd (fp * unit) (10 ^ nf))) else None
        | _ => None
        end
      else None
  end.

(** [try: result = float(cleaned); return -result if is_negative else
    result; except ValueError: return None] *)
Definition to_float (is_negative : bool) (cleaned : pystr) : option float :=
  result ← py_float cleaned;
  Some (if is_negative then fneg result else result).

Definition parse_numeric_value (value_str : pystr) : option float :=
  match value_str with
  | [] => None
  | _ =>
      let cleaned :=
        List.filter (fun c => is_decimal c || (c =? 46) || (c =? 44) || (c =? 45))
                    value_str in
      match cleaned with
      | [] => None
      | _ =>
          let is_negative := starts_with (str "-") cleaned in
          let cleaned := lstrip_by (fun c => c =? 45) cleaned in
          let comma_count := count 44 cleaned in
          let dot_count := count 46 cleaned in
          if (comma_count =? 0) && (dot_count =? 0) then
            to_float is_negative cleaned
          else if (comma_count =? 0) && (dot_count =? 1) then
            to_float is_negative cleaned
          else if (comma_count =? 1) && (dot_count =? 0) then
            let parts := split_on 44 cleaned in
            let cleaned :=
              if Z.of_nat (length (nth 1 parts [])) =? 2
              then replace (str ",") (str ".") cleaned
              else replace (str ",") [] cleaned in
            to_float is_negative cleaned
          else if (1 <=? dot_count) && (1 <=? comma_count) then
            let last_dot := rfind 46 cleaned in
            let last_comma := rfind 44 cleaned in
            let cleaned :=
              if last_comma <? last_dot
              then replace (str ",") [] cleaned
              else replace (str ",") (str ".") (replace (str ".") [] cleaned) in
            to_float is_negative cleaned
          else
            let cleaned :=
              if 1 <? comma_count then replace (str ",") [] cleaned else cleaned in
            let cleaned :=
              if 1 <? dot_count then replace (str ".") [] cleaned else cleaned in
            to_float is_negative cleaned
      end
  end.

(** The outer [None] stands for an exception (ZeroDivisionError on a zero
    rate, which the table does not contain). *)
Definition normalize_price (price_str target_currency : pystr)
  : option (option float * pystr) :=
  match price_str with
  | [] => Some (None, str "USD")
  | _ =>
      let '(source_currency, cleaned) := detect_currency price_str in
      match parse_numeric_value cleaned with
      | None => Some (None, source_currency)
      | Some value =>
          value ←
            (if negb (str_eqb source_currency target_currency) then
               let source_rate :=
                 dict_get EXCHANGE_RATES_TO_USD source_currency (dec 10 1) in
               let target_rate :=
                 dict_get EXCHANGE_RATES_TO_USD target_currency (dec 10 1) in
               let usd_value := fmul value source_rate in
               fdiv usd_value target_rate
             else Some value);
          Some (Some (round2 value), source_currency)
      end
  end.

End WithUnicode.

(** The table of a runtime that knows no decimal digits beyond ASCII. *)
Definition ascii_only : Z -> option Z := fun _ => None.

End PriceNormalizer.

Import PriceNormalizer.

(** ** Data model ([app/models.py]) *)

Inductive ProductSource : Set := AMAZON | EBAY | WALMART.

Record Review : Set := {
  review_text : pystr;
  review_rating : float;
  review_author : option pystr;
  review_date : option pystr;
  review_verified : bool
}.

Record SentimentAnalysis : Set := {
  overall_sentiment : pystr;
  sentiment_score : float;
  pros : list pystr;
  cons : list pystr;
  summary : pystr
}.

Record Product : Set := {
  id : pystr;
  title : pystr;
  price : float;
  original_price : option float;
  currency : pystr;
  image_url : option pystr;
  product_url : pystr;
  source : ProductSource;
  rating : option float;
  review_count : option Z;
  availability : pystr
}.

(** [ProductWithAnalysis] extends [Product]; [product] holds the inherited
    fields. *)
Record ProductWithAnalysis : Set := {
  product : Product;
  reviews : list Review;
  sentiment : option SentimentAnalysis;
  value_score : float;
  price_score : float;
  review_score : float;
  quality_score : float
}.

(** ** Settings ([app/config.py]) *)

Record Settings : Set := {
  PRICE_WEIGHT : float;
  REVIEW_WEIGHT : float;
  QUALITY_WEIGHT : float
}.

Definition get_settings : Settings :=
  {| PRICE_WEIGHT := dec 35 2; REVIEW_WEIGHT := dec 35 2; QUALITY_WEIGHT := dec 30 2 |}.

(** ** Scoring service ([app/services/scoring_service.py])

    A result of [None] stands for a raised exception (ZeroDivisionError is
    the only one these functions could raise).  The int results [0] and
    [10] of [min(10, max(0, score))] are kept as the floats they equal. *)

Module ScoringService.

(** Python's [sum] over floats, from the int [0], adding from the left
    (Python 3.12 and later compensate the rounding errors of the partial
    sums; the sums here are clamped afterwards), and [len]. *)
Definition py_sum (l : list float) : float := fold_left fadd l (of_int 0).
Definition py_len {A} (l : list A) : Z := Z.of_nat (length l).

(** Python's [min] and [max] of a non-empty list: the first extremal item. *)
Definition py_list_min (l : list float) : option float :=
  match l with
  | [] => None
  | x :: xs => Some (fold_left (fun m y => if flt y m then y else m) xs x)
  end.

Definition py_list_max (l : list float) : option float :=
  match l with
  | [] => None
  | x :: xs => Some (fold_left (fun m y => if flt m y then y else m) xs x)
  end.

Definition clamp_round (score : float) : float :=
  round2 (py_min (of_int 10) (py_max (of_int 0) score)).

Definition calculate_price_score (price min_price max_price : float)
  : option float :=
  if feq max_price min_price then Some (dec 75 1)
  else
    normalized ← fdiv (fsub max_price price) (fsub max_price min_price);
    let score := fmul normalized (of_int 10) in
    Some (clamp_round score).

(** The volume confidence modifier that [calculate_review_score] applies
    (it starts at 1.0 and is reassigned when a review count is given). *)
Definition volume_modifier (review_count : option Z) : float :=
  match review_count with
  | None => dec 10 1
  | Some c =>
      if 1000 <=? c then dec 115 2
      else if 500 <=? c then dec 110 2
      else if 100 <=? c then dec 105 2
      else if 10 <=? c then dec 10 1
      else dec 90 2
  end.

Definition calculate_review_score (rating : option float)
    (review_count : option Z) (sentiment : option SentimentAnalysis)
  : option float :=
  base_score ← match rating with
               | Some r => q ← fdiv r (of_int 5); Some (fmul q (of_int 10))
               | None => Some (dec 50 1)
               end;
  let sentiment_adjustment :=
    match sentiment with
    | Some s => fmul (sentiment_score s) (dec 5 1)
    | None => dec 0 1
    end in
  let score := fadd (fmul base_score (volume_modifier review_count))
                    sentiment_adjustment in
  Some (clamp_round score).

Definition quality_keys : list pystr :=
  [str "durability"; str "performance"; str "build_quality"; str "value_for_money"].

Definition calculate_quality_score (sentiment : option SentimentAnalysis)
    (quality_indicators : option (gmap pystr float)) : option float :=
  scores1 ← match sentiment with
            | Some s =>
                let sentiment_score := fmul (fadd (sentiment_score s) (of_int 1)) (of_int 5) in
                let pros_count := py_len (pros s) in
                let cons_count := py_len (cons s) in
                if (0 <? pros_count) || (0 <? cons_count) then
                  ratio ← int_truediv pros_count (pros_count + cons_count);
                  Some [sentiment_score; fmul ratio (of_int 10)]
                else Some [sentiment_score]
            | None => Some []
            end;
  scores ← match quality_indicators with
           | Some qi =>
               if bool_decide (qi = ∅) then Some scores1
               else
                 let indicator_scores :=
                   omap (fun key => (fun v => fmul v (of_int 10)) <$> qi !! key)
                        quality_keys in
                 match indicator_scores with
                 | [] => Some scores1
                 | _ =>
                     avg ← fdiv (py_sum indicator_scores)
                                (of_int (py_len indicator_scores));
                     Some (scores1 ++ [avg])
                 end
           | None => Some scores1
           end;
  match scores with
  | [] => Some (dec 50 1)
  | _ =>
      avg ← fdiv (py_sum scores) (of_int (py_len scores));
      Some (clamp_round avg)
  end.

Definition calculate_value_score (settings : Settings)
    (price_score review_score quality_score : float) : float :=
  let weighted_score :=
    fadd (fadd (fmul price_score (PRICE_WEIGHT settings))
               (fmul review_score (REVIEW_WEIGHT settings)))
         (fmul quality_score (QUALITY_WEIGHT settings)) in
  round2 weighted_score.

Definition score_product (settings : Settings) (p : Product)
    (min_price max_price : float) (reviews : list Review)
    (sentiment : option SentimentAnalysis)
    (quality_indicators : option (gmap pystr float))
  : option ProductWithAnalysis :=
  price_score ← calculate_price_score (price p) min_price max_price;
  review_score ← calculate_review_score (rating p) (review_count p) sentiment;
  quality_score ← calculate_quality_score sentiment quality_indicators;
  let value_score :=
    calculate_value_score settings price_score review_score quality_score in
  Some {| product := p; reviews := reviews; sentiment := sentiment;
          value_score := value_score; price_score := price_score;
          review_score := review_score; quality_score := quality_score |}.

(** [list.sort(key=..., reverse=True)]: a stable sort into descending
    order of the key; an item moves behind another only when its key is
    strictly smaller. *)
Fixpoint insert_desc {A} (key : A -> float) (x : A) (l : list A) : list A :=
  match l with
  | [] => [x]
  | y :: l' => if flt (key x) (key y) then y :: insert_desc key x l' else x :: l
  end.

Definition sort_desc {A} (key : A -> float) (l : list A) : list A :=
  foldr (insert_desc key) [] l.

Definition score_products (settings : Settings) (products : list Product)
    (reviews_map : gmap pystr (list Review))
    (sentiments_map : gmap pystr SentimentAnalysis)
    (quality_map : option (gmap pystr (gmap pystr float)))
  : option (list ProductWithAnalysis) :=
  match products with
  | [] => Some []
  | _ =>
      let prices := map price products in
      min_price ← py_list_min prices;
      max_price ← py_list_max prices;
      scored_products ←
        mapM (fun p =>
                let reviews := default [] (reviews_map !! id p) in
                let sentiment := sentiments_map !! id p in
                let quality :=
                  match quality_map with
                  | Some qm => if bool_decide (qm = ∅) then None else qm !! id p
                  | None => None
                  end in
                score_product settings p min_price max_price
                              reviews sentiment quality)
             products;
      Some (sort_desc value_score scored_products)
  end.

(** Python's [max(items, key=...)]: the first item whose key no later key
    exceeds. *)
Definition keep_greater {A} (key : A -> float) (best y : A) : A :=
  if flt (key best) (key y) then y else best.

Definition py_max_by {A} (key : A -> float) (l : list A) : option A :=
  match l with
  | [] => None
  | x :: xs => Some (fold_left (keep_greater key) xs x)
  end.

Record Bests : Set := {
  best_value : option ProductWithAnalysis;
  best_price : option ProductWithAnalysis;
  best_quality : option ProductWithAnalysis
}.

Definition get_best_products (products : list ProductWithAnalysis) : Bests :=
  match products with
  | [] => {| best_value := None; best_price := None; best_quality := None |}
  | _ => {| best_value := py_max_by value_score products;
            best_price := py_max_by price_score products;
            best_quality := py_max_by quality_score products |}
  end.

(** What the data model asks of a scored candidate: the four scores lie
    in [[0, 10]] and the value score is the weighted sum of the other
    three, rounded to two decimals. *)
Definition scores_ok (sc : ProductWithAnalysis) : Prop :=
  in_0_10 (price_score sc) /\ in_0_10 (review_score sc) /\
  in_0_10 (quality_score sc) /\ in_0_10 (value_score sc) /\
  value_score sc =
  round2 (fadd (fadd (fmul (price_score sc) (dec 35 2))
                     (fmul (review_score sc) (dec 35 2)))
               (fmul (quality_score sc) (dec 30 2))).

(** [b] is the first item of [l] with the greatest key. *)
Definition first_max {A} (key : A -> float) (l : list A) (b : A) : Prop :=
  exists l1 l2 : list A,
    l = l1 ++ b :: l2 /\
    (forall y, In y l1 -> flt (key y) (key b) = true) /\
    (forall y, In y l2 -> fle (key y) (key b) = true).

(** [b] is a best item of [l]: a member with the greatest key, and the
    first such. *)
Definition is_best {A} (key : A -> float) (l : list A) (b : A) : Prop :=
  In b l /\ (forall y, In y l -> fle (key y) (key b) = true) /\
  first_max key l b.

(** The three scores that [get_best_products] compares are numbers. *)
Definition scores_not_nan (sc : ProductWithAnalysis) : Prop :=
  is_nan (value_score sc) = false /\ is_nan (price_score sc) = false /\
  is_nan (quality_score sc) = false.

(** The frame of [tests/test_scoring.py]: five products and their
    sentiments (the texts of pros and cons do not matter, their numbers
    do). *)
Definition test_product (ident name : string) (amount : float)
    (stars : option float) (count : Z) : Product :=
  {| id := str ident; title := str name; price := amount;
     original_price := None; currency := str "USD"; image_url := None;
     product_url := str "https://example.com/item"; source := AMAZON;
     rating := stars; review_count := Some count;
     availability := str "in_stock" |}.

Definition test_sentiment (score : float) (n_pros n_cons : nat)
  : SentimentAnalysis :=
  {| overall_sentiment := str "neutral"; sentiment_score := score;
     pros := repeat (str "pro") n_pros; cons := repeat (str "con") n_cons;
     summary := [] |}.

Definition test_products : list Product :=
  [ test_product "prod_001" "Budget Wireless Earbuds" (dec 2999 2)
      (Some (dec 45 1)) 2500;
    test_product "prod_002" "Premium Noise Cancelling Headphones"
      (dec 34999 2) (Some (dec 48 1)) 8500;
    test_product "prod_003" "Standard Over-Ear Headphones" (dec 8999 2)
      (Some (dec 35 1)) 450;
    test_product "prod_004" "Ultra Budget Wired Earphones" (dec 799 2)
      (Some (dec 21 1)) 150;
    test_product "prod_005" "New Gaming Headset" (dec 14999 2) None 0 ].

Definition test_sentiments : gmap pystr SentimentAnalysis :=
  <[str "prod_001" := test_sentiment (dec 75 2) 3 2]>
    (<[str "prod_002" := test_sentiment (dec 92 2) 4 2]>
      (<[str "prod_003" := test_sentiment (dec 15 2) 2 3]>
        (<[str "prod_004" := test_sentiment (dec (-65) 2) 1 4]>
          (<[str "prod_005" := test_sentiment (dec 0 1) 0 0]> ∅)))).

(** Identifier and the value, price, review and quality scores. *)
Definition score_row (sc : ProductWithAnalysis)
  : pystr * float * float * float * float :=
  (id (product sc), value_score sc, price_score sc, review_score sc,
   quality_score sc).

(** The two best-ranked candidates of that frame, as scored. *)
Definition sample_scored (p : Product) (value price_s review quality : float)
  : ProductWithAnalysis :=
  {| product := p; reviews := []; sentiment := None;
     value_score := value; price_score := price_s;
     review_score := review; quality_score := quality |}.

Definition sample_frame : list ProductWithAnalysis :=
  [ sample_scored
      (test_product "prod_001" "Budget Wireless Earbuds" (dec 2999 2)
         (Some (dec 45 1)) 2500)
      (dec 899 2) (dec 936 2) (dec 100 1) (dec 738 2);
    sample_scored
      (test_product "prod_003" "Standard Over-Ear Headphones" (dec 8999 2)
         (Some (dec 35 1)) 450)
      (dec 672 2) (dec 76 1) (dec 743 2) (dec 488 2) ].

(** The sentiment's score, when there is a sentiment, is a number. *)
Definition sentiment_finite (s : option SentimentAnalysis) : Prop :=
  match s with
  | Some sa => finite (sentiment_score sa) = true
  | None => True
  end.

(** The review counts [c1] and [c2] lie on the two sides of a volume
    threshold. *)
Definition crosses_threshold (c1 c2 : Z) : Prop :=
  exists t, In t [10; 100; 500; 1000] /\ c1 < t <= c2.

End ScoringService.

Import ScoringService.

(** ** Mock data service ([app/services/mock_service.py])

    [str.lower], [str.title] and [hash] belong to the Python runtime (the
    hash of a string is salted once per interpreter process); they are
    parameters of the model.  The state of the [random] module is the
    sequence of 53-bit integers its generator will produce next: a call of
    [random.random()] returns the next one divided by [2^53]. *)

Module MockService.

Record MockItem : Set := {
  item_title : pystr;
  item_price : float;
  item_original_price : option float;
  item_rating : float;
  item_review_count : Z;
  item_source : ProductSource;
  item_image_url : pystr
}.

Definition MOCK_PRODUCTS : list (pystr * list MockItem) :=
  [ (str "wireless headphones",
     [
    {| item_title := str "Sony WH-1000XM5 Wireless Noise Cancelling Headphones";
       item_price := dec 34800 2; item_original_price := Some (dec 39999 2);
       item_rating := dec 47 1; item_review_count := 12543;
       item_source := AMAZON;
       item_image_url := str "https://m.media-amazon.com/images/I/61vJtKbassL._AC_SL1500_.jpg" |};
    {| item_title := str "Apple AirPods Max - Space Gray";
       item_price := dec 44900 2; item_original_price := Some (dec 54900 2);
       item_rating := dec 46 1; item_review_count := 8234;
       item_source := AMAZON;
       item_image_url := str "https://m.media-amazon.com/images/I/81jNKu5U3lL._AC_SL1500_.jpg" |};
    {| item_title := str "Bose QuietComfort Ultra Headphones";
       item_price := dec 37900 2; item_original_price := Some (dec 42900 2);
       item_rating := dec 45 1; item_review_count := 5621;
       item_source := EBAY;
       item_image_url := str "https://m.media-amazon.com/images/I/51QnOIvVm8L._AC_SL1500_.jpg" |};
    {| item_title := str "Sennheiser Momentum 4 Wireless Headphones";
       item_price := dec 29995 2; item_original_price := Some (dec 37995 2);
       item_rating := dec 44 1; item_review_count := 3456;
       item_source := WALMART;
       item_image_url := str "https://m.media-amazon.com/images/I/61SUj2aKoEL._AC_SL1500_.jpg" |};
    {| item_title := str "JBL Tune 760NC Wireless Headphones";
       item_price := dec 7995 2; item_original_price := Some (dec 12995 2);
       item_rating := dec 43 1; item_review_count := 7892;
       item_source := WALMART;
       item_image_url := str "https://m.media-amazon.com/images/I/61SUj2aKoEL._AC_SL1500_.jpg" |} ]);
    (str "laptop stand",
     [
    {| item_title := str "Rain Design mStand Laptop Stand - Space Gray";
       item_price := dec 4990 2; item_original_price := Some (dec 5990 2);
       item_rating := dec 47 1; item_review_count := 15234;
       item_source := AMAZON;
       item_image_url := str "https://m.media-amazon.com/images/I/71-oNMl84VL._AC_SL1500_.jpg" |};
    {| item_title := str "Twelve South Curve SE Aluminum Laptop Stand";
       item_price := dec 5999 2; item_original_price := Some (dec 7999 2);
       item_rating := dec 46 1; item_review_count := 4521;
       item_source := AMAZON;
       item_image_url := str "https://m.media-amazon.com/images/I/71-oNMl84VL._AC_SL1500_.jpg" |};
    {| item_title := str "UGREEN Laptop Stand Adjustable Height";
       item_price := dec 2999 2; item_original_price := Some (dec 3999 2);
       item_rating := dec 45 1; item_review_count := 8765;
       item_source := EBAY;
       item_image_url := str "https://m.media-amazon.com/images/I/71-oNMl84VL._AC_SL1500_.jpg" |};
    {| item_title := str "Amazon Basics Laptop Stand - Black";
       item_price := dec 1999 2; item_original_price := Some (dec 2499 2);
       item_rating := dec 43 1; item_review_count := 23456;
       item_source := WALMART;
       item_image_url := str "https://m.media-amazon.com/images/I/71-oNMl84VL._AC_SL1500_.jpg" |} ]);
    (str "default",
     [
    {| item_title := str "Premium Product A - Top Rated";
       item_price := dec 14999 2; item_original_price := Some (dec 19999 2);
       item_rating := dec 48 1; item_review_count := 5432;
       item_source := AMAZON;
       item_image_url := str "https://via.placeholder.com/300x300?text=Product+A" |};
    {| item_title := str "Best Value Product B";
       item_price := dec 7999 2; item_original_price := Some (dec 9999 2);
       item_rating := dec 45 1; item_review_count := 8765;
       item_source := EBAY;
       item_image_url := str "https://via.placeholder.com/300x300?text=Product+B" |};
    {| item_title := str "Budget-Friendly Product C";
       item_price := dec 3999 2; item_original_price := Some (dec 4999 2);
       item_rating := dec 42 1; item_review_count := 12345;
       item_source := WALMART;
       item_image_url := str "https://via.placeholder.com/300x300?text=Product+C" |};
    {| item_title := str "Professional Product D";
       item_price := dec 24999 2; item_original_price := Some (dec 29999 2);
       item_rating := dec 46 1; item_review_count := 3456;
       item_source := AMAZON;
       item_image_url := str "https://via.placeholder.com/300x300?text=Product+D" |};
    {| item_title := str "Affordable Product E";
       item_price := dec 2499 2; item_original_price := None;
       item_rating := dec 40 1; item_review_count := 6789;
       item_source := EBAY;
       item_image_url := str "https://via.placeholder.com/300x300?text=Product+E" |} ]) ].

Record Rng : Set := {
  tape : nat -> Z;
  pos : nat
}.

(** [random.random()] *)
Definition random (g : Rng) : float * Rng :=
  (Fin (tape g (pos g) mod 2 ^ 53 * 2 ^ 1021),
   {| tape := tape g; pos := S (pos g) |}).

(** [random.uniform(a, b)] is [a + (b - a) * random()]. *)
Definition uniform (a b : Z) (g : Rng) : float * Rng :=
  let '(r, g') := random g in
  (fadd (of_int a) (fmul (of_int (b - a)) r), g').

Definition source_value (s : ProductSource) : pystr :=
  match s with
  | AMAZON => str "amazon"
  | EBAY => str "ebay"
  | WALMART => str "walmart"
  end.

Definition source_eqb (a b : ProductSource) : bool :=
  match a, b with
  | AMAZON, AMAZON | EBAY, EBAY | WALMART, WALMART => true
  | _, _ => false
  end.

(** [str(n)] for an int. *)
Fixpoint decimal_digits (fuel : nat) (n : Z) (acc : pystr) : pystr :=
  match fuel with
  | O => acc
  | S fuel' =>
      let acc' := (48 + n mod 10) :: acc in
      if n <? 10 then acc' else decimal_digits fuel' (n / 10) acc'
  end.

Definition str_of_int (n : Z) : pystr :=
  if n <? 0 then 45 :: decimal_digits (Z.to_nat (Z.log2 (- n) + 1)) (- n) []
  else decimal_digits (Z.to_nat (Z.log2 n + 1)) n [].

Section WithRuntime.

Variable py_lower : pystr -> pystr.
Variable py_title : pystr -> pystr.
Variable py_hash : pystr -> Z.

(** The first key of [MOCK_PRODUCTS] found in the query selects the
    templates; without one, the templates of ["default"]. *)
Fixpoint select_mock_data (table : list (pystr * list MockItem))
    (query_lower : pystr) (default : list MockItem) : list MockItem :=
  match table with
  | [] => default
  | (key, items) :: table' =>
      if contains key query_lower then items
      else select_mock_data table' query_lower default
  end.

Fixpoint dict_get_items (table : list (pystr * list MockItem)) (key : pystr)
    (default : list MockItem) : list MockItem :=
  match table with
  | [] => default
  | (k, v) :: table' =>
      if str_eqb k key then v else dict_get_items table' key default
  end.

Definition mock_product (query query_lower : pystr) (i : Z) (item : MockItem)
    (variation : float) : Product :=
  let title :=
    if negb (contains query_lower (py_lower (item_title item)))
    then item_title item ++ str " - " ++ py_title query
    else item_title item in
  {| id := str "mock_" ++ source_value (item_source item) ++ str "_"
           ++ str_of_int i ++ str "_" ++ str_of_int (py_hash query mod 10000);
     title := title;
     price := fadd (item_price item) variation;
     original_price := item_original_price item;
     currency := str "USD";
     image_url := Some (item_image_url item);
     product_url := str "https://example.com/product/" ++ str_of_int i;
     source := item_source item;
     rating := Some (item_rating item);
     review_count := Some (item_review_count item);
     availability := str "in_stock" |}.

(** The loop over [enumerate(mock_data)]; a random number is drawn for
    each product that is created. *)
Fixpoint mock_loop (query query_lower : pystr) (sources : list ProductSource)
    (limit : Z) (items : list MockItem) (i : Z) (products : list Product)
    (g : Rng) : list Product * Rng :=
  match items with
  | [] => (products, g)
  | item :: items' =>
      if existsb (source_eqb (item_source item)) sources
         && (Z.of_nat (length products) <? limit)
      then
        let '(variation, g') := uniform (-5) 5 g in
        let product := mock_product query query_lower i item variation in
        mock_loop query query_lower sources limit items' (i + 1)
                  (products ++ [product]) g'
      else
        mock_loop query query_lower sources limit items' (i + 1) products g
  end.

Definition get_mock_products (query : pystr) (sources : list ProductSource)
    (limit : Z) (g : Rng) : list Product * Rng :=
  let query_lower := py_lower query in
  let mock_data := dict_get_items MOCK_PRODUCTS (str "default") [] in
  let mock_data := select_mock_data MOCK_PRODUCTS query_lower mock_data in
  mock_loop query query_lower sources limit mock_data 0 [] g.

(** The templates that [get_mock_products] works from: the value of
    [mock_data] when the loop over the keys of [MOCK_PRODUCTS] is left. *)
Definition mock_data (query : pystr) : list MockItem :=
  select_mock_data MOCK_PRODUCTS (py_lower query)
    (dict_get_items MOCK_PRODUCTS (str "default") []).

End WithRuntime.




Definition ascii_is_alpha (c : Z) : bool :=
  ((65 <=? c) && (c <=? 90)) || ((97 <=? c) && (c <=? 122)).




End MockService.

Import MockService.

(** ** Discounts, display and price ranges ([app/utils/price_normalizer.py]) *)

(** The division cannot fail: a zero original price is caught by the first
    test.  [None] would stand for ZeroDivisionError. *)
Definition calculate_discount_percentage (original_price current_price : float)
  : option float :=
  if fle original_price (of_int 0) || flt current_price (of_int 0)
  then Some (dec 0 1)
  else if fle original_price current_price then Some (dec 0 1)
  else
    ratio ← fdiv (fsub original_price current_price) original_price;
    let discount := fmul ratio (of_int 100) in
    Some (round1 discount).

(** [d[key] = value] and [d.get(key, default)] on a dict of strings kept in
    insertion order. *)
Fixpoint dict_set (d : list (pystr * pystr)) (key value : pystr)
  : list (pystr * pystr) :=
  match d with
  | [] => [(key, value)]
  | (k, v) :: d' =>
      if str_eqb k key then (k, value) :: d' else (k, v) :: dict_set d' key value
  end.

Fixpoint dict_get_str (d : list (pystr * pystr)) (key default : pystr) : pystr :=
  match d with
  | [] => default
  | (k, v) :: d' => if str_eqb k key then v else dict_get_str d' key default
  end.

(** The digits of a number, last digit first, with a comma after every
    third digit that has a digit after it. *)
Fixpoint group3 (r : pystr) : pystr :=
  match r with
  | a :: b :: c :: ((_ :: _) as r') => a :: b :: c :: 44 :: group3 r'
  | _ => r
  end.

Definition with_commas (ds : pystr) : pystr := rev (group3 (rev ds)).

(** [f"{i:,}"] for an int. *)
Definition format_int_grouped (i : Z) : pystr :=
  if i <? 0 then 45 :: with_commas (str_of_int (- i))
  else with_commas (str_of_int i).

(** [int(x)]: the integer part; [None] stands for the ValueError on NaN
    and the OverflowError on an infinity. *)
Definition py_int (x : float) : option Z :=
  match x with
  | Fin n => Some (Z.quot n unit)
  | _ => None
  end.

(** [f"{x:,.2f}"]: the exact value of [x] rounded to a whole number of
    hundredths, ties to even, written with a comma between groups of three
    digits.  (Python writes the negative zero, which this model does not
    tell from zero, with a minus sign.) *)
Definition format_fixed2_grouped (x : float) : pystr :=
  match x with
  | Fin n =>
      let m := rhe (Z.abs n * 100) unit in
      (if n <? 0 then [45] else [])
      ++ with_commas (str_of_int (m / 100))
      ++ [46; 48 + m mod 100 / 10; 48 + m mod 10]
  | PInf => str "inf"
  | NInf => str "-inf"
  | NaN => str "nan"
  end.

Definition format_price (price : float) (currency : pystr) : option pystr :=
  let symbol_map :=
    fold_left (fun d kv => dict_set d kv.2 kv.1) CURRENCY_SYMBOLS [] in
  let symbol := dict_get_str symbol_map currency (currency ++ str " ") in
  formatted ←
    (if existsb (fun c => str_eqb currency c) [str "JPY"; str "KRW"]
     then i ← py_int price; Some (format_int_grouped i)
     else Some (format_fixed2_grouped price));
  Some (symbol ++ formatted).

(** The three range patterns have the shape [(.+?)SEP(.+)] and are tried
    with [re.match].  [.] matches every character but the newline. *)

(** [.+] at the start of [s]: everything up to the first newline. *)
Fixpoint line (s : pystr) : pystr :=
  match s with
  | [] => []
  | c :: s' => if c =? 10 then [] else c :: line s'
  end.

(** [\s*(.+)] matched at the start of [s]: the whitespace is taken
    greedily and given back until a character other than a newline
    follows; the group then runs to the end of the line. *)
Fixpoint tail_group (s : pystr) : option pystr :=
  match s with
  | [] => None
  | c :: s' =>
      if is_space c then
        match tail_group s' with
        | Some g => Some g
        | None => if c =? 10 then None else Some (line s)
        end
      else Some (line s)
  end.

(** [\s+(.+)] *)
Definition tail_group1 (s : pystr) : option pystr :=
  match s with
  | c :: s' => if is_space c then tail_group s' else None
  | [] => None
  end.

(** The hyphen, the en dash and the em dash. *)
Definition is_dash (c : Z) : bool := (c =? 45) || (c =? 8211) || (c =? 8212).

(** [\s*[-–—]\s*(.+)] at the start of [t]: the second group. *)
Definition dash_separator (t : pystr) : option pystr :=
  match lstrip_by is_space t with
  | d :: t' => if is_dash d then tail_group t' else None
  | [] => None
  end.

(** [\s+word\s+(.+)] at the start of [t], ignoring case. *)
Definition word_separator (word t : pystr) : option pystr :=
  match t with
  | c :: _ =>
      if is_space c then
        t' ← match_ci word (lstrip_by is_space t); tail_group1 t'
      else None
  | [] => None
  end.

(** [re.match(r'(.+?)SEP(.+)', s)]: the first group is the shortest
    non-empty start of the first line after which the separator and the
    second group match; [g1] holds it reversed. *)
Fixpoint range_match (separator : pystr -> option pystr) (g1 s : pystr)
  : option (pystr * pystr) :=
  match s with
  | [] => None
  | c :: s' =>
      if c =? 10 then None
      else match separator s' with
           | Some g2 => Some (rev (c :: g1), g2)
           | None => range_match separator (c :: g1) s'
           end
  end.

Definition range_patterns : list (pystr -> option pystr) :=
  [dash_separator; word_separator (str "to"); word_separator (str "~")].

(** The loop over [range_patterns]: the groups of the first pattern that
    matches. *)
Fixpoint first_range (patterns : list (pystr -> option pystr)) (s : pystr)
  : option (pystr * pystr) :=
  match patterns with
  | [] => None
  | separator :: patterns' =>
      match range_match separator [] s with
      | Some groups => Some groups
      | None => first_range patterns' s
      end
  end.

(** The outer [None] stands for an exception of [normalize_price]. *)
Definition extract_price_range (unicode_decimal : Z -> option Z)
    (price_str : pystr) : option (option float * option float) :=
  match price_str with
  | [] => Some (None, None)
  | _ =>
      match first_range range_patterns price_str with
      | Some (group1, group2) =>
          lo ← normalize_price unicode_decimal group1 (str "USD");
          hi ← normalize_price unicode_decimal group2 (str "USD");
          Some (lo.1, hi.1)
      | None =>
          single ← normalize_price unicode_decimal price_str (str "USD");
          Some (single.1, single.1)
      end
  end.

(** ** Notions used in the statements *)

(** [l] is in descending order of [key]. *)
Definition descending {A} (key : A -> float) (l : list A) : Prop :=
  StronglySorted (fun a b => fle (key b) (key a) = true) l.

(** The items of [l] whose key equals [v], in the order of [l]. *)
Definition with_key {A} (key : A -> float) (v : float) (l : list A) : list A :=
  List.filter (fun x => feq (key x) v) l.

(** A rating, when there is one, is a number. *)
Definition rating_is_number (r : option float) : Prop :=
  match r with
  | Some x => is_nan x = false
  | None => True
  end.

(** A price as the data model has it: a finite binary64 number that is not
    negative. *)
Definition price_ok (x : float) : Prop :=
  finite x = true /\ representable x = true /\ fle (Fin 0) x = true.

(** The product comes from one of the requested sources. *)
Definition from_sources (sources : list ProductSource) (p : Product) : Prop :=
  existsb (source_eqb (source p)) sources = true.

(** Strings of ASCII digits and the number they denote. *)
Definition is_ascii_digit (c : Z) : bool := (48 <=? c) && (c <=? 57).

Definition ascii_digits (s : pystr) : Prop :=
  List.Forall (fun c => is_ascii_digit c = true) s.

Fixpoint number_from (s : pystr) (acc : Z) : Z :=
  match s with
  | [] => acc
  | c :: s' => number_from s' (acc * 10 + (c - 48))
  end.

Definition number (s : pystr) : Z := number_from s 0.

(** The characters that [parse_numeric_value] keeps: the complement of the
    class [[^\d.,\-]]. *)
Definition kept (unicode_decimal : Z -> option Z) (c : Z) : bool :=
  is_decimal unicode_decimal c || (c =? 46) || (c =? 44) || (c =? 45).

(** [s] without the character [c]. *)
Definition without (c : Z) (s : pystr) : pystr :=
  List.filter (fun x => negb (x =? c)) s.

(** A string of ASCII digits and the separator [sep]. *)
Definition grouped (sep : Z) (s : pystr) : Prop :=
  List.Forall (fun c => is_ascii_digit c = true \/ c = sep) s.

(** The characters of a number as [format_price] writes it: ASCII digits,
    the point, the comma and the minus sign. *)
Definition numeric (c : Z) : bool :=
  is_ascii_digit c || (c =? 46) || (c =? 44) || (c =? 45).

(** A pattern that starts with an ASCII letter. *)
Definition starts_alpha (pat : pystr) : Prop :=
  match pat with
  | p :: _ => ascii_is_alpha p = true
  | [] => False
  end.

(** A text that is empty or starts with a character below ['A']. *)
Definition starts_low (s : pystr) : Prop :=
  match s with
  | c :: _ => c < 65
  | [] => True
  end.

(** A character that no ASCII letter matches when case is ignored. *)
Definition caseless (c : Z) : Prop :=
  forall p, ascii_is_alpha p = true -> re_ignorecase_eq p c = false.

(** A character that is neither whitespace nor a dash. *)
Definition solid (c : Z) : Prop := is_space c = false /\ is_dash c = false.

(** The text that [parse_numeric_value] hands to [float], for a text of
    kept characters that does not start with a minus sign: the separators
    [','] (44) and ['.'] (46) are counted and then replaced as the function
    does. *)
Definition separated (s : pystr) : pystr :=
  let comma_count := count 44 s in
  let dot_count := count 46 s in
  if (comma_count =? 0) && (dot_count =? 0) then s
  else if (comma_count =? 0) && (dot_count =? 1) then s
  else if (comma_count =? 1) && (dot_count =? 0) then
    if Z.of_nat (length (nth 1 (split_on 44 s) [])) =? 2
    then replace [44] [46] s
    else replace [44] [] s
  else if (1 <=? dot_count) && (1 <=? comma_count) then
    if rfind 44 s <? rfind 46 s
    then replace [44] [] s
    else replace [44] [46] (replace [46] [] s)
  else
    let s1 := if 1 <? comma_count then replace [44] [] s else s in
    if 1 <? dot_count then replace [46] [] s1 else s1.

(** Inputs on which the statements are run. *)
Definition scored_test_frame : list ProductWithAnalysis :=
  default [] (score_products get_settings test_products ∅ test_sentiments None).

Definition cheapest_scored : ProductWithAnalysis :=
  nth 3 scored_test_frame
      (sample_scored (test_product "none" "none" (dec 0 1) None 0)
                     (dec 0 1) (dec 0 1) (dec 0 1) (dec 0 1)).

(** *** Rounding is monotone *)

Section Rounding.

Lemma cancel2_spec (a b : positive) :
  exists c : Z, 0 < c /\
    Zpos a = Zpos (cancel2 a b).1 * c /\ Zpos b = Zpos (cancel2 a b).2 * c.
Proof.
  revert b. induction a as [a IH | a IH |]; intros b;
    try (exists 1; cbn; lia).
  destruct b as [b | b |]; try (exists 1; cbn; lia).
  destruct (IH b) as (c & Hc & Ea & Eb).
  exists (2 * c). cbn [cancel2]. lia.
Qed.

Lemma reduced_spec (p q : Z) :
  0 < q ->
  exists c : Z, 0 < c /\ 0 < (reduced p q).2 /\
    p = (reduced p q).1 * c /\ q = (reduced p q).2 * c.
Proof.
  intros Hq. destruct q as [| b | b]; try lia.
  destruct p as [| a | a]; cbn [reduced].
  - exists 1. cbn. lia.
  - destruct (cancel2_spec a b) as (c & Hc & Ea & Eb).
    destruct (cancel2 a b) as [a' b']. exists c. cbn in *. lia.
  - destruct (cancel2_spec a b) as (c & Hc & Ea & Eb).
    destruct (cancel2 a b) as [a' b']. exists c. cbn in *. lia.
Qed.

Lemma rhe_plain_scale (p q c : Z) :
  0 < q -> 0 < c -> rhe_plain (p * c) (q * c) = rhe_plain p q.
Proof.
  intros Hq Hc. unfold rhe_plain.
  rewrite Z.div_mul_cancel_r by lia.
  rewrite Z.mul_mod_distr_r by lia.
  replace (2 * (p mod q * c) ?= q * c) with (2 * (p mod q) ?= q); [reflexivity |].
  destruct (Z.compare_spec (2 * (p mod q)) q) as [E | L | G]; symmetry.
  - apply Z.compare_eq_iff. nia.
  - apply Z.compare_lt_iff. nia.
  - apply Z.compare_gt_iff. nia.
Qed.

Lemma rhe_eq (p q : Z) : 0 < q -> rhe p q = rhe_plain p q.
Proof.
  intros Hq. unfold rhe.
  destruct (reduced_spec p q Hq) as (c & Hc & Hq' & Ep & Eq).
  destruct (reduced p q) as [p' q']. cbn [fst snd] in *.
  rewrite Ep, Eq. symmetry. apply rhe_plain_scale; assumption.
Qed.

Lemma quot_eq (p q : Z) : 0 < q -> quot p q = p / q.
Proof.
  intros Hq. unfold quot.
  destruct (reduced_spec p q Hq) as (c & Hc & Hq' & Ep & Eq).
  destruct (reduced p q) as [p' q']. cbn [fst snd] in *.
  rewrite Ep, Eq. rewrite Z.div_mul_cancel_r by lia. reflexivity.
Qed.

Lemma rhe_cases (p q : Z) :
  0 < q ->
  (rhe p q = p / q /\ 2 * (p mod q) <= q) \/
  (rhe p q = p / q + 1 /\ q <= 2 * (p mod q)).
Proof.
  intros Hq. rewrite rhe_eq by assumption. unfold rhe_plain.
  destruct (Z.compare_spec (2 * (p mod q)) q) as [E | L | G].
  - destruct (Z.even (p / q)); [left | right]; lia.
  - left; lia.
  - right; lia.
Qed.

Lemma rhe_bounds (p q a b : Z) :
  0 < q -> a * q <= p <= b * q -> a <= rhe p q <= b.
Proof.
  intros Hq [Ha Hb].
  pose proof (Z.div_mod p q ltac:(lia)) as E.
  pose proof (Z.mod_pos_bound p q Hq) as R.
  assert (a <= p / q) by nia.
  assert (p / q <= b) by nia.
  destruct (rhe_cases p q Hq) as [[-> _] | [-> H2]]; [lia |].
  split; [lia |].
  assert (p / q < b) by nia. lia.
Qed.

Lemma rhe_exact (m q : Z) : 0 < q -> rhe (m * q) q = m.
Proof.
  intros Hq. pose proof (rhe_bounds (m * q) q m m Hq). lia.
Qed.

Lemma rhe_mono (p1 q1 p2 q2 : Z) :
  0 < q1 -> 0 < q2 -> p1 * q2 <= p2 * q1 -> rhe p1 q1 <= rhe p2 q2.
Proof.
  intros H1 H2 Hle.
  pose proof (Z.div_mod p1 q1 ltac:(lia)) as E1.
  pose proof (Z.mod_pos_bound p1 q1 H1) as R1.
  pose proof (Z.div_mod p2 q2 ltac:(lia)) as E2.
  pose proof (Z.mod_pos_bound p2 q2 H2) as R2.
  set (d1 := p1 / q1) in *. set (r1 := p1 mod q1) in *.
  set (d2 := p2 / q2) in *. set (r2 := p2 mod q2) in *.
  assert (Hd : d1 <= d2).
  { destruct (Z_le_gt_dec d1 d2) as [|G]; [assumption | exfalso].
    assert (d2 + 1 <= d1) by lia.
    assert (p2 * q1 < (d2 + 1) * q2 * q1) by nia.
    assert ((d2 + 1) * q2 * q1 <= d1 * q1 * q2) by nia.
    nia. }
  rewrite !rhe_eq by assumption.
  unfold rhe_plain. fold d1 r1 d2 r2.
  destruct (Z.eq_dec d1 d2) as [Heq | Hne].
  - assert (Hr : r1 * q2 <= r2 * q1) by nia.
    rewrite <- Heq.
    destruct (Z.compare_spec (2 * r1) q1) as [A | A | A];
      destruct (Z.compare_spec (2 * r2) q2) as [B | B | B];
      destruct (Z.even d1); try lia; exfalso; nia.
  - assert (d1 + 1 <= d2) by lia.
    destruct (Z.compare_spec (2 * r1) q1);
      destruct (Z.compare_spec (2 * r2) q2);
      destruct (Z.even d1); destruct (Z.even d2); lia.
Qed.

Lemma grid_nonneg (v : Z) : 0 <= grid v.
Proof. unfold grid. lia. Qed.

Lemma grid_mono (v w : Z) : v <= w -> grid v <= grid w.
Proof.
  intros H. unfold grid. pose proof (Z.log2_le_mono v w H). lia.
Qed.

(** Below the grid's level the magnitude has at most 53 bits; on a coarser
    grid it has exactly 53. *)
Lemma grid_upper (v : Z) : 0 <= v -> v < 2 ^ (53 + grid v).
Proof.
  intros Hv. unfold grid.
  destruct (Z.eq_dec v 0) as [-> | Hne].
  - apply Z.pow_pos_nonneg; lia.
  - pose proof (Z.log2_spec v ltac:(lia)) as [_ Hu].
    eapply Z.lt_le_trans; [exact Hu |].
    apply Z.pow_le_mono_r; lia.
Qed.

Lemma grid_lower (v : Z) : 0 < grid v -> 2 ^ (52 + grid v) <= v.
Proof.
  unfold grid. intros Hk.
  assert (Hlog : 52 < Z.log2 v) by lia.
  assert (0 < v).
  { destruct (Z_lt_le_dec 0 v); [assumption |].
    rewrite Z.log2_nonpos in Hlog by assumption. lia. }
  pose proof (Z.log2_spec v ltac:(lia)) as [Hl _].
  replace (52 + Z.max 0 (Z.log2 v - 52)) with (Z.log2 v) by lia.
  exact Hl.
Qed.

Lemma div_le_cross (p1 q1 p2 q2 : Z) :
  0 < q1 -> 0 < q2 -> p1 * q2 <= p2 * q1 -> p1 / q1 <= p2 / q2.
Proof.
  intros H1 H2 Hle.
  apply Z.div_le_lower_bound; [lia |].
  pose proof (Z.div_mod p1 q1 ltac:(lia)) as E1.
  pose proof (Z.mod_pos_bound p1 q1 H1) as R1.
  assert (q1 * (q2 * (p1 / q1)) <= q1 * p2) by nia.
  nia.
Qed.

Lemma mag_round_range (p q : Z) :
  0 <= p -> 0 < q ->
  let k := grid (p / q) in
  0 <= mag_round p q <= 2 ^ (53 + k) /\
  (0 < k -> 2 ^ (52 + k) <= mag_round p q).
Proof.
  intros Hp Hq k. unfold mag_round. rewrite quot_eq by assumption. fold k.
  pose proof (grid_nonneg (p / q)) as Hk. fold k in Hk.
  assert (Hpow : 0 < 2 ^ k) by (apply Z.pow_pos_nonneg; lia).
  pose proof (Z.div_mod p q ltac:(lia)) as E.
  pose proof (Z.mod_pos_bound p q Hq) as R.
  assert (Hv : 0 <= p / q) by (apply Z.div_pos; lia).
  pose proof (grid_upper (p / q) Hv) as Hu. fold k in Hu.
  rewrite (Z.pow_add_r 2 53 k) in * by lia.
  assert (Hb : 0 * (q * 2 ^ k) <= p <= 2 ^ 53 * (q * 2 ^ k)).
  { split; [lia |]. 
    assert (p / q + 1 <= 2 ^ 53 * 2 ^ k) by lia.
    assert (p < q * (2 ^ 53 * 2 ^ k)) by nia. lia. }
  pose proof (rhe_bounds p (q * 2 ^ k) 0 (2 ^ 53) ltac:(nia) Hb) as Hr.
  split; [split; nia |].
  intros Hpos. pose proof (grid_lower (p / q)) as Hl. fold k in Hl.
  specialize (Hl Hpos). rewrite (Z.pow_add_r 2 52 k) in * by lia.
  assert (Hb' : 2 ^ 52 * (q * 2 ^ k) <= p <= 2 ^ 53 * (q * 2 ^ k)).
  { split; [nia | lia]. }
  pose proof (rhe_bounds p (q * 2 ^ k) (2 ^ 52) (2 ^ 53) ltac:(nia) Hb') as Hr'.
  nia.
Qed.

Lemma mag_round_mono (p1 q1 p2 q2 : Z) :
  0 <= p1 -> 0 < q1 -> 0 < q2 -> p1 * q2 <= p2 * q1 ->
  mag_round p1 q1 <= mag_round p2 q2.
Proof.
  intros Hp1 H1 H2 Hle.
  assert (Hp2 : 0 <= p2) by nia.
  pose proof (div_le_cross _ _ _ _ H1 H2 Hle) as Hv.
  pose proof (grid_mono _ _ Hv) as Hk.
  pose proof (mag_round_range p1 q1 Hp1 H1) as [[_ U1] _].
  pose proof (mag_round_range p2 q2 Hp2 H2) as [_ L2].
  cbv zeta in U1, L2.
  pose proof (grid_nonneg (p1 / q1)) as K1.
  destruct (Z.eq_dec (grid (p1 / q1)) (grid (p2 / q2))) as [Heq | Hne].
  - unfold mag_round. rewrite !quot_eq by assumption. rewrite <- Heq.
    set (k := grid (p1 / q1)) in *.
    assert (Hpow : 0 < 2 ^ k) by (apply Z.pow_pos_nonneg; lia).
    apply Z.mul_le_mono_nonneg_l; [lia |].
    apply rhe_mono; nia.
  - specialize (L2 ltac:(lia)).
    eapply Z.le_trans; [exact U1 |].
    eapply Z.le_trans; [| exact L2].
    apply Z.pow_le_mono_r; lia.
Qed.

Lemma mag_round_nonneg (p q : Z) : 0 <= p -> 0 < q -> 0 <= mag_round p q.
Proof. intros Hp Hq. apply (mag_round_range p q Hp Hq). Qed.

Lemma round_z_mono (p1 q1 p2 q2 : Z) :
  0 < q1 -> 0 < q2 -> p1 * q2 <= p2 * q1 -> round_z p1 q1 <= round_z p2 q2.
Proof.
  intros H1 H2 Hle. unfold round_z.
  destruct (Z.leb_spec 0 p1) as [P1 | P1];
    destruct (Z.leb_spec 0 p2) as [P2 | P2].
  - apply mag_round_mono; assumption.
  - exfalso. nia.
  - pose proof (mag_round_nonneg (- p1) q1 ltac:(lia) H1).
    pose proof (mag_round_nonneg p2 q2 P2 H2). lia.
  - pose proof (mag_round_mono (- p2) q2 (- p1) q1 ltac:(lia) H2 H1 ltac:(nia)).
    lia.
Qed.

Lemma round_z_exact (m q : Z) :
  0 < q -> Z.abs m < 2 ^ 53 -> round_z (m * q) q = m.
Proof.
  intros Hq Hm. unfold round_z, mag_round.
  assert (G : forall v, 0 <= v < 2 ^ 53 -> grid v = 0).
  { intros v [Hv Hb]. unfold grid.
    destruct (Z.eq_dec v 0) as [-> | Hne]; [reflexivity |].
    pose proof (proj1 (Z.log2_lt_pow2 v 53 ltac:(lia)) Hb). lia. }
  rewrite !quot_eq by assumption.
  destruct (Z.leb_spec 0 (m * q)) as [P | P].
  - rewrite Z.div_mul by lia. rewrite G by nia.
    rewrite Z.pow_0_r, Z.mul_1_r, Z.mul_1_l. apply rhe_exact; assumption.
  - replace (- (m * q)) with ((- m) * q) by ring.
    rewrite Z.div_mul by lia. rewrite G by nia.
    rewrite Z.pow_0_r, Z.mul_1_r, Z.mul_1_l, rhe_exact by assumption. lia.
Qed.

End Rounding.

(** *** Order facts on floats *)

Section FloatOrder.

Lemma of_z_mono (r1 r2 : Z) : r1 <= r2 -> fle (of_z r1) (of_z r2) = true.
Proof.
  intros H. unfold of_z.
  assert (0 < top) by (unfold top; apply Z.pow_pos_nonneg; lia).
  destruct (Z.leb_spec top r1); destruct (Z.leb_spec top r2);
    destruct (Z.leb_spec r1 (- top)); destruct (Z.leb_spec r2 (- top));
    simpl; try reflexivity; try lia.
Qed.

Lemma of_z_not_nan (r : Z) : is_nan (of_z r) = false.
Proof.
  unfold of_z. destruct (top <=? r); [reflexivity |].
  destruct (r <=? - top); reflexivity.
Qed.

Lemma rnd_mono (p1 q1 p2 q2 : Z) :
  0 < q1 -> 0 < q2 -> p1 * q2 <= p2 * q1 -> fle (rnd p1 q1) (rnd p2 q2) = true.
Proof.
  intros H1 H2 H. apply of_z_mono, round_z_mono; assumption.
Qed.

Lemma rnd_not_nan (p q : Z) : is_nan (rnd p q) = false.
Proof. apply of_z_not_nan. Qed.

Lemma fle_refl (x : float) : is_nan x = false -> fle x x = true.
Proof. destruct x; simpl; try reflexivity; [lia | discriminate]. Qed.

Lemma fle_trans (x y z : float) :
  fle x y = true -> fle y z = true -> fle x z = true.
Proof.
  destruct x, y, z; simpl; try reflexivity; try discriminate. lia.
Qed.

Lemma fle_not_nan (x y : float) :
  fle x y = true -> is_nan x = false /\ is_nan y = false.
Proof. destruct x, y; simpl; try discriminate; auto. Qed.

Lemma flt_fle (x y : float) : flt x y = true -> fle x y = true.
Proof. destruct x, y; simpl; try reflexivity; try discriminate. lia. Qed.

Lemma flt_false_fle (x y : float) :
  is_nan x = false -> is_nan y = false -> flt x y = false -> fle y x = true.
Proof. destruct x, y; simpl; try reflexivity; try discriminate. lia. Qed.

Lemma fle_flt_false (x y : float) : fle x y = true -> flt y x = false.
Proof. destruct x, y; simpl; try reflexivity; try discriminate. lia. Qed.

(** Addition is monotone in each argument as long as the fixed argument is
    a finite number (so that no [inf - inf] appears). *)
Lemma fadd_mono_l (x x' : float) (b : Z) :
  fle x x' = true -> fle (fadd x (Fin b)) (fadd x' (Fin b)) = true.
Proof.
  destruct x as [a | | |], x' as [a' | | |]; simpl;
    try reflexivity; try discriminate.
  - intros H. apply rnd_mono; lia.
  - intros _. pose proof (rnd_not_nan (a + b) 1).
    destruct (rnd (a + b) 1); simpl in *; congruence.
  - intros _. pose proof (rnd_not_nan (a' + b) 1).
    destruct (rnd (a' + b) 1); simpl in *; congruence.
Qed.

Lemma fadd_mono_r (y y' : float) (a : Z) :
  fle y y' = true -> fle (fadd (Fin a) y) (fadd (Fin a) y') = true.
Proof.
  destruct y as [b | | |], y' as [b' | | |]; simpl;
    try reflexivity; try discriminate.
  - intros H. apply rnd_mono; lia.
  - intros _. pose proof (rnd_not_nan (a + b) 1).
    destruct (rnd (a + b) 1); simpl in *; congruence.
  - intros _. pose proof (rnd_not_nan (a + b') 1).
    destruct (rnd (a + b') 1); simpl in *; congruence.
Qed.

Lemma fadd_not_nan_r (x : float) (b : Z) :
  is_nan x = false -> is_nan (fadd x (Fin b)) = false.
Proof.
  destruct x; simpl; try reflexivity; try discriminate.
  intros _. apply rnd_not_nan.
Qed.

Lemma unit_pos : 0 < unit.
Proof. unfold unit. apply Z.pow_pos_nonneg; lia. Qed.

(** Multiplication by a non-negative finite factor is monotone. *)
Lemma fmul_mono_l (a a' c : Z) :
  0 <= c -> a <= a' -> fle (fmul (Fin a) (Fin c)) (fmul (Fin a') (Fin c)) = true.
Proof.
  intros Hc H. cbn [fmul]. pose proof unit_pos.
  apply rnd_mono; try lia.
  apply Z.mul_le_mono_nonneg_r; [lia | nia].
Qed.

Lemma fmul_mono_r (a c c' : Z) :
  0 <= a -> c <= c' -> fle (fmul (Fin a) (Fin c)) (fmul (Fin a) (Fin c')) = true.
Proof.
  intros Hc H. cbn [fmul]. pose proof unit_pos.
  apply rnd_mono; try lia.
  apply Z.mul_le_mono_nonneg_r; [lia | nia].
Qed.

Lemma round2_mono (x y : float) :
  fle x y = true -> fle (round2 x) (round2 y) = true.
Proof.
  pose proof unit_pos as U.
  destruct x as [a | | |], y as [b | | |]; cbn [round2 fle];
    try reflexivity; try discriminate.
  - intros H. apply Z.leb_le in H. apply rnd_mono; try lia.
    assert (rhe (a * 100) unit <= rhe (b * 100) unit)
      by (apply rhe_mono; nia).
    nia.
  - intros _. pose proof (rnd_not_nan (rhe (a * 100) unit * unit) 100) as N.
    destruct (rnd _ _); simpl in *; congruence.
  - intros _. pose proof (rnd_not_nan (rhe (b * 100) unit * unit) 100) as N.
    destruct (rnd _ _); simpl in *; congruence.
Qed.

Lemma py_max_mono (c x y : float) :
  is_nan c = false -> fle x y = true ->
  fle (py_max c x) (py_max c y) = true.
Proof.
  intros Hc H. unfold py_max.
  destruct (fle_not_nan _ _ H) as [Nx Ny].
  destruct (flt c x) eqn:Ex; destruct (flt c y) eqn:Ey.
  - assumption.
  - apply flt_false_fle in Ey; try assumption.
    exact (fle_trans _ _ _ H Ey).
  - apply flt_fle; assumption.
  - apply fle_refl; assumption.
Qed.

Lemma py_min_mono (c x y : float) :
  is_nan c = false -> fle x y = true ->
  fle (py_min c x) (py_min c y) = true.
Proof.
  intros Hc H. unfold py_min.
  destruct (fle_not_nan _ _ H) as [Nx Ny].
  destruct (flt x c) eqn:Ex; destruct (flt y c) eqn:Ey.
  - assumption.
  - apply flt_fle; assumption.
  - apply flt_false_fle in Ex; try assumption.
    exact (fle_trans _ _ _ Ex H).
  - apply fle_refl; assumption.
Qed.

(** Whatever [x] is (NaN and infinities included), [min(hi, max(lo, x))]
    lies between [lo] and [hi]. *)
Lemma clamp_range (lo hi x : float) :
  fle lo hi = true ->
  fle lo (py_min hi (py_max lo x)) = true /\
  fle (py_min hi (py_max lo x)) hi = true.
Proof.
  intros H. destruct (fle_not_nan _ _ H) as [Nl Nh].
  unfold py_min, py_max.
  destruct (flt lo x) eqn:E1.
  - destruct (flt x hi) eqn:E2.
    + split; apply flt_fle; assumption.
    + split; [assumption | apply fle_refl; assumption].
  - destruct (flt lo hi) eqn:E2.
    + split; [apply fle_refl; assumption | assumption].
    + split; [assumption | apply fle_refl; assumption].
Qed.

End FloatOrder.

(** The arithmetic agrees with the Standard Library's [SpecFloat] at
    binary64 on the operations the scoring and the conversion perform. *)
Example spec_mul :
  to_spec (fmul (dec 995 1) (dec 108 2))
  = SpecFloat.SFmul 53 1024 (to_spec (dec 995 1)) (to_spec (dec 108 2)).
Proof. vm_compute. reflexivity. Qed.

Example spec_add :
  to_spec (fadd (dec 35 1) (dec 3675 3))
  = SpecFloat.SFadd 53 1024 (to_spec (dec 35 1)) (to_spec (dec 3675 3)).
Proof. vm_compute. reflexivity. Qed.

Example spec_sub_overflow :
  to_spec (fsub (of_int (10 ^ 308)) (of_int (- 10 ^ 308)))
  = SpecFloat.SFsub 53 1024 (to_spec (of_int (10 ^ 308)))
      (to_spec (of_int (- 10 ^ 308))).
Proof. vm_compute. reflexivity. Qed.

Example spec_div :
  (to_spec <$> fdiv (dec 34200 2) (dec 34999 2))
  = Some (SpecFloat.SFdiv 53 1024 (to_spec (dec 34200 2)) (to_spec (dec 34999 2))).
Proof. vm_compute. reflexivity. Qed.

Example f_tenth : representable (dec 1 1) = true.
Proof. vm_compute. reflexivity. Qed.

Example f_35 : fmul (of_int 10) (dec 35 2) = dec 35 1.
Proof. vm_compute. reflexivity. Qed.

Example f_sum : fadd (dec 1 1) (dec 2 1) = rnd (30000000000000004 * unit) (10 ^ 17).
Proof. vm_compute. reflexivity. Qed.

Example f_round_2675 : round2 (dec 2675 3) = dec 267 2.
Proof. vm_compute. reflexivity. Qed.

Example f_round_0125 : round2 (dec 125 3) = dec 12 2.
Proof. vm_compute. reflexivity. Qed.

(** ** Value score: monotone and within range *)

Section ValueScore.

Lemma top_pos : 0 < top.
Proof. unfold top. apply Z.pow_pos_nonneg; lia. Qed.

Lemma of_z_fin (r : Z) : - top < r < top -> of_z r = Fin r.
Proof.
  intros [L U]. unfold of_z.
  destruct (Z.leb_spec top r); [lia |].
  destruct (Z.leb_spec r (- top)); [lia | reflexivity].
Qed.

Lemma half_top_round :
  exists h : Z, 0 < h /\ round_z (h * unit) unit = h /\ top = 2 * h.
Proof.
  exists (2 ^ 2097). split; [reflexivity |].
  split; vm_compute; reflexivity.
Qed.

Lemma round_z_neg (p q : Z) : 0 < q -> round_z (- p) q = - round_z p q.
Proof.
  intros Hq. unfold round_z.
  destruct (Z.leb_spec 0 p); destruct (Z.leb_spec 0 (- p));
    rewrite ?Z.opp_involutive; try lia.
  assert (p = 0) by lia. subst. change (- 0) with 0.
  assert (E : mag_round 0 q = 0).
  { unfold mag_round. rewrite quot_eq, Z.div_0_l by lia. change (grid 0) with 0.
    rewrite Z.pow_0_r, Z.mul_1_r, Z.mul_1_l.
    pose proof (rhe_bounds 0 q 0 0 Hq). lia. }
  rewrite E. reflexivity.
Qed.

(** Rounding keeps a magnitude bounded by half the range within range. *)
Lemma round_z_half_range (x u t : Z) :
  0 < u -> - t * u <= 2 * x <= t * u -> t = top -> u = unit ->
  - top < round_z x unit < top.
Proof.
  intros Hu Hx -> ->.
  destruct half_top_round as (h & Hh & Hr & Ht).
  revert Hx Hr Ht. generalize top unit Hu. clear Hu.
  intros t u Hu Hx Hr Ht. subst t.
  assert (B1 : round_z x u <= h).
  { rewrite <- Hr. apply round_z_mono; try lia.
    apply Z.mul_le_mono_nonneg_r; lia. }
  assert (B2 : - h <= round_z x u).
  { rewrite <- Hr, <- round_z_neg by lia. apply round_z_mono; try lia.
    apply Z.mul_le_mono_nonneg_r; lia. }
  lia.
Qed.

(** A finite float times a weight is finite. *)
Lemma fmul_weight (a : Z) (w : float) :
  finite (Fin a) = true -> weight_ok w -> exists m, fmul (Fin a) w = Fin m.
Proof.
  intros Hf (n & -> & Hn0 & Hn1). cbn [fmul]. unfold rnd.
  eexists. apply of_z_fin.
  cbn [finite] in Hf. apply andb_true_iff in Hf as [L U].
  apply Z.ltb_lt in L, U.
  pose proof unit_pos as Up.
  apply (round_z_half_range (a * n) unit top); try reflexivity; try assumption.
  revert L U Hn0 Hn1 Up. generalize top unit. intros t u L U Hn0 Hn1 Up.
  split; nia.
Qed.

Lemma finite_is_fin (x : float) : finite x = true -> exists a, x = Fin a.
Proof. destruct x; try discriminate. eauto. Qed.

Lemma fle_fin (a b : Z) : fle (Fin a) (Fin b) = true <-> a <= b.
Proof. cbn [fle]. apply Z.leb_le. Qed.

Variable st : Settings.
Hypothesis Wp : weight_ok (PRICE_WEIGHT st).
Hypothesis Wr : weight_ok (REVIEW_WEIGHT st).
Hypothesis Wq : weight_ok (QUALITY_WEIGHT st).

Lemma value_score_mono (p p' r r' q q' : float) :
  finite p = true -> finite p' = true ->
  finite r = true -> finite r' = true ->
  finite q = true -> finite q' = true ->
  fle p p' = true -> fle r r' = true -> fle q q' = true ->
  fle (calculate_value_score st p r q) (calculate_value_score st p' r' q') = true.
Proof using Wp Wr Wq.
  intros Fp Fp' Fr Fr' Fq Fq' Hp Hr Hq.
  destruct (finite_is_fin _ Fp) as [a ->], (finite_is_fin _ Fp') as [a' ->].
  destruct (finite_is_fin _ Fr) as [b ->], (finite_is_fin _ Fr') as [b' ->].
  destruct (finite_is_fin _ Fq) as [c ->], (finite_is_fin _ Fq') as [c' ->].
  apply fle_fin in Hp, Hr, Hq.
  unfold calculate_value_score. apply round2_mono.
  destruct (fmul_weight a _ Fp Wp) as [ta Ea].
  destruct (fmul_weight a' _ Fp' Wp) as [ta' Ea'].
  destruct (fmul_weight b _ Fr Wr) as [tb Eb].
  destruct (fmul_weight b' _ Fr' Wr) as [tb' Eb'].
  destruct (fmul_weight c _ Fq Wq) as [tc Ec].
  destruct (fmul_weight c' _ Fq' Wq) as [tc' Ec'].
  assert (Ma : fle (Fin ta) (Fin ta') = true).
  { rewrite <- Ea, <- Ea'. destruct Wp as (n & -> & ? & ?).
    apply fmul_mono_l; assumption. }
  assert (Mb : fle (Fin tb) (Fin tb') = true).
  { rewrite <- Eb, <- Eb'. destruct Wr as (n & -> & ? & ?).
    apply fmul_mono_l; assumption. }
  assert (Mc : fle (Fin tc) (Fin tc') = true).
  { rewrite <- Ec, <- Ec'. destruct Wq as (n & -> & ? & ?).
    apply fmul_mono_l; assumption. }
  rewrite Ea, Ea', Eb, Eb', Ec, Ec'.
  eapply fle_trans; [apply fadd_mono_l, fadd_mono_l; exact Ma |].
  eapply fle_trans; [apply fadd_mono_l, fadd_mono_r; exact Mb |].
  assert (N : is_nan (fadd (Fin ta') (Fin tb')) = false) by apply rnd_not_nan.
  destruct (fadd (Fin ta') (Fin tb')) as [s | | |] eqn:Es;
    try discriminate; try reflexivity.
  apply fadd_mono_r. exact Mc.
Qed.

End ValueScore.

Lemma default_weights :
  weight_ok (PRICE_WEIGHT get_settings) /\
  weight_ok (REVIEW_WEIGHT get_settings) /\
  weight_ok (QUALITY_WEIGHT get_settings).
Proof.
  repeat split; eexists; (split; [vm_compute; reflexivity |]);
    split; apply Z.leb_le; vm_compute; reflexivity.
Qed.

Lemma value_score_values :
  calculate_value_score get_settings (dec 100 1) (dec 100 1) (dec 100 1) = dec 100 1 /\
  calculate_value_score get_settings (dec 0 1) (dec 0 1) (dec 0 1) = dec 0 1 /\
  calculate_value_score get_settings (dec 50 1) (dec 50 1) (dec 50 1) = dec 50 1.
Proof. split; [| split]; vm_compute; reflexivity. Qed.

(** ** Facts shared by the scoring proofs *)

Section ScoringFacts.

Lemma round_z_0 (q : Z) : 0 < q -> round_z 0 q = 0.
Proof.
  intros Hq. apply (round_z_exact 0 q Hq). reflexivity.
Qed.

Lemma round_z_pos (p q : Z) : 0 < q -> q <= p -> 1 <= round_z p q.
Proof.
  intros Hq Hp.
  pose proof (round_z_exact 1 q Hq eq_refl) as E.
  pose proof (round_z_mono (1 * q) q p q Hq Hq ltac:(nia)). lia.
Qed.

Lemma round_z_nonneg (p q : Z) : 0 < q -> 0 <= p -> 0 <= round_z p q.
Proof.
  intros Hq Hp.
  pose proof (round_z_0 q Hq) as E.
  pose proof (round_z_mono 0 q p q Hq Hq ltac:(nia)). lia.
Qed.

Lemma of_z_zero (r : Z) : of_z r = Fin 0 -> r = 0.
Proof.
  unfold of_z. destruct (top <=? r); [discriminate |].
  destruct (r <=? - top); [discriminate |]. congruence.
Qed.

Lemma fsub_nonzero (x y : float) : feq x y = false -> fsub x y <> Fin 0.
Proof.
  destruct x as [a | | |], y as [b | | |]; cbn; try discriminate.
  intros Hne E. apply Z.eqb_neq in Hne. apply of_z_zero in E.
  destruct (Z_lt_le_dec a b).
  - pose proof (round_z_pos (b - a) 1 ltac:(lia) ltac:(lia)) as P.
    pose proof (round_z_neg (b - a) 1 ltac:(lia)) as N.
    replace (- (b - a)) with (a + - b) in N by lia. lia.
  - pose proof (round_z_pos (a + - b) 1 ltac:(lia) ltac:(lia)). lia.
Qed.

Lemma fdiv_some (x y : float) : y <> Fin 0 -> exists z, fdiv x y = Some z.
Proof.
  intros Hy. destruct y as [[| b | b] | | |]; cbn; eauto. congruence.
Qed.

Lemma of_int_pos (n : Z) : 1 <= n -> of_int n <> Fin 0.
Proof.
  intros Hn E. apply of_z_zero in E.
  pose proof unit_pos.
  pose proof (round_z_pos (n * unit) 1 ltac:(lia) ltac:(nia)). lia.
Qed.

Lemma clamp_bounds :
  fle (of_int 0) (of_int 10) = true /\
  round2 (of_int 0) = of_int 0 /\ round2 (of_int 10) = of_int 10.
Proof. split; [| split]; vm_compute; reflexivity. Qed.

(** Clamping to [[0, 10]] and rounding to two decimals lands in [[0, 10]],
    whatever the raw score was. *)
Lemma clamp_round_range (x : float) : in_0_10 (clamp_round x).
Proof.
  destruct clamp_bounds as (B & R0 & R10).
  destruct (clamp_range (of_int 0) (of_int 10) x B) as [L U].
  apply round2_mono in L, U. rewrite R0 in L. rewrite R10 in U.
  split; assumption.
Qed.

Lemma clamp_round_mono (x y : float) :
  fle x y = true -> fle (clamp_round x) (clamp_round y) = true.
Proof.
  intros H. unfold clamp_round.
  apply round2_mono, py_min_mono; [apply rnd_not_nan |].
  apply py_max_mono; [apply rnd_not_nan | assumption].
Qed.

Lemma score_constants :
  in_0_10 (dec 75 1) /\ in_0_10 (dec 50 1).
Proof. repeat apply conj; vm_compute; reflexivity. Qed.

Lemma ten_in_range :
  exists c, of_int 10 = Fin c /\ of_int 0 = Fin 0 /\ 0 <= c /\ c < top.
Proof.
  eexists. split; [vm_compute; reflexivity |].
  split; [vm_compute; reflexivity |].
  split; [apply Z.leb_le | apply Z.ltb_lt]; vm_compute; reflexivity.
Qed.

Lemma in_0_10_finite (x : float) : in_0_10 x -> finite x = true.
Proof.
  intros [L U].
  destruct ten_in_range as (c & E10 & E0 & H0 & Hc).
  rewrite E0 in L. rewrite E10 in U.
  destruct x as [n | | |];
    [| discriminate U | discriminate L | discriminate L].
  apply fle_fin in L, U. cbn [finite].
  pose proof top_pos.
  apply andb_true_iff. split; apply Z.ltb_lt; lia.
Qed.

Lemma in_0_10_ends : in_0_10 (of_int 0) /\ in_0_10 (of_int 10).
Proof. repeat apply conj; vm_compute; reflexivity. Qed.

Lemma value_score_ends :
  calculate_value_score get_settings (of_int 0) (of_int 0) (of_int 0) = of_int 0 /\
  calculate_value_score get_settings (of_int 10) (of_int 10) (of_int 10) = of_int 10.
Proof. split; vm_compute; reflexivity. Qed.

(** The value score of three scores in [[0, 10]] is in [[0, 10]]. *)
Lemma value_score_range (p r q : float) :
  in_0_10 p -> in_0_10 r -> in_0_10 q ->
  in_0_10 (calculate_value_score get_settings p r q).
Proof.
  intros Hp Hr Hq.
  destruct default_weights as (Wp & Wr & Wq).
  destruct in_0_10_ends as [Z0 Z10].
  destruct value_score_ends as [E0 E10].
  pose proof (in_0_10_finite _ Hp). pose proof (in_0_10_finite _ Hr).
  pose proof (in_0_10_finite _ Hq). pose proof (in_0_10_finite _ Z0).
  pose proof (in_0_10_finite _ Z10).
  destruct Hp, Hr, Hq.
  split.
  - unfold in_0_10. rewrite <- E0.
    apply value_score_mono; assumption.
  - unfold in_0_10. rewrite <- E10.
    apply value_score_mono; assumption.
Qed.

End ScoringFacts.

(** ** Claims on the scoring service *)

(** C10: an absent review count gets the volume modifier 1.0, the one of
    the bracket [10, 100); so for every rating and sentiment the review
    score without a review count equals the score with any count in
    [10, 100), and the 0.90 penalty is never applied. *)
Theorem C10_absent_review_count (rating : option float)
    (sentiment : option SentimentAnalysis) (c : Z) :
  10 <= c < 100 ->
  volume_modifier None = dec 10 1 /\
  volume_modifier None <> dec 90 2 /\
  calculate_review_score rating None sentiment =
  calculate_review_score rating (Some c) sentiment.
Proof.
  intros [Hlo Hhi].
  assert (E : volume_modifier (Some c) = volume_modifier None).
  { unfold volume_modifier.
    destruct (Z.leb_spec 1000 c); [lia |].
    destruct (Z.leb_spec 500 c); [lia |].
    destruct (Z.leb_spec 100 c); [lia |].
    destruct (Z.leb_spec 10 c); [reflexivity | lia]. }
  split; [reflexivity |].
  split; [vm_compute; discriminate |].
  unfold calculate_review_score. rewrite E. reflexivity.
Qed.

Lemma C10_witness :
  10 <= 42 < 100 /\
  calculate_review_score (Some (dec 45 1)) None None =
  calculate_review_score (Some (dec 45 1)) (Some 42) None.
Proof.
  split; [lia |].
  apply (C10_absent_review_count (Some (dec 45 1)) None 42). lia.
Defined.

(** C4: the value score is non-decreasing in each of its three inputs with
    the other two held fixed (inputs are numbers: finite floats), and
    [calculate_value_score] maps (10, 10, 10) to 10.0, (0, 0, 0) to 0.0 and
    (5, 5, 5) to 5.0. *)
Theorem C4_value_score_monotone :
  (forall p p' r q : float,
     finite p = true -> finite p' = true -> finite r = true -> finite q = true ->
     fle p p' = true ->
     fle (calculate_value_score get_settings p r q)
         (calculate_value_score get_settings p' r q) = true) /\
  (forall p r r' q : float,
     finite p = true -> finite r = true -> finite r' = true -> finite q = true ->
     fle r r' = true ->
     fle (calculate_value_score get_settings p r q)
         (calculate_value_score get_settings p r' q) = true) /\
  (forall p r q q' : float,
     finite p = true -> finite r = true -> finite q = true -> finite q' = true ->
     fle q q' = true ->
     fle (calculate_value_score get_settings p r q)
         (calculate_value_score get_settings p r q') = true) /\
  calculate_value_score get_settings (dec 100 1) (dec 100 1) (dec 100 1) = dec 100 1 /\
  calculate_value_score get_settings (dec 0 1) (dec 0 1) (dec 0 1) = dec 0 1 /\
  calculate_value_score get_settings (dec 50 1) (dec 50 1) (dec 50 1) = dec 50 1.
Proof.
  destruct default_weights as (Wp & Wr & Wq).
  assert (R : forall x, finite x = true -> fle x x = true).
  { intros [n | | |]; try discriminate. intros _. apply fle_fin. lia. }
  split; [| split; [| split]].
  - intros p p' r q Fp Fp' Fr Fq H.
    apply value_score_mono; auto.
  - intros p r r' q Fp Fr Fr' Fq H.
    apply value_score_mono; auto.
  - intros p r q q' Fp Fr Fq Fq' H.
    apply value_score_mono; auto.
  - exact value_score_values.
Qed.

Lemma C4_witness :
  finite (dec 30 1) = true /\ finite (dec 70 1) = true /\
  finite (dec 45 1) = true /\ finite (dec 62 1) = true /\
  fle (dec 30 1) (dec 70 1) = true /\
  fle (calculate_value_score get_settings (dec 30 1) (dec 45 1) (dec 62 1))
      (calculate_value_score get_settings (dec 70 1) (dec 45 1) (dec 62 1)) = true.
Proof.
  assert (F1 : finite (dec 30 1) = true) by (vm_compute; reflexivity).
  assert (F2 : finite (dec 70 1) = true) by (vm_compute; reflexivity).
  assert (F3 : finite (dec 45 1) = true) by (vm_compute; reflexivity).
  assert (F4 : finite (dec 62 1) = true) by (vm_compute; reflexivity).
  assert (L : fle (dec 30 1) (dec 70 1) = true) by (vm_compute; reflexivity).
  refine (conj F1 (conj F2 (conj F3 (conj F4 (conj L _))))).
  exact (proj1 C4_value_score_monotone _ _ _ _ F1 F2 F3 F4 L).
Defined.

(** *** Price score *)

Lemma round_z_unit (q : Z) : 0 < q -> round_z (unit * q) q = unit.
Proof.
  intros Hq. pose proof unit_pos as U.
  unfold round_z. destruct (Z.leb_spec 0 (unit * q)); [| nia].
  unfold mag_round. rewrite quot_eq, Z.div_mul by lia.
  assert (G : grid unit = 1022) by (vm_compute; reflexivity).
  assert (E : unit = 2 ^ 1022 * 2 ^ 52) by (vm_compute; reflexivity).
  rewrite G.
  replace (unit * q) with (2 ^ 52 * (q * 2 ^ 1022)).
  - rewrite rhe_exact; [symmetry; exact E |].
    apply Z.mul_pos_pos; [assumption | reflexivity].
  - rewrite E. ring.
Qed.

Lemma of_z_unit : of_z unit = Fin unit.
Proof. vm_compute. reflexivity. Qed.

Lemma fdiv_self (d : Z) : d <> 0 -> fdiv (Fin d) (Fin d) = Some (Fin unit).
Proof.
  intros Hd. destruct d as [| d | d]; [congruence | |]; cbn [fdiv].
  - change (0 <? Z.pos d) with true. cbv iota. unfold rnd.
    rewrite Z.mul_comm, round_z_unit by reflexivity. rewrite of_z_unit. reflexivity.
  - change (0 <? Z.neg d) with false. cbv iota. unfold rnd.
    replace (- Z.neg d * unit) with (unit * Z.pos d) by (rewrite Z.mul_comm; reflexivity).
    change (- Z.neg d) with (Z.pos d).
    rewrite round_z_unit by reflexivity. rewrite of_z_unit. reflexivity.
Qed.

Lemma fdiv_zero (d : Z) : d <> 0 -> fdiv (Fin 0) (Fin d) = Some (Fin 0).
Proof.
  intros Hd. destruct d as [| d | d]; [congruence | |]; cbn [fdiv].
  - change (0 <? Z.pos d) with true. cbv iota. unfold rnd.
    rewrite Z.mul_0_l, round_z_0 by reflexivity. reflexivity.
  - change (0 <? Z.neg d) with false. cbv iota. unfold rnd.
    change (- 0 * unit) with 0. rewrite round_z_0 by reflexivity. reflexivity.
Qed.

Lemma price_score_ends :
  clamp_round (fmul (Fin unit) (of_int 10)) = dec 100 1 /\
  clamp_round (fmul (Fin 0) (of_int 10)) = dec 0 1 /\
  rnd 0 1 = Fin 0.
Proof. split; [| split]; vm_compute; reflexivity. Qed.

(** A binary64 number rounds to itself. *)
Lemma round_z_representable (n : Z) :
  0 <= n -> n mod 2 ^ grid n = 0 -> round_z n 1 = n.
Proof.
  intros Hn Hm. unfold round_z. destruct (Z.leb_spec 0 n); [| lia].
  unfold mag_round. rewrite quot_eq, Z.div_1_r, Z.mul_1_l by lia.
  pose proof (grid_nonneg n) as Hk.
  assert (Hp : 0 < 2 ^ grid n) by (apply Z.pow_pos_nonneg; lia).
  apply Z.div_exact in Hm; [| lia].
  pose proof (rhe_exact (n / 2 ^ grid n) (2 ^ grid n) Hp) as E.
  rewrite Z.mul_comm, <- Hm in E. rewrite E. symmetry. exact Hm.
Qed.

(** Between finite prices that are not negative the spread is finite. *)
Lemma spread_finite (hi lo : float) :
  finite hi = true -> representable hi = true ->
  fle (Fin 0) lo = true -> fle lo hi = true ->
  finite (fsub hi lo) = true.
Proof.
  intros Fh Rh L0 Lh.
  destruct hi as [a | | |]; try discriminate Fh.
  destruct lo as [b | | |]; try discriminate L0; try discriminate Lh.
  apply fle_fin in L0, Lh.
  cbn [representable] in Rh. rewrite Fh in Rh. cbn [andb] in Rh.
  apply Z.eqb_eq in Rh. rewrite Z.abs_eq in Rh by lia.
  cbn [finite] in Fh. apply andb_true_iff in Fh as [_ Fh]. apply Z.ltb_lt in Fh.
  pose proof (round_z_representable a ltac:(lia) Rh) as Ea.
  pose proof (round_z_mono (a + - b) 1 a 1 ltac:(lia) ltac:(lia) ltac:(lia)) as M.
  pose proof (round_z_nonneg (a + - b) 1 ltac:(lia) ltac:(lia)) as N.
  pose proof top_pos as T.
  cbn [fsub fneg fadd]. unfold rnd. rewrite of_z_fin by lia.
  cbn [finite]. apply andb_true_iff. split; apply Z.ltb_lt; lia.
Qed.

(** C3 (as amended): when all candidates share one price the price score
    is 7.5; otherwise every score is [(max - price) / (max - min) * 10]
    clamped to [[0, 10]] and rounded to two decimals (the division never
    fails), and, provided the spread [max - min] is a finite float, the
    candidate at the frame minimum scores exactly 10.0 and the one at the
    frame maximum exactly 0.0.  The spread is finite whenever the prices
    are finite and not negative. *)
Theorem C3_price_score (price min_price max_price : float) :
  (feq max_price min_price = true ->
   calculate_price_score price min_price max_price = Some (dec 75 1)) /\
  (feq max_price min_price = false ->
   exists normalized,
     fdiv (fsub max_price price) (fsub max_price min_price) = Some normalized /\
     calculate_price_score price min_price max_price =
     Some (round2 (py_min (of_int 10)
                     (py_max (of_int 0) (fmul normalized (of_int 10)))))) /\
  (feq max_price min_price = false ->
   finite (fsub max_price min_price) = true ->
   calculate_price_score min_price min_price max_price = Some (dec 100 1) /\
   calculate_price_score max_price min_price max_price = Some (dec 0 1)) /\
  (finite max_price = true -> representable max_price = true ->
   fle (Fin 0) min_price = true -> fle min_price max_price = true ->
   finite (fsub max_price min_price) = true).
Proof.
  destruct price_score_ends as (E10 & E0 & Z0).
  split; [| split; [| split; [| apply spread_finite]]].
  - intros H. unfold calculate_price_score. rewrite H. reflexivity.
  - intros H. unfold calculate_price_score. rewrite H.
    destruct (fdiv_some (fsub max_price price) (fsub max_price min_price)
                (fsub_nonzero _ _ H)) as [n Hn].
    exists n. rewrite Hn. split; reflexivity.
  - intros H Hfin. unfold calculate_price_score. rewrite H.
    pose proof (fsub_nonzero _ _ H) as Hne.
    destruct max_price as [a | | |], min_price as [b | | |];
      try discriminate Hfin.
    destruct (fsub (Fin a) (Fin b)) as [d | | |] eqn:Ed;
      try discriminate Hfin.
    assert (Hd : d <> 0) by congruence.
    split.
    + rewrite fdiv_self by assumption.
      change (Some (clamp_round (fmul (Fin unit) (of_int 10))) = Some (dec 100 1)).
      rewrite E10. reflexivity.
    + unfold fsub at 1. cbn [fneg fadd]. rewrite Z.add_opp_diag_r, Z0.
      rewrite fdiv_zero by assumption.
      change (Some (clamp_round (fmul (Fin 0) (of_int 10))) = Some (dec 0 1)).
      rewrite E0. reflexivity.
Qed.

Lemma C3_witness :
  let lo := dec 799 2 in
  let hi := dec 34999 2 in
  feq hi lo = false /\ finite (fsub hi lo) = true /\
  calculate_price_score lo lo hi = Some (dec 100 1) /\
  calculate_price_score hi lo hi = Some (dec 0 1).
Proof.
  intros lo hi.
  assert (H : feq hi lo = false) by (vm_compute; reflexivity).
  assert (F : finite (fsub hi lo) = true) by (vm_compute; reflexivity).
  refine (conj H (conj F _)).
  exact (proj1 (proj2 (proj2 (C3_price_score lo lo hi))) H F).
Defined.

(** The claim as stated fails when the spread overflows: in the frame of
    the two finite prices -1e308 and 1e308 the difference [max - min] is
    infinite, the normalised value is NaN, and the candidate at the
    minimum scores 0 instead of 10. *)
Lemma C3_counterexample :
  let lo := of_int (- 10 ^ 308) in
  let hi := of_int (10 ^ 308) in
  representable lo = true /\ representable hi = true /\
  finite lo = true /\ finite hi = true /\
  feq hi lo = false /\
  calculate_price_score lo lo hi = Some (dec 0 1) /\
  calculate_price_score lo lo hi <> Some (dec 100 1).
Proof.
  repeat match goal with |- _ /\ _ => split | |- let _ := _ in _ => intro end;
    try (vm_compute; reflexivity).
  vm_compute. discriminate.
Qed.

(** *** Review score *)

Lemma modifier_values :
  exists v90 v100 v105 v110 v115 : Z,
    dec 90 2 = Fin v90 /\ dec 10 1 = Fin v100 /\ dec 105 2 = Fin v105 /\
    dec 110 2 = Fin v110 /\ dec 115 2 = Fin v115 /\
    0 <= v90 /\ v90 <= v100 /\ v100 <= v105 /\ v105 <= v110 /\ v110 <= v115.
Proof.
  do 5 eexists.
  split; [vm_compute; reflexivity |].
  split; [vm_compute; reflexivity |].
  split; [vm_compute; reflexivity |].
  split; [vm_compute; reflexivity |].
  split; [vm_compute; reflexivity |].
  split; [apply Z.leb_le; vm_compute; reflexivity |].
  split; [apply Z.leb_le; vm_compute; reflexivity |].
  split; [apply Z.leb_le; vm_compute; reflexivity |].
  split; apply Z.leb_le; vm_compute; reflexivity.
Qed.

Lemma volume_modifier_mono (c1 c2 : Z) :
  c1 <= c2 ->
  exists v1 v2 : Z,
    volume_modifier (Some c1) = Fin v1 /\ volume_modifier (Some c2) = Fin v2 /\
    0 <= v1 /\ v1 <= v2.
Proof.
  intros H.
  destruct modifier_values
    as (v90 & v100 & v105 & v110 & v115 & E1 & E2 & E3 & E4 & E5 & B).
  unfold volume_modifier. rewrite E1, E2, E3, E4, E5.
  destruct (Z.leb_spec 1000 c1); destruct (Z.leb_spec 500 c1);
    destruct (Z.leb_spec 100 c1); destruct (Z.leb_spec 10 c1);
    destruct (Z.leb_spec 1000 c2); destruct (Z.leb_spec 500 c2);
    destruct (Z.leb_spec 100 c2); destruct (Z.leb_spec 10 c2);
    try lia; do 2 eexists; (split; [reflexivity |]);
    (split; [reflexivity |]); lia.
Qed.

Lemma scale_constants :
  exists c5 c10 : Z,
    of_int 5 = Fin c5 /\ of_int 10 = Fin c10 /\ of_int 0 = Fin 0 /\
    dec 0 1 = Fin 0 /\
    0 < c5 /\ 0 <= c10 /\ 2 * c10 <= top /\ 2 * unit <= top.
Proof.
  do 2 eexists.
  split; [vm_compute; reflexivity |].
  split; [vm_compute; reflexivity |].
  split; [vm_compute; reflexivity |].
  split; [vm_compute; reflexivity |].
  split; [apply Z.ltb_lt; vm_compute; reflexivity |].
  split; [apply Z.leb_le; vm_compute; reflexivity |].
  split; apply Z.leb_le; vm_compute; reflexivity.
Qed.

Lemma half_weight : weight_ok (dec 5 1).
Proof.
  eexists. split; [vm_compute; reflexivity |].
  split; apply Z.leb_le; vm_compute; reflexivity.
Qed.

(** The base score [(rating / 5) * 10] of a rating in [[0, 5]] is a
    non-negative finite float. *)
Lemma base_score_fin (a : Z) :
  in_0_5 (Fin a) ->
  exists b : Z,
    (q ← fdiv (Fin a) (of_int 5); Some (fmul q (of_int 10))) = Some (Fin b) /\
    0 <= b.
Proof.
  intros [L U].
  destruct scale_constants as (c5 & c10 & E5 & E10 & E0 & _ & P5 & P10 & B10 & BU).
  rewrite E0 in L. rewrite E5 in U. apply fle_fin in L, U.
  rewrite E5, E10.
  pose proof unit_pos as Up. pose proof top_pos as Tp.
  assert (Q : fdiv (Fin a) (Fin c5) = Some (rnd (a * unit) c5)).
  { destruct c5 as [| c | c]; try lia. reflexivity. }
  rewrite Q. cbn [mbind option_bind].
  assert (R1 : 0 <= round_z (a * unit) c5 <= unit).
  { split; [apply round_z_nonneg; nia |].
    pose proof (round_z_unit c5 P5) as E.
    pose proof (round_z_mono (a * unit) c5 (unit * c5) c5 P5 P5) as M.
    rewrite E in M. apply M.
    apply Z.mul_le_mono_nonneg_r; [lia |]. nia. }
  unfold rnd at 1. rewrite of_z_fin by lia.
  set (b1 := round_z (a * unit) c5) in *.
  cbn [fmul]. unfold rnd.
  assert (R2 : - top < round_z (b1 * c10) unit < top).
  { apply (round_z_half_range (b1 * c10) unit top); try reflexivity; try assumption.
    revert R1 P10 B10 Up. generalize top unit. intros t u R1 P10 B10 Up.
    split; nia. }
  rewrite of_z_fin by assumption.
  eexists. split; [reflexivity |].
  apply round_z_nonneg; nia.
Qed.

(** *** Order and rounding facts *)

Section ExtendedOrder.

Lemma fle_rnd_pinf (p q : Z) : fle (rnd p q) PInf = true.
Proof.
  pose proof (rnd_not_nan p q) as N.
  destruct (rnd p q); cbn in *; congruence.
Qed.

Lemma fle_ninf_rnd (p q : Z) : fle NInf (rnd p q) = true.
Proof.
  pose proof (rnd_not_nan p q) as N.
  destruct (rnd p q); cbn in *; congruence.
Qed.

Lemma fneg_antitone (x y : float) :
  fle x y = true -> fle (fneg y) (fneg x) = true.
Proof.
  destruct x, y; cbn; try reflexivity; try discriminate. lia.
Qed.

(** Multiplication by a positive finite factor is monotone on all floats. *)
Lemma fmul_pos_mono (x x' : float) (c : Z) :
  0 < c -> fle x x' = true -> fle (fmul x (Fin c)) (fmul x' (Fin c)) = true.
Proof.
  intros Hc H.
  destruct c as [| c | c]; try lia.
  destruct x as [a | | |], x' as [a' | | |]; try discriminate H;
    try reflexivity.
  - apply fmul_mono_l; [lia | apply fle_fin, H].
  - cbn [fmul sgn Z.sgn Z.mul]. cbn. apply fle_rnd_pinf.
  - cbn [fmul sgn Z.sgn Z.mul]. cbn. apply fle_ninf_rnd.
Qed.

Lemma fmul_pos_not_nan (x : float) (c : Z) :
  0 < c -> is_nan x = false -> is_nan (fmul x (Fin c)) = false.
Proof.
  intros Hc N. destruct c as [| c | c]; try lia.
  destruct x; try discriminate N; try reflexivity.
  cbn [fmul]. apply rnd_not_nan.
Qed.

(** Division by a positive finite divisor is monotone on all floats. *)
Lemma fdiv_pos_mono (x x' : float) (d : Z) :
  0 < d -> fle x x' = true ->
  exists q q' : float,
    fdiv x (Fin d) = Some q /\ fdiv x' (Fin d) = Some q' /\ fle q q' = true.
Proof.
  intros Hd H. pose proof unit_pos as U.
  destruct d as [| d | d]; try lia.
  cbn [fdiv]. change (0 <? Z.pos d) with true. cbv iota.
  do 2 eexists. split; [reflexivity |]. split; [reflexivity |].
  destruct x as [a | | |], x' as [a' | | |]; try discriminate H;
    try reflexivity.
  - apply fle_fin in H. apply rnd_mono; try lia.
    apply Z.mul_le_mono_nonneg_r; [lia |].
    apply Z.mul_le_mono_nonneg_r; lia.
  - cbn. apply fle_rnd_pinf.
  - cbn. apply fle_ninf_rnd.
Qed.

Lemma fdiv_pos_not_nan (x q : float) (d : Z) :
  0 < d -> is_nan x = false -> fdiv x (Fin d) = Some q -> is_nan q = false.
Proof.
  intros Hd N. destruct d as [| d | d]; try lia.
  cbn [fdiv]. change (0 <? Z.pos d) with true. cbv iota.
  intros [= <-]. destruct x; try discriminate N; try reflexivity.
  apply rnd_not_nan.
Qed.

(** Adding to a number that is not NaN is monotone in a finite second
    argument. *)
Lemma fadd_fin_mono_r (x : float) (b b' : Z) :
  is_nan x = false -> b <= b' -> fle (fadd x (Fin b)) (fadd x (Fin b')) = true.
Proof.
  intros N H. destruct x as [a | | |]; try discriminate N; try reflexivity.
  apply fadd_mono_r, fle_fin, H.
Qed.

Lemma round1_mono (x y : float) :
  fle x y = true -> fle (round1 x) (round1 y) = true.
Proof.
  pose proof unit_pos as U.
  destruct x as [a | | |], y as [b | | |]; cbn [round1 fle];
    try reflexivity; try discriminate.
  - intros H. apply Z.leb_le in H. apply rnd_mono; try lia.
    assert (rhe (a * 10) unit <= rhe (b * 10) unit)
      by (apply rhe_mono; nia).
    nia.
  - intros _. apply fle_rnd_pinf.
  - intros _. apply fle_ninf_rnd.
Qed.

End ExtendedOrder.

Lemma modifier_pos (c : option Z) : exists v, volume_modifier c = Fin v /\ 0 < v.
Proof.
  assert (P : forall x, (exists v, x = Fin v /\ (0 <? v) = true) ->
                        exists v, x = Fin v /\ 0 < v).
  { intros x (v & E & H). exists v. split; [exact E | apply Z.ltb_lt, H]. }
  unfold volume_modifier. destruct c as [c |].
  - destruct (1000 <=? c); [apply P; eexists; split; vm_compute; reflexivity |].
    destruct (500 <=? c); [apply P; eexists; split; vm_compute; reflexivity |].
    destruct (100 <=? c); [apply P; eexists; split; vm_compute; reflexivity |].
    destruct (10 <=? c); apply P; eexists; split; vm_compute; reflexivity.
  - apply P; eexists; split; vm_compute; reflexivity.
Qed.

Lemma scale_pos :
  exists c5 c10 : Z, of_int 5 = Fin c5 /\ of_int 10 = Fin c10 /\ 0 < c5 /\ 0 < c10.
Proof.
  do 2 eexists. split; [vm_compute; reflexivity |].
  split; [vm_compute; reflexivity |].
  split; apply Z.ltb_lt; vm_compute; reflexivity.
Qed.

Lemma adjustment_fin (s : option SentimentAnalysis) :
  sentiment_finite s ->
  exists j, match s with
            | Some sa => fmul (sentiment_score sa) (dec 5 1)
            | None => dec 0 1
            end = Fin j.
Proof.
  intros Hs. destruct s as [sa |].
  - cbn in Hs. destruct (finite_is_fin _ Hs) as [x Ex]. rewrite Ex in *.
    apply fmul_weight; [assumption | apply half_weight].
  - eexists. vm_compute. reflexivity.
Qed.

Section Cents.

Lemma rhe_near (p q m : Z) :
  0 < q -> 2 * Z.abs (p - m * q) < q -> rhe p q = m.
Proof.
  intros Hq H.
  pose proof (Z.div_mod p q ltac:(lia)) as E.
  pose proof (Z.mod_pos_bound p q Hq) as R.
  destruct (rhe_cases p q Hq) as [[-> C] | [-> C]].
  - destruct (Z_lt_le_dec (p / q) m) as [L | L].
    + exfalso. assert (q * (p / q) <= q * (m - 1)) by nia. lia.
    + destruct (Z_lt_le_dec m (p / q)) as [G | G]; [| lia].
      exfalso. assert (q * (m + 1) <= q * (p / q)) by nia. lia.
  - destruct (Z_lt_le_dec (p / q + 1) m) as [L | L].
    + exfalso. assert (q * (p / q) <= q * (m - 2)) by nia. lia.
    + destruct (Z_lt_le_dec m (p / q + 1)) as [G | G]; [| lia].
      exfalso. assert (q * m <= q * (p / q)) by nia. lia.
Qed.

(** Rounding to the grid moves a number by at most half a grid step. *)
Lemma mag_round_error (p q : Z) :
  0 <= p -> 0 < q ->
  2 * Z.abs (mag_round p q * q - p) <= 2 ^ grid (p / q) * q.
Proof.
  intros Hp Hq. unfold mag_round. rewrite quot_eq by assumption.
  pose proof (grid_nonneg (p / q)) as Hk.
  set (k := grid (p / q)) in *.
  assert (Hpow : 0 < 2 ^ k) by (apply Z.pow_pos_nonneg; lia).
  assert (HQ : 0 < q * 2 ^ k) by nia.
  pose proof (Z.div_mod p (q * 2 ^ k) ltac:(lia)) as E.
  pose proof (Z.mod_pos_bound p (q * 2 ^ k) HQ) as R.
  replace (2 ^ k * q) with (q * 2 ^ k) by ring.
  destruct (rhe_cases p (q * 2 ^ k) HQ) as [[-> C] | [-> C]].
  - replace (2 ^ k * (p / (q * 2 ^ k)) * q) with (q * 2 ^ k * (p / (q * 2 ^ k)))
      by ring. lia.
  - replace (2 ^ k * (p / (q * 2 ^ k) + 1) * q)
      with (q * 2 ^ k * (p / (q * 2 ^ k)) + q * 2 ^ k) by ring. lia.
Qed.

(** Below [2^46] the grid step is at most [2^-7]. *)
Lemma cents_grid :
  exists w : Z,
    0 < w /\ unit = 128 * w /\
    forall v, 0 <= v -> v < 2 ^ 53 * w -> 2 ^ grid v <= w.
Proof.
  exists (2 ^ 1067).
  split; [apply Z.pow_pos_nonneg; lia |].
  split; [vm_compute; reflexivity |].
  intros v H0 Hv. unfold grid.
  assert (L : Z.log2 v < 1120).
  { destruct (Z.eq_dec v 0) as [-> | Hne]; [cbn; lia |].
    assert (E : 2 ^ 53 * 2 ^ 1067 = 2 ^ 1120)
      by (rewrite <- Z.pow_add_r by lia; reflexivity).
    rewrite E in Hv. apply Z.log2_lt_pow2; [lia | exact Hv]. }
  clear Hv. apply Z.pow_le_mono_r; lia.
Qed.

Lemma cents_top :
  exists b : Z, b = 2 ^ 52 * unit /\ round_z b 1 = b /\ 0 < b /\ b < top.
Proof.
  eexists. split; [reflexivity |].
  split; [vm_compute; reflexivity |].
  split; apply Z.ltb_lt; vm_compute; reflexivity.
Qed.

(** A whole number of cents below [2^52] survives the passage through the
    nearest float: the float of [k / 100], times 100, rounds back to [k]. *)
Lemma round_cents (k : Z) :
  0 <= k < 2 ^ 52 ->
  exists x : Z,
    rnd (k * unit) 100 = Fin x /\ 0 <= x /\ rhe (x * 100) unit = k.
Proof.
  intros Hk. pose proof unit_pos as U.
  destruct cents_top as (b & Eb & Rb & Pb & Tb).
  assert (Hkb : k * unit <= b).
  { rewrite Eb. apply Z.mul_le_mono_nonneg_r; lia. }
  assert (P : 0 <= k * unit) by (apply Z.mul_nonneg_nonneg; lia).
  pose proof (round_z_mono (k * unit) 100 b 1 ltac:(lia) ltac:(lia) ltac:(lia)) as M.
  pose proof (round_z_nonneg (k * unit) 100 ltac:(lia) P) as N.
  rewrite Rb in M.
  exists (round_z (k * unit) 100).
  split; [apply of_z_fin; lia |]. split; [exact N |].
  apply rhe_near; [exact U |].
  unfold round_z. destruct (Z.leb_spec 0 (k * unit)); [| lia].
  pose proof (mag_round_error (k * unit) 100 P ltac:(lia)) as Err.
  destruct cents_grid as (w & Hw & Ew & G).
  assert (V0 : 0 <= k * unit / 100) by (apply Z.div_pos; lia).
  assert (V1 : k * unit / 100 < 2 ^ 53 * w).
  { pose proof (Z.mul_div_le (k * unit) 100 ltac:(lia)) as D.
    rewrite Ew in D |- *.
    assert (KW : k * w <= (2 ^ 52 - 1) * w)
      by (apply Z.mul_le_mono_nonneg_r; lia).
    clear - D KW Hw. revert D KW.
    generalize (k * (128 * w) / 100). intros v D KW.
    replace (k * (128 * w)) with (128 * (k * w)) in D by ring.
    revert D KW. generalize (k * w). intros t D KW. lia. }
  specialize (G _ V0 V1).
  clear - Err G Hw Ew. revert Err G.
  generalize (2 ^ grid (k * unit / 100)) (mag_round (k * unit) 100).
  intros s x Err G. rewrite Ew in *. revert Err.
  generalize (k * (128 * w)). intros t Err. lia.
Qed.

(** [round(x, 2)] leaves the float of a decimal with two places as it is. *)
Lemma round2_cents (k : Z) : 0 <= k < 2 ^ 52 -> round2 (dec k 2) = dec k 2.
Proof.
  intros Hk. destruct (round_cents k Hk) as (x & E & _ & R).
  unfold dec. change (10 ^ 2) with 100. rewrite E. cbn [round2].
  rewrite R. exact E.
Qed.

End Cents.

(** *** Strict steps of the review score *)

Section Strict.

(** Below [2^13] the grid step is at most [2^-40]. *)
Lemma score_grid :
  exists w : Z,
    0 < w /\ unit = 1099511627776 * w /\
    forall v, 0 <= v -> v < 2 ^ 53 * w -> 2 ^ grid v <= w.
Proof.
  exists (2 ^ 1034).
  split; [apply Z.pow_pos_nonneg; lia |].
  split; [vm_compute; reflexivity |].
  intros v H0 Hv. unfold grid.
  assert (L : Z.log2 v < 1087).
  { destruct (Z.eq_dec v 0) as [-> | Hne]; [cbn; lia |].
    assert (E : 2 ^ 53 * 2 ^ 1034 = 2 ^ 1087)
      by (rewrite <- Z.pow_add_r by lia; reflexivity).
    rewrite E in Hv. apply Z.log2_lt_pow2; [lia | exact Hv]. }
  clear Hv. apply Z.pow_le_mono_r; lia.
Qed.

(** Rounding a number of a range where the grid step is at most [w] moves
    it by at most [w / 2]. *)
Lemma round_z_error (p q w : Z) :
  0 <= p -> 0 < q -> 0 < w ->
  (forall v, 0 <= v -> v < 2 ^ 53 * w -> 2 ^ grid v <= w) ->
  p < q * (2 ^ 53 * w) ->
  2 * Z.abs (round_z p q * q - p) <= w * q.
Proof.
  intros Hp Hq Hw G B.
  unfold round_z. destruct (Z.leb_spec 0 p); [| lia].
  pose proof (mag_round_error p q Hp Hq) as Err.
  assert (V0 : 0 <= p / q) by (apply Z.div_pos; lia).
  assert (V1 : p / q < 2 ^ 53 * w) by (apply Z.div_lt_upper_bound; lia).
  specialize (G _ V0 V1).
  revert Err G. generalize (2 ^ grid (p / q)) (mag_round p q).
  intros s x Err G.
  assert (s * q <= w * q) by (apply Z.mul_le_mono_nonneg_r; lia). lia.
Qed.

Lemma of_z_fin_inv (r x : Z) : of_z r = Fin x -> r = x.
Proof.
  unfold of_z. destruct (top <=? r); [discriminate |].
  destruct (r <=? - top); [discriminate |]. congruence.
Qed.

Lemma rhe_error (p q : Z) : 0 < q -> 2 * Z.abs (rhe p q * q - p) <= q.
Proof.
  intros Hq.
  pose proof (Z.div_mod p q ltac:(lia)) as E.
  pose proof (Z.mod_pos_bound p q Hq) as R.
  destruct (rhe_cases p q Hq) as [[-> C] | [-> C]];
    revert E R C; generalize (p / q) (p mod q); intros d m E R C; nia.
Qed.

Lemma flt_fle_chain (x y z : float) :
  flt x y = true -> fle y z = true -> flt x z = true.
Proof.
  destruct x, y, z; cbn; intros H1 H2; try discriminate; try reflexivity.
  apply Z.ltb_lt in H1. apply Z.leb_le in H2. apply Z.ltb_lt. lia.
Qed.

Lemma fle_flt_chain (x y z : float) :
  fle x y = true -> flt y z = true -> flt x z = true.
Proof.
  destruct x, y, z; cbn; intros H1 H2; try discriminate; try reflexivity.
  apply Z.leb_le in H1. apply Z.ltb_lt in H2. apply Z.ltb_lt. lia.
Qed.

Lemma strict_constants :
  exists c10 b0 : Z,
    of_int 10 = Fin c10 /\ of_int 0 = Fin 0 /\ dec 0 1 = Fin 0 /\
    c10 = 10 * unit /\ round_z c10 1 = c10 /\
    round2 (Fin 0) = Fin 0 /\ round2 (Fin c10) = Fin c10 /\
    (q ← fdiv (dec 11 2) (of_int 5); Some (fmul q (of_int 10))) = Some (Fin b0) /\
    (q ← fdiv (of_int 5) (of_int 5); Some (fmul q (of_int 10))) = Some (Fin c10) /\
    219 * unit <= 1000 * b0.
Proof.
  do 2 eexists.
  split; [vm_compute; reflexivity |].
  split; [vm_compute; reflexivity |].
  split; [vm_compute; reflexivity |].
  split; [vm_compute; reflexivity |].
  split; [vm_compute; reflexivity |].
  split; [vm_compute; reflexivity |].
  split; [vm_compute; reflexivity |].
  split; [vm_compute; reflexivity |].
  split; [vm_compute; reflexivity |].
  apply Z.leb_le; vm_compute; reflexivity.
Qed.

(** Two neighbouring volume modifiers are at least 0.049 apart. *)
Lemma modifier_gaps :
  exists v90 v100 v105 v110 v115 : Z,
    dec 90 2 = Fin v90 /\ dec 10 1 = Fin v100 /\ dec 105 2 = Fin v105 /\
    dec 110 2 = Fin v110 /\ dec 115 2 = Fin v115 /\
    0 <= v90 /\ v115 <= 2 * unit /\
    49 * unit <= 1000 * (v100 - v90) /\ 49 * unit <= 1000 * (v105 - v100) /\
    49 * unit <= 1000 * (v110 - v105) /\ 49 * unit <= 1000 * (v115 - v110).
Proof.
  do 5 eexists.
  split; [vm_compute; reflexivity |].
  split; [vm_compute; reflexivity |].
  split; [vm_compute; reflexivity |].
  split; [vm_compute; reflexivity |].
  split; [vm_compute; reflexivity |].
  split; [apply Z.leb_le; vm_compute; reflexivity |].
  split; [apply Z.leb_le; vm_compute; reflexivity |].
  split; [apply Z.leb_le; vm_compute; reflexivity |].
  split; [apply Z.leb_le; vm_compute; reflexivity |].
  split; apply Z.leb_le; vm_compute; reflexivity.
Qed.

Lemma modifier_step (c1 c2 : Z) :
  crosses_threshold c1 c2 ->
  exists v1 v2 : Z,
    volume_modifier (Some c1) = Fin v1 /\ volume_modifier (Some c2) = Fin v2 /\
    0 <= v1 /\ v2 <= 2 * unit /\ 49 * unit <= 1000 * (v2 - v1).
Proof.
  intros (t & Ht & Hc).
  assert (T : t = 10 \/ t = 100 \/ t = 500 \/ t = 1000)
    by (cbn in Ht; intuition lia).
  clear Ht.
  destruct modifier_gaps
    as (v90 & v100 & v105 & v110 & v115 & E1 & E2 & E3 & E4 & E5 & B).
  pose proof unit_pos as Up.
  unfold volume_modifier. rewrite E1, E2, E3, E4, E5.
  revert B Up. generalize unit. intros u B Up.
  destruct (Z.leb_spec 1000 c1); destruct (Z.leb_spec 500 c1);
    destruct (Z.leb_spec 100 c1); destruct (Z.leb_spec 10 c1);
    destruct (Z.leb_spec 1000 c2); destruct (Z.leb_spec 500 c2);
    destruct (Z.leb_spec 100 c2); destruct (Z.leb_spec 10 c2);
    try lia; do 2 eexists; (split; [reflexivity |]);
    (split; [reflexivity |]); lia.
Qed.

(** A score strictly inside the scale was neither clamped nor made from
    an infinity or NaN. *)
Lemma clamp_round_inside (x : float) :
  flt (of_int 0) (clamp_round x) = true ->
  flt (clamp_round x) (of_int 10) = true ->
  exists n, x = Fin n /\ 0 < n < 10 * unit /\ clamp_round x = round2 (Fin n).
Proof.
  destruct strict_constants as (c10 & b0 & E10 & E0 & _ & Ec & _ & R0 & R10 & _).
  unfold clamp_round. rewrite E10, E0.
  assert (P : 0 < c10) by (rewrite Ec; pose proof unit_pos; lia).
  rewrite <- Ec. clear Ec.
  unfold py_max, py_min.
  destruct x as [n | | |]; cbn [flt].
  - destruct (Z.ltb_spec 0 n) as [Hn | Hn]; cbn [flt].
    + destruct (Z.ltb_spec n c10) as [Hc | Hc].
      * intros _ _. exists n.
        split; [reflexivity | split; [lia | reflexivity]].
      * rewrite R10. cbn [flt]. intros _ F. apply Z.ltb_lt in F. lia.
    + destruct (Z.ltb_spec 0 c10); [| lia]. rewrite R0. cbn [flt].
      intros F. apply Z.ltb_lt in F. lia.
  - rewrite R10. cbn [flt]. intros _ F. apply Z.ltb_lt in F. lia.
  - destruct (Z.ltb_spec 0 c10); [| lia]. rewrite R0.
    cbn [flt]. intros F. apply Z.ltb_lt in F. lia.
  - destruct (Z.ltb_spec 0 c10); [| lia]. rewrite R0.
    cbn [flt]. intros F. apply Z.ltb_lt in F. lia.
Qed.

Lemma base_score_mono (r r' : float) :
  fle r r' = true ->
  exists x x' : float,
    (q ← fdiv r (of_int 5); Some (fmul q (of_int 10))) = Some x /\
    (q ← fdiv r' (of_int 5); Some (fmul q (of_int 10))) = Some x' /\
    fle x x' = true.
Proof.
  intros H. destruct scale_pos as (c5 & c10 & E5 & E10 & P5 & P10).
  rewrite E5, E10.
  destruct (fdiv_pos_mono _ _ c5 P5 H) as (q & q' & -> & -> & Hq).
  cbn [mbind option_bind].
  do 2 eexists. split; [reflexivity |]. split; [reflexivity |].
  apply fmul_pos_mono; assumption.
Qed.

Lemma review_score_rating_mono (r r' : float) (c : option Z)
    (s : option SentimentAnalysis) :
  sentiment_finite s -> fle r r' = true ->
  exists v v' : float,
    calculate_review_score (Some r) c s = Some v /\
    calculate_review_score (Some r') c s = Some v' /\
    fle v v' = true.
Proof.
  intros Hs Hr.
  destruct scale_pos as (c5 & c10 & E5 & E10 & P5 & P10).
  destruct (modifier_pos c) as (m & Em & Pm).
  destruct (adjustment_fin s Hs) as [j Ej].
  unfold calculate_review_score. rewrite E5, E10, Em, Ej.
  destruct (fdiv_pos_mono _ _ c5 P5 Hr) as (q & q' & -> & -> & Hq).
  cbn [mbind option_bind].
  do 2 eexists. split; [reflexivity |]. split; [reflexivity |].
  apply clamp_round_mono, fadd_mono_l, fmul_pos_mono; [assumption |].
  apply fmul_pos_mono; assumption.
Qed.

(** Without a sentiment, a rating between 0.11 and 4.54 and fewer than
    1000 reviews give a score strictly inside the scale. *)
Lemma review_score_inside (c : Z) :
  c < 1000 ->
  exists lo hi : float,
    calculate_review_score (Some (dec 11 2)) (Some c) None = Some lo /\
    calculate_review_score (Some (dec 454 2)) (Some c) None = Some hi /\
    flt (of_int 0) lo = true /\ flt hi (of_int 10) = true.
Proof.
  intros H. unfold calculate_review_score, volume_modifier.
  destruct (Z.leb_spec 1000 c); [lia |].
  destruct (500 <=? c);
    [do 2 eexists; split; [vm_compute; reflexivity |];
     split; [vm_compute; reflexivity |]; split; vm_compute; reflexivity |].
  destruct (100 <=? c);
    [do 2 eexists; split; [vm_compute; reflexivity |];
     split; [vm_compute; reflexivity |]; split; vm_compute; reflexivity |].
  destruct (10 <=? c);
    do 2 eexists; (split; [vm_compute; reflexivity |]);
    (split; [vm_compute; reflexivity |]); split; vm_compute; reflexivity.
Qed.

(** One step of the volume modifier moves a score that is strictly inside
    the scale: the raw scores are more than 0.01 apart, and both are
    rounded to a whole number of hundredths. *)
Lemma review_score_step (b v1 v2 j : Z) :
  219 * unit <= 1000 * b -> b <= 10 * unit ->
  0 <= v1 -> v2 <= 2 * unit -> 49 * unit <= 1000 * (v2 - v1) ->
  flt (of_int 0) (clamp_round (fadd (fmul (Fin b) (Fin v1)) (Fin j))) = true ->
  flt (clamp_round (fadd (fmul (Fin b) (Fin v1)) (Fin j))) (of_int 10) = true ->
  flt (clamp_round (fadd (fmul (Fin b) (Fin v1)) (Fin j)))
      (clamp_round (fadd (fmul (Fin b) (Fin v2)) (Fin j))) = true.
Proof.
  intros Hb Hb10 Hv1 Hv2 Hv L1 U1.
  pose proof unit_pos as Up.
  assert (B0 : 0 <= b) by lia.
  assert (V12 : v1 <= v2) by lia.
  assert (M : fle (clamp_round (fadd (fmul (Fin b) (Fin v1)) (Fin j)))
                  (clamp_round (fadd (fmul (Fin b) (Fin v2)) (Fin j))) = true).
  { apply clamp_round_mono, fadd_mono_l, fmul_mono_r; assumption. }
  destruct (clamp_round_range (fadd (fmul (Fin b) (Fin v2)) (Fin j)))
    as [_ U2'].
  destruct strict_constants as (c10 & b0 & E10 & E0 & _ & Ec & Rc & _).
  destruct (flt (clamp_round (fadd (fmul (Fin b) (Fin v2)) (Fin j))) (of_int 10))
    eqn:U2.
  2: { rewrite E10 in U2, U2', U1.
       destruct (clamp_round (fadd (fmul (Fin b) (Fin v2)) (Fin j)))
         as [n2 | | |]; cbn [fle flt] in U2, U2'; try discriminate U2';
         try discriminate U2.
       apply Z.leb_le in U2'. apply Z.ltb_ge in U2.
       assert (n2 = c10) by lia. subst n2. exact U1. }
  pose proof (flt_fle_chain _ _ _ L1 M) as L2.
  destruct (clamp_round_inside _ L1 U1) as (A1 & EA1 & RA1 & S1).
  destruct (clamp_round_inside _ L2 U2) as (A2 & EA2 & RA2 & S2).
  rewrite S1, S2 in *. clear S1 S2 L1 L2 U1 U2 U2'.
  cbn [fmul] in EA1, EA2.
  destruct (rnd (b * v1) unit) as [x1 | | |] eqn:Ex1; try discriminate EA1.
  destruct (rnd (b * v2) unit) as [x2 | | |] eqn:Ex2; try discriminate EA2.
  apply of_z_fin_inv in Ex1, Ex2.
  cbn [fadd] in EA1, EA2. apply of_z_fin_inv in EA1, EA2.
  rewrite <- Ec in RA1, RA2.
  assert (P1 : 0 < x1 + j < c10).
  { split.
    - destruct (Z_lt_le_dec 0 (x1 + j)) as [G | G]; [exact G |].
      pose proof (round_z_mono (x1 + j) 1 0 1 ltac:(lia) ltac:(lia) ltac:(lia)) as R.
      rewrite (round_z_0 1 ltac:(lia)) in R. lia.
    - destruct (Z_lt_le_dec (x1 + j) c10) as [G | G]; [exact G |].
      pose proof (round_z_mono c10 1 (x1 + j) 1 ltac:(lia) ltac:(lia) ltac:(lia)) as R.
      rewrite Rc in R. lia. }
  assert (P2 : 0 < x2 + j < c10).
  { split.
    - destruct (Z_lt_le_dec 0 (x2 + j)) as [G | G]; [exact G |].
      pose proof (round_z_mono (x2 + j) 1 0 1 ltac:(lia) ltac:(lia) ltac:(lia)) as R.
      rewrite (round_z_0 1 ltac:(lia)) in R. lia.
    - destruct (Z_lt_le_dec (x2 + j) c10) as [G | G]; [exact G |].
      pose proof (round_z_mono c10 1 (x2 + j) 1 ltac:(lia) ltac:(lia) ltac:(lia)) as R.
      rewrite Rc in R. lia. }
  destruct score_grid as (w & Hw & Ew & G).
  assert (Q : forall v, 0 <= v -> v <= v2 -> b * v < unit * (2 ^ 53 * w)).
  { intros v V0 V2.
    assert (b * v <= 10 * unit * (2 * unit))
      by (apply Z.mul_le_mono_nonneg; lia).
    assert (20 * unit < 2 ^ 53 * w) by (rewrite Ew; lia).
    assert (unit * (20 * unit) < unit * (2 ^ 53 * w))
      by (apply Z.mul_lt_mono_pos_l; assumption).
    lia. }
  assert (Q' : c10 <= 1 * (2 ^ 53 * w)) by (rewrite Ec, Ew; lia).
  pose proof (round_z_error (b * v1) unit w ltac:(nia) Up Hw G
                (Q v1 Hv1 V12)) as R1.
  pose proof (round_z_error (b * v2) unit w ltac:(nia) Up Hw G
                (Q v2 ltac:(lia) ltac:(lia))) as R2.
  pose proof (round_z_error (x1 + j) 1 w ltac:(lia) ltac:(lia) Hw G
                ltac:(lia)) as T1.
  pose proof (round_z_error (x2 + j) 1 w ltac:(lia) ltac:(lia) Hw G
                ltac:(lia)) as T2.
  rewrite Ex1 in R1. rewrite Ex2 in R2. rewrite EA1 in T1. rewrite EA2 in T2.
  clear Q Q' G Ex1 Ex2 EA1 EA2 Rc.
  cbn [round2] in M |- *.
  pose proof (rhe_error (A1 * 100) unit Up) as K1.
  pose proof (rhe_error (A2 * 100) unit Up) as K2.
  assert (B1 : 0 <= rhe (A1 * 100) unit <= 1000)
    by (apply rhe_bounds; [exact Up | lia]).
  assert (B2 : 0 <= rhe (A2 * 100) unit <= 1000)
    by (apply rhe_bounds; [exact Up | lia]).
  set (k1 := rhe (A1 * 100) unit) in *.
  set (k2 := rhe (A2 * 100) unit) in *.
  assert (K : k1 < k2).
  { clearbody k1 k2. clear M B1 B2 P1 P2 RA1 RA2 Hb10 Hv2 Ec E10 E0.
    revert Hb Hv R1 R2 K1 K2 Up Ew. generalize unit. intros u.
    intros Hb Hv R1 R2 K1 K2 Up Ew.
    assert (D : 0 <= 219 * u <= 1000 * b /\ 0 <= 49 * u <= 1000 * (v2 - v1))
      by lia.
    pose proof (Z.mul_le_mono_nonneg (219 * u) (1000 * b) (49 * u)
                  (1000 * (v2 - v1)) ltac:(lia) ltac:(lia) ltac:(lia)
                  ltac:(lia)) as D1.
    assert (D2 : (10731 * u - 1000000 * w) * u <= 1000000 * (x2 - x1) * u)
      by lia.
    apply Z.mul_le_mono_pos_r in D2; [| exact Up].
    destruct (Z_lt_le_dec k1 k2) as [L | L]; [exact L | exfalso].
    assert ((k2 - k1) * u <= 0) by (apply Z.mul_nonpos_nonneg; lia).
    lia. }
  assert (H1 : 0 <= k1 < 2 ^ 52) by lia.
  assert (H2 : 0 <= k2 < 2 ^ 52) by lia.
  destruct (round_cents k1 H1) as (y1 & F1 & _ & Y1).
  destruct (round_cents k2 H2) as (y2 & F2 & _ & Y2).
  rewrite F1, F2 in M |- *. cbn [fle flt] in M |- *.
  apply Z.leb_le in M. apply Z.ltb_lt.
  destruct (Z.eq_dec y1 y2) as [E | E]; [| lia].
  exfalso. subst y2. lia.
Qed.

End Strict.

(** C5 (as amended): for every rating in [[0, 5]] and every sentiment with
    a finite score (or none), the computation never fails and the review
    score is non-decreasing in the review count.  Across a volume threshold
    (10, 100, 500, 1000) the increase is strict whenever the rating is at
    least 0.11 and the score on the low side of the threshold is strictly
    between 0 and 10; without a sentiment that is so for every rating from
    0.11 to 4.54. *)
Theorem C5_review_score_volume (r : float) (s : option SentimentAnalysis)
    (c1 c2 : Z) :
  in_0_5 r -> sentiment_finite s -> c1 <= c2 ->
  exists s1 s2 : float,
    calculate_review_score (Some r) (Some c1) s = Some s1 /\
    calculate_review_score (Some r) (Some c2) s = Some s2 /\
    fle s1 s2 = true /\
    (crosses_threshold c1 c2 -> fle (dec 11 2) r = true ->
     (flt (of_int 0) s1 = true -> flt s1 (of_int 10) = true ->
      flt s1 s2 = true) /\
     (s = None -> fle r (dec 454 2) = true -> flt s1 s2 = true)).
Proof.
  intros Hr Hs Hc.
  assert (Ha : exists a, r = Fin a).
  { pose proof Hr as [L U].
    destruct scale_constants as (c5 & c10 & E5 & _ & E0 & _).
    rewrite E0 in L. rewrite E5 in U.
    destruct r as [a | | |];
      [eauto | discriminate U | discriminate L | discriminate L]. }
  destruct Ha as [a ->].
  destruct (base_score_fin a Hr) as (b & Eb & Hb).
  destruct (volume_modifier_mono c1 c2 Hc) as (v1 & v2 & E1 & E2 & Hv1 & Hv).
  destruct (adjustment_fin s Hs) as [j Ej].
  assert (F : forall c v, volume_modifier (Some c) = Fin v ->
              calculate_review_score (Some (Fin a)) (Some c) s
              = Some (clamp_round (fadd (fmul (Fin b) (Fin v)) (Fin j)))).
  { intros c v E. unfold calculate_review_score. rewrite Eb.
    cbn [mbind option_bind]. rewrite Ej, E. reflexivity. }
  pose proof (F c1 v1 E1) as F1. pose proof (F c2 v2 E2) as F2.
  do 2 eexists. split; [exact F1 |]. split; [exact F2 |].
  split; [apply clamp_round_mono, fadd_mono_l, fmul_mono_r; assumption |].
  intros Hx Hlo.
  destruct strict_constants
    as (c10 & b0 & _ & _ & _ & Ec & _ & _ & _ & Eb0 & Eb5 & Hb0).
  assert (Bb : 219 * unit <= 1000 * b /\ b <= 10 * unit).
  { destruct (base_score_mono _ _ Hlo) as (x & x' & X & X' & Hxx).
    destruct (base_score_mono _ _ (proj2 Hr)) as (y & y' & Y & Y' & Hyy).
    rewrite Eb0 in X. rewrite Eb in X', Y. rewrite Eb5 in Y'.
    injection X as <-. injection X' as <-. injection Y as <-.
    injection Y' as <-.
    apply fle_fin in Hxx, Hyy. rewrite <- Ec. lia. }
  destruct Bb as [Bl Bu].
  destruct (modifier_step c1 c2 Hx) as (w1 & w2 & G1 & G2 & W1 & W2 & W).
  rewrite E1 in G1. rewrite E2 in G2.
  injection G1 as <-. injection G2 as <-.
  assert (St : flt (of_int 0) (clamp_round (fadd (fmul (Fin b) (Fin v1)) (Fin j))) = true ->
               flt (clamp_round (fadd (fmul (Fin b) (Fin v1)) (Fin j))) (of_int 10) = true ->
               flt (clamp_round (fadd (fmul (Fin b) (Fin v1)) (Fin j)))
                   (clamp_round (fadd (fmul (Fin b) (Fin v2)) (Fin j))) = true)
    by (apply review_score_step; assumption).
  split; [exact St |].
  intros -> Hhi.
  assert (C : c1 < 1000).
  { destruct Hx as (t & Ht & Hct). cbn in Ht. intuition lia. }
  destruct (review_score_inside c1 C) as (lo & hi & Elo & Ehi & Plo & Phi).
  destruct (review_score_rating_mono _ _ (Some c1) None I Hlo)
    as (x & x' & X & X' & Hxx).
  destruct (review_score_rating_mono _ _ (Some c1) None I Hhi)
    as (y & y' & Y & Y' & Hyy).
  rewrite Elo in X. rewrite F1 in X', Y. rewrite Ehi in Y'.
  injection X as <-. injection X' as <-. injection Y as <-.
  injection Y' as <-.
  apply St.
  - exact (flt_fle_chain _ _ _ Plo Hxx).
  - exact (fle_flt_chain _ _ _ Hyy Phi).
Qed.

Lemma C5_witness :
  in_0_5 (dec 40 1) /\ sentiment_finite None /\ 5 <= 1000 /\
  crosses_threshold 5 1000 /\
  fle (dec 11 2) (dec 40 1) = true /\ fle (dec 40 1) (dec 454 2) = true /\
  exists s1 s2 : float,
    calculate_review_score (Some (dec 40 1)) (Some 5) None = Some s1 /\
    calculate_review_score (Some (dec 40 1)) (Some 1000) None = Some s2 /\
    fle s1 s2 = true /\ flt s1 s2 = true.
Proof.
  assert (R : in_0_5 (dec 40 1)) by (split; vm_compute; reflexivity).
  assert (C : 5 <= 1000) by lia.
  assert (X : crosses_threshold 5 1000).
  { exists 10. split; [left; reflexivity | lia]. }
  assert (L : fle (dec 11 2) (dec 40 1) = true) by (vm_compute; reflexivity).
  assert (U : fle (dec 40 1) (dec 454 2) = true) by (vm_compute; reflexivity).
  refine (conj R (conj I (conj C (conj X (conj L (conj U _)))))).
  destruct (C5_review_score_volume (dec 40 1) None 5 1000 R I C)
    as (s1 & s2 & E1 & E2 & M & S).
  exists s1, s2.
  exact (conj E1 (conj E2 (conj M (proj2 (S X L) eq_refl U)))).
Defined.

(** The claim as stated (strictly increasing) fails: at rating 0.0 the
    base score is 0, every volume modifier leaves it at 0, and a count
    below 10 scores the same as a count in [10, 100); at rating 5.0 the
    brackets from 10 reviews up all clamp to 10. *)
Lemma C5_counterexample :
  in_0_5 (dec 0 1) /\ in_0_5 (dec 50 1) /\
  calculate_review_score (Some (dec 0 1)) (Some 5) None = Some (dec 0 1) /\
  calculate_review_score (Some (dec 0 1)) (Some 50) None = Some (dec 0 1) /\
  flt (dec 0 1) (dec 0 1) = false /\
  calculate_review_score (Some (dec 50 1)) (Some 50) None = Some (dec 100 1) /\
  calculate_review_score (Some (dec 50 1)) (Some 2000) None = Some (dec 100 1).
Proof.
  refine (conj (conj _ _) (conj (conj _ _) (conj _ (conj _ (conj _ (conj _ _))))));
    vm_compute; reflexivity.
Qed.

(** Where the score is neither 0 nor clamped the increase is strict, as in
    the repository's [test_volume_modifier] (rating 4.0, no sentiment). *)
Example review_score_rating_4 :
  calculate_review_score (Some (dec 40 1)) (Some 5) None = Some (dec 72 1) /\
  calculate_review_score (Some (dec 40 1)) (Some 50) None = Some (dec 80 1) /\
  calculate_review_score (Some (dec 40 1)) (Some 100) None = Some (dec 84 1) /\
  calculate_review_score (Some (dec 40 1)) (Some 500) None = Some (dec 88 1) /\
  calculate_review_score (Some (dec 40 1)) (Some 1000) None = Some (dec 92 1).
Proof.
  refine (conj _ (conj _ (conj _ (conj _ _)))); vm_compute; reflexivity.
Qed.

(** Where strictness ends: at rating 0.08 one step of the modifier moves
    the score by less than the 0.01 to which it is rounded; at rating 4.54
    the score for 500 reviews is still below 10, at 4.55 it is clamped. *)
Example review_score_rating_low :
  calculate_review_score (Some (dec 8 2)) (Some 500) None = Some (dec 18 2) /\
  calculate_review_score (Some (dec 8 2)) (Some 1000) None = Some (dec 18 2) /\
  calculate_review_score (Some (dec 454 2)) (Some 500) None = Some (dec 999 2) /\
  calculate_review_score (Some (dec 454 2)) (Some 1000) None = Some (dec 100 1) /\
  calculate_review_score (Some (dec 455 2)) (Some 500) None = Some (dec 100 1).
Proof.
  refine (conj _ (conj _ (conj _ (conj _ _)))); vm_compute; reflexivity.
Qed.

(** *** Scoring a frame *)

Section Frame.

Lemma price_score_total (p mn mx : float) :
  exists v, calculate_price_score p mn mx = Some v /\ in_0_10 v.
Proof.
  unfold calculate_price_score. destruct (feq mx mn) eqn:E.
  - eexists. split; [reflexivity | apply score_constants].
  - destruct (fdiv_some (fsub mx p) (fsub mx mn) (fsub_nonzero _ _ E)) as [n ->].
    eexists. split; [reflexivity | apply clamp_round_range].
Qed.

Lemma review_score_total (r : option float) (c : option Z)
    (s : option SentimentAnalysis) :
  exists v, calculate_review_score r c s = Some v /\ in_0_10 v.
Proof.
  unfold calculate_review_score. destruct r as [r |].
  - destruct (fdiv_some r (of_int 5) (of_int_pos 5 ltac:(lia))) as [q ->].
    eexists. split; [reflexivity | apply clamp_round_range].
  - eexists. split; [reflexivity | apply clamp_round_range].
Qed.

Lemma mean_total (l : list float) :
  l <> [] ->
  exists avg, fdiv (py_sum l) (of_int (py_len l)) = Some avg.
Proof.
  intros Hl. apply fdiv_some, of_int_pos.
  destruct l; [congruence |]. unfold py_len. cbn [length]. lia.
Qed.

Lemma int_truediv_some (a b : Z) : b <> 0 -> exists q, int_truediv a b = Some q.
Proof.
  intros Hb. unfold int_truediv.
  destruct (Z.eqb_spec b 0); [contradiction | eauto].
Qed.

Lemma quality_tail_total (scores : list float) :
  exists v,
    match scores with
    | [] => Some (dec 50 1)
    | _ => avg ← fdiv (py_sum scores) (of_int (py_len scores));
           Some (clamp_round avg)
    end = Some v /\ in_0_10 v.
Proof.
  destruct scores as [| x xs].
  - eexists. split; [reflexivity | apply score_constants].
  - destruct (mean_total (x :: xs) ltac:(discriminate)) as [avg ->].
    eexists. split; [reflexivity | apply clamp_round_range].
Qed.

Lemma quality_mean_total (scores : list float) :
  scores <> [] ->
  exists v,
    (avg ← fdiv (py_sum scores) (of_int (py_len scores));
     Some (clamp_round avg)) = Some v /\ in_0_10 v.
Proof.
  intros H. destruct (mean_total scores H) as [avg ->].
  eexists. split; [reflexivity | apply clamp_round_range].
Qed.

Ltac quality_signals :=
  cbn [mbind option_bind];
  match goal with
  | |- context [match ?qi with Some _ => _ | None => _ end ≫= _] =>
      destruct qi as [? |]
  | _ => idtac
  end;
  try match goal with
      | |- context [bool_decide ?P] => destruct (bool_decide P)
      end;
  try match goal with
      | |- context [omap ?f ?l] =>
          let E := fresh "E" in
          destruct (omap f l) as [| ? ?] eqn:E;
          [| match goal with
             | |- context [fdiv (py_sum ?ls) _] =>
                 let Ha := fresh "Ha" in
                 destruct (mean_total ls ltac:(discriminate)) as [? Ha];
                 rewrite Ha
             end]
      end;
  cbn [mbind option_bind];
  first [ apply quality_tail_total
        | apply quality_mean_total; discriminate
        | eexists; split; [reflexivity | apply score_constants] ].

Lemma quality_score_total (s : option SentimentAnalysis)
    (qi : option (gmap pystr float)) :
  exists v, calculate_quality_score s qi = Some v /\ in_0_10 v.
Proof.
  unfold calculate_quality_score.
  destruct s as [sa |]; cbv zeta.
  - destruct ((0 <? py_len (pros sa)) || (0 <? py_len (cons sa))) eqn:E.
    + destruct (int_truediv_some (py_len (pros sa))
                  (py_len (pros sa) + py_len (cons sa))) as [q Hq].
      { unfold py_len in *. apply orb_true_iff in E. lia. }
      rewrite Hq. quality_signals.
    + quality_signals.
  - quality_signals.
Qed.

Lemma score_product_total (p : Product) (mn mx : float) (rs : list Review)
    (s : option SentimentAnalysis) (qi : option (gmap pystr float)) :
  exists sc,
    score_product get_settings p mn mx rs s qi = Some sc /\
    product sc = p /\ scores_ok sc.
Proof.
  unfold score_product.
  destruct (price_score_total (price p) mn mx) as (ps & -> & Hp).
  destruct (review_score_total (rating p) (review_count p) s) as (rv & -> & Hr).
  destruct (quality_score_total s qi) as (qs & -> & Hq).
  eexists. split; [reflexivity |]. split; [reflexivity |].
  unfold scores_ok. cbn [price_score review_score quality_score value_score].
  refine (conj Hp (conj Hr (conj Hq (conj _ eq_refl)))).
  apply value_score_range; assumption.
Qed.

Lemma mapM_total {A B} (f : A -> option B) (P : A -> B -> Prop) (l : list A) :
  (forall x, exists y, f x = Some y /\ P x y) ->
  exists out, mapM f l = Some out /\ Forall2 P l out.
Proof.
  intros Hf. induction l as [| x l IH].
  - exists []. split; [reflexivity | constructor].
  - destruct (Hf x) as (y & Ey & Py). destruct IH as (out & Eo & Po).
    exists (y :: out). cbn. rewrite Ey. cbn. rewrite Eo. cbn.
    split; [reflexivity | constructor; assumption].
Qed.

Lemma insert_desc_perm {A} (key : A -> float) (x : A) (l : list A) :
  Permutation (insert_desc key x l) (x :: l).
Proof.
  induction l as [| y l IH]; cbn; [reflexivity |].
  destruct (flt (key x) (key y)); [| reflexivity].
  rewrite IH. apply perm_swap.
Qed.

Lemma sort_desc_perm {A} (key : A -> float) (l : list A) :
  Permutation (sort_desc key l) l.
Proof.
  induction l as [| x l IH]; cbn; [reflexivity |].
  rewrite insert_desc_perm. constructor. exact IH.
Qed.

End Frame.

(** The frame of the repository's tests, scored and ranked. *)
Example test_frame_scores :
  map score_row <$>
    score_products get_settings test_products ∅ test_sentiments None
  = Some
      [ (str "prod_001", dec 899 2, dec 936 2, dec 100 1, dec 738 2);
        (str "prod_003", dec 672 2, dec 76 1, dec 743 2, dec 488 2);
        (str "prod_002", dec 594 2, dec 0 1, dec 100 1, dec 813 2);
        (str "prod_004", dec 549 2, dec 100 1, dec 408 2, dec 188 2);
        (str "prod_005", dec 512 2, dec 585 2, dec 45 1, dec 50 1) ].
Proof. vm_compute. reflexivity. Qed.

(** C2: every scored candidate that [score_products] produces has its
    four scores in [[0, 10]] and its value score equal to
    [price_score * 0.35 + review_score * 0.35 + quality_score * 0.30]
    rounded to two decimals.  The call never fails, returns one scored
    candidate per product, and the bounds hold for all inputs, so in
    particular for those in the declared ranges. *)
Theorem C2_scores_in_range (products : list Product)
    (reviews_map : gmap pystr (list Review))
    (sentiments_map : gmap pystr SentimentAnalysis)
    (quality_map : option (gmap pystr (gmap pystr float))) :
  exists out : list ProductWithAnalysis,
    score_products get_settings products reviews_map sentiments_map quality_map
    = Some out /\
    Permutation (map product out) products /\
    Forall scores_ok out.
Proof.
  unfold score_products.
  destruct products as [| p0 ps].
  - exists []. split; [reflexivity |]. split; constructor.
  - cbn [map py_list_min py_list_max mbind option_bind].
    match goal with
    | |- context [mapM ?f ?l] =>
        destruct (mapM_total f (fun p sc => product sc = p /\ scores_ok sc) l)
          as (out & -> & Ho)
    end.
    { intros p. apply score_product_total. }
    cbn [mbind option_bind].
    eexists. split; [reflexivity |].
    split.
    + rewrite sort_desc_perm.
      clear -Ho. induction Ho as [| p sc l k [E _] _ IH]; cbn;
        [reflexivity | rewrite E, IH; reflexivity].
    + rewrite sort_desc_perm.
      clear -Ho. induction Ho as [| p sc l k [_ E] _ IH]; constructor; assumption.
Qed.

(** *** Best products *)

Section Best.

Context {A : Type} (key : A -> float).

Lemma flt_trans (x y z : float) :
  flt x y = true -> flt y z = true -> flt x z = true.
Proof.
  destruct x, y, z; cbn; try reflexivity; try discriminate. lia.
Qed.

Lemma fle_flt_trans (x y z : float) :
  fle x y = true -> flt y z = true -> flt x z = true.
Proof.
  destruct x, y, z; cbn; try reflexivity; try discriminate. lia.
Qed.

Lemma fold_max_spec (xs l1 mid : list A) (x : A) :
  (forall y, In y (l1 ++ x :: mid ++ xs) -> is_nan (key y) = false) ->
  (forall y, In y l1 -> flt (key y) (key x) = true) ->
  (forall y, In y mid -> fle (key y) (key x) = true) ->
  first_max key (l1 ++ x :: mid ++ xs) (fold_left (keep_greater key) xs x).
Proof.
  revert l1 mid x. induction xs as [| y xs IH]; intros l1 mid x Hn H1 Hm.
  - cbn. exists l1, mid. rewrite app_nil_r. auto.
  - cbn [fold_left]. unfold keep_greater at 2.
    destruct (flt (key x) (key y)) eqn:E.
    + replace (l1 ++ x :: mid ++ y :: xs)
        with ((l1 ++ x :: mid) ++ y :: [] ++ xs)
        by (rewrite <- app_assoc; reflexivity).
      apply IH.
      * intros z Hz. apply Hn. rewrite <- app_assoc in Hz. exact Hz.
      * intros z Hz. apply in_app_or in Hz as [Hz | [<- | Hz]].
        -- eapply flt_trans; [apply H1; assumption | exact E].
        -- exact E.
        -- eapply fle_flt_trans; [apply Hm; assumption | exact E].
      * intros z [].
    + replace (l1 ++ x :: mid ++ y :: xs)
        with (l1 ++ x :: (mid ++ [y]) ++ xs)
        by (rewrite <- app_assoc; reflexivity).
      apply IH.
      * intros z Hz. apply Hn. rewrite <- app_assoc in Hz. exact Hz.
      * exact H1.
      * intros z Hz. apply in_app_or in Hz as [Hz | [<- | []]].
        -- apply Hm; assumption.
        -- apply flt_false_fle; [| | exact E]; apply Hn.
           ++ apply in_or_app. right. left. reflexivity.
           ++ apply in_or_app. right. right.
              apply in_or_app. right. left. reflexivity.
Qed.

Lemma first_max_best (l : list A) (b : A) :
  (forall y, In y l -> is_nan (key y) = false) ->
  first_max key l b -> is_best key l b.
Proof.
  intros Hn (l1 & l2 & -> & H1 & H2).
  split; [apply in_or_app; right; left; reflexivity |].
  split; [| exists l1, l2; auto].
  intros y Hy. apply in_app_or in Hy as [Hy | [<- | Hy]].
  - apply flt_fle, H1, Hy.
  - apply fle_refl, Hn. apply in_or_app. right. left. reflexivity.
  - apply H2, Hy.
Qed.

Lemma fold_max_in (xs : list A) (x : A) :
  In (fold_left (keep_greater key) xs x) (x :: xs).
Proof.
  revert x. induction xs as [| y xs IH]; intros x; [left; reflexivity |].
  cbn [fold_left]. unfold keep_greater at 2.
  destruct (flt (key x) (key y)).
  - right. apply IH.
  - destruct (IH x) as [E | H]; [left; exact E | right; right; exact H].
Qed.

Lemma py_max_by_best (l : list A) :
  l <> [] ->
  exists b,
    py_max_by key l = Some b /\ In b l /\
    ((forall y, In y l -> is_nan (key y) = false) -> is_best key l b).
Proof.
  intros Hl. destruct l as [| x xs]; [congruence |].
  eexists. split; [reflexivity |]. split; [apply fold_max_in |].
  intros Hn. apply first_max_best; [assumption |].
  apply (fold_max_spec xs [] [] x); cbn; [assumption | tauto | tauto].
Qed.

End Best.

(** C6: on an empty list [get_best_products] returns None for all three
    keys; on a non-empty list each of the three is present and a member of
    the list, and (the scores of scored candidates being numbers) it
    attains the maximum of its score and is the first member in list order
    that does. *)
Theorem C6_best_products :
  get_best_products [] =
    {| best_value := None; best_price := None; best_quality := None |} /\
  forall l : list ProductWithAnalysis,
    l <> [] ->
    exists bv bp bq : ProductWithAnalysis,
      get_best_products l =
        {| best_value := Some bv; best_price := Some bp; best_quality := Some bq |} /\
      In bv l /\ In bp l /\ In bq l /\
      (Forall scores_not_nan l ->
       is_best value_score l bv /\ is_best price_score l bp /\
       is_best quality_score l bq).
Proof.
  split; [reflexivity |].
  intros l Hl.
  destruct (py_max_by_best value_score l Hl) as (bv & Ev & Iv & Hv).
  destruct (py_max_by_best price_score l Hl) as (bp & Epr & Ip & Hp).
  destruct (py_max_by_best quality_score l Hl) as (bq & Eq & Iq & Hq).
  exists bv, bp, bq.
  split; [| split; [exact Iv | split; [exact Ip | split; [exact Iq |]]]].
  - unfold get_best_products. destruct l; [congruence |].
    rewrite Ev, Epr, Eq. reflexivity.
  - intros Hn. rewrite Forall_forall in Hn.
    assert (N : forall y, In y l -> scores_not_nan y).
    { intros y Hy. apply (Hn y), list_elem_of_In, Hy. }
    split; [apply Hv | split; [apply Hp | apply Hq]];
      intros y Hy; apply (N y Hy).
Qed.

Lemma C6_witness :
  sample_frame <> [] /\ Forall scores_not_nan sample_frame /\
  exists bv bp bq : ProductWithAnalysis,
    get_best_products sample_frame =
      {| best_value := Some bv; best_price := Some bp; best_quality := Some bq |} /\
    is_best value_score sample_frame bv /\ is_best price_score sample_frame bp /\
    is_best quality_score sample_frame bq.
Proof.
  assert (N : sample_frame <> []) by discriminate.
  assert (F : Forall scores_not_nan sample_frame).
  { repeat constructor; vm_compute; reflexivity. }
  refine (conj N (conj F _)).
  destruct (proj2 C6_best_products sample_frame N)
    as (bv & bp & bq & E & _ & _ & _ & H).
  exists bv, bp, bq. exact (conj E (H F)).
Defined.

(** ** Claims on the price normaliser *)

(** C1 (as amended): with the default target currency USD,
    [normalize_price("$1,299.99")] is (1299.99, "USD") and
    [normalize_price("€99,50")] is (107.46, "EUR"): the text parses to
    99.50 euros, the amount returned is converted to US dollars at the
    static rate 1.08, and the currency returned is the detected one. *)
Theorem C1_normalize_examples (unicode_decimal : Z -> option Z) :
  normalize_price unicode_decimal (str "$1,299.99") (str "USD")
  = Some (Some (dec 129999 2), str "USD") /\
  normalize_price unicode_decimal (str "€99,50") (str "USD")
  = Some (Some (dec 10746 2), str "EUR") /\
  parse_numeric_value unicode_decimal (str "99,50") = Some (dec 9950 2).
Proof. split; [| split]; vm_compute; reflexivity. Qed.

(** The amount the code returns for "€99,50" is not 99.50. *)
Lemma C1_counterexample :
  normalize_price ascii_only (str "€99,50") (str "USD")
  <> Some (Some (dec 9950 2), str "EUR").
Proof. vm_compute. discriminate. Qed.

(** C7: the symbol table lists "C$" for CAD, but the scan meets "$" first:
    on "C$12.50" the detected currency is USD and a "C" is left in the
    remaining text.  The same happens for every text whose cleaned form
    contains a dollar sign. *)
Theorem C7_cad_symbol_unreachable (unicode_decimal : Z -> option Z) :
  detect_currency (str "C$12.50") = (str "USD", str "C12.50") /\
  normalize_price unicode_decimal (str "C$12.50") (str "USD")
  = Some (Some (dec 1250 2), str "USD") /\
  forall text : pystr,
    contains (str "$") (clean_price_string text) = true ->
    (detect_currency text).1 = str "USD".
Proof.
  split; [vm_compute; reflexivity |].
  split; [vm_compute; reflexivity |].
  intros text H. unfold detect_currency.
  change CURRENCY_SYMBOLS
    with ((str "$", str "USD") :: tl CURRENCY_SYMBOLS).
  cbn [detect_symbol]. rewrite H. reflexivity.
Qed.

(** *** Texts without digits *)

Section NoDigits.

Variable unicode_decimal : Z -> option Z.

Let no_digit (s : pystr) : Prop :=
  List.Forall (fun c => is_decimal unicode_decimal c = false) s.

Lemma nd_lstrip (f : Z -> bool) (s : pystr) :
  no_digit s -> no_digit (lstrip_by f s).
Proof.
  induction 1 as [| c s Hc Hs IH]; cbn; [constructor |].
  destruct (f c); [exact IH | constructor; assumption].
Qed.

Lemma nd_rev (s : pystr) : no_digit s -> no_digit (rev s).
Proof. apply List.Forall_rev. Qed.

Lemma nd_rstrip (f : Z -> bool) (s : pystr) :
  no_digit s -> no_digit (rstrip_by f s).
Proof. intros H. apply nd_rev, nd_lstrip, nd_rev, H. Qed.

Lemma nd_strip (s : pystr) : no_digit s -> no_digit (strip s).
Proof. intros H. apply nd_rstrip, nd_lstrip, H. Qed.

Lemma nd_match_ci (pat s rest : pystr) :
  match_ci pat s = Some rest -> no_digit s -> no_digit rest.
Proof.
  revert s. induction pat as [| p pat IH]; intros s E H.
  - cbn in E. destruct s; congruence.
  - destruct s as [| c s]; [discriminate |]. cbn in E.
    destruct (re_ignorecase_eq p c); [| discriminate].
    inversion H; subst. eapply IH; eassumption.
Qed.

Lemma nd_match_alt_ci (alts : list pystr) (s g rest : pystr) :
  match_alt_ci alts s = Some (g, rest) -> no_digit s ->
  no_digit g /\ no_digit rest.
Proof.
  induction alts as [| alt alts IH]; cbn; [discriminate |].
  destruct (match_ci alt s) as [r |] eqn:E.
  - intros [= <- <-] H. split; [| eapply nd_match_ci; eassumption].
    apply Forall_take, H.
  - exact IH.
Qed.

Lemma nd_sub_prefix (alts : list pystr) (s : pystr) :
  no_digit s -> no_digit (sub_prefix_ci alts s).
Proof.
  intros H. unfold sub_prefix_ci.
  destruct (match_alt_ci alts s) as [[g rest] |] eqn:E; [| exact H].
  apply nd_lstrip. eapply nd_match_alt_ci; eassumption.
Qed.

Lemma nd_sub_suffix (alts : list pystr) (s : pystr) :
  no_digit s -> no_digit (sub_suffix_ci alts s).
Proof.
  intros H. unfold sub_suffix_ci.
  destruct (match_alt_ci _ (rev s)) as [[g rest] |] eqn:E; [| exact H].
  apply nd_rev, nd_lstrip.
  eapply nd_match_alt_ci; [eassumption | apply nd_rev, H].
Qed.

Lemma nd_split_ws (s cur : pystr) :
  no_digit s -> no_digit cur -> List.Forall no_digit (split_ws s cur).
Proof.
  intros H. revert cur. induction H as [| c s Hc Hs IH]; intros cur Hcur; cbn.
  - destruct cur; constructor; [apply nd_rev, Hcur | constructor].
  - destruct (is_space c).
    + destruct cur as [| x cur'].
      * apply IH. constructor.
      * constructor; [apply nd_rev, Hcur | apply IH; constructor].
    + apply IH. constructor; assumption.
Qed.

Lemma nd_app (a b : pystr) : no_digit a -> no_digit b -> no_digit (a ++ b).
Proof. intros Ha Hb. apply List.Forall_app. split; assumption. Qed.

Lemma nd_join (sep : pystr) (l : list pystr) :
  no_digit sep -> List.Forall no_digit l -> no_digit (join sep l).
Proof.
  intros Hsep H. induction H as [| w l Hw Hl IH]; [constructor |].
  cbn [join]. destruct l as [| w' l']; [exact Hw |].
  apply nd_app; [exact Hw |]. apply nd_app; [exact Hsep | exact IH].
Qed.

Lemma nd_literal (s : string) :
  forallb (fun c => c <? 48) (str s) = true -> no_digit (str s).
Proof.
  intros H. rewrite forallb_forall in H. apply List.Forall_forall.
  intros c Hc. specialize (H c Hc). apply Z.ltb_lt in H.
  unfold is_decimal, decimal_value.
  destruct (Z.leb_spec 48 c); [lia |]. cbn [andb].
  destruct (Z.ltb_spec c 128); [reflexivity | lia].
Qed.

Lemma nd_clean (s : pystr) : no_digit s -> no_digit (clean_price_string s).
Proof.
  intros H. unfold clean_price_string. destruct s as [| c s]; [constructor |].
  apply nd_join; [apply nd_literal; reflexivity |].
  apply nd_split_ws; [| constructor].
  apply nd_sub_suffix, nd_sub_prefix, nd_strip, H.
Qed.

Lemma nd_replace (old new : pystr) (skip : nat) (s : pystr) :
  no_digit new -> no_digit s -> no_digit (replace_from old new skip s).
Proof.
  intros Hn H. revert skip. induction H as [| c s Hc Hs IH]; intros skip;
    cbn [replace_from]; [constructor |].
  destruct skip as [| k]; [| apply IH].
  destruct (starts_with old (c :: s)).
  - apply nd_app; [exact Hn | apply IH].
  - constructor; [exact Hc | apply IH].
Qed.

Lemma nd_detect_symbol (symbols : list (pystr * pystr)) (s code rest : pystr) :
  detect_symbol symbols s = Some (code, rest) -> no_digit s -> no_digit rest.
Proof.
  induction symbols as [| [symbol c] symbols IH]; cbn; [discriminate |].
  destruct (contains symbol s); [| exact IH].
  intros [= _ <-] H. apply nd_strip, nd_replace; [constructor | exact H].
Qed.

Lemma nd_detect_currency (s : pystr) :
  no_digit s -> no_digit (detect_currency s).2.
Proof.
  intros H. apply nd_clean in H. unfold detect_currency.
  destruct (detect_symbol _ _) as [[code rest] |] eqn:E.
  - cbn. eapply nd_detect_symbol; eassumption.
  - destruct (match_alt_ci iso_codes _) as [[g rest] |] eqn:E'; cbn; [| exact H].
    apply nd_strip. eapply nd_match_alt_ci; eassumption.
Qed.

Lemma digits_no_digit (s : pystr) (acc n : Z) :
  no_digit s -> digits unicode_decimal s acc n = (acc, n, s).
Proof.
  intros H. destruct H as [| c s Hc Hs]; [reflexivity |]. cbn.
  unfold is_decimal in Hc.
  destruct (decimal_value unicode_decimal c); [discriminate | reflexivity].
Qed.

Lemma py_float_no_digit (s : pystr) :
  no_digit s -> py_float unicode_decimal s = None.
Proof.
  intros H. unfold py_float.
  assert (N : forall (neg : bool) body, no_digit body ->
            (let sign x := if neg then fneg x else x in
             let '(ip, ni, rest) := digits unicode_decimal body 0 0 in
             match rest with
             | [] => if 0 <? ni then Some (sign (rnd (ip * unit) 1)) else None
             | c :: frac =>
                 if c =? 46 then
                   let '(fp, nf, rest') := digits unicode_decimal frac ip 0 in
                   match rest' with
                   | [] => if 0 <? ni + nf
                           then Some (sign (rnd (fp * unit) (10 ^ nf))) else None
                   | _ => None
                   end
                 else None
             end) = None).
  { intros neg body Hb. cbv zeta. rewrite (digits_no_digit body 0 0 Hb).
    destruct body as [| c frac]; [reflexivity |].
    inversion Hb; subst.
    rewrite (digits_no_digit frac 0 0) by assumption.
    destruct (c =? 46); [| reflexivity].
    destruct frac; reflexivity. }
  destruct s as [| c s']; [apply (N false []); constructor |].
  inversion H; subst.
  destruct (c =? 45).
  - apply (N true s'). assumption.
  - apply (N false (c :: s')). assumption.
Qed.

Lemma to_float_no_digit (neg : bool) (s : pystr) :
  no_digit s -> to_float unicode_decimal neg s = None.
Proof.
  intros H. unfold to_float. rewrite py_float_no_digit by assumption.
  reflexivity.
Qed.

Lemma nd_filter (f : Z -> bool) (s : pystr) :
  no_digit s -> no_digit (List.filter f s).
Proof.
  intros H. apply List.Forall_forall. intros c Hc.
  apply List.filter_In in Hc as [Hc _].
  revert c Hc. apply List.Forall_forall. exact H.
Qed.

Lemma parse_no_digit (s : pystr) :
  no_digit s -> parse_numeric_value unicode_decimal s = None.
Proof.
  intros H. unfold parse_numeric_value.
  destruct s as [| c0 s0]; [reflexivity |].
  pose proof (nd_filter
    (fun c => is_decimal unicode_decimal c || (c =? 46) || (c =? 44) || (c =? 45))
    _ H) as Hf.
  destruct (List.filter _ (c0 :: s0)) as [| c1 s1]; [reflexivity |].
  cbv zeta.
  pose proof (nd_lstrip (fun c => c =? 45) _ Hf) as Hl.
  assert (Hdot : no_digit (str ".")) by (apply nd_literal; reflexivity).
  repeat match goal with
         | |- context [if ?b then _ else _] => destruct b
         end;
    apply to_float_no_digit; unfold replace;
    repeat first [ assumption | constructor | apply nd_replace ].
Qed.

End NoDigits.

(** C8: for every price text without a digit character (one that [\d]
    matches), the empty string included, [normalize_price] returns None as
    the amount, whatever the target currency. *)
Theorem C8_no_digits_no_amount (unicode_decimal : Z -> option Z)
    (text target_currency : pystr) :
  List.Forall (fun c => is_decimal unicode_decimal c = false) text ->
  exists source_currency : pystr,
    normalize_price unicode_decimal text target_currency
    = Some (None, source_currency).
Proof.
  intros H. unfold normalize_price.
  destruct text as [| c s] eqn:E; [eauto |]. rewrite <- E in *.
  pose proof (nd_detect_currency unicode_decimal text H) as Hc.
  destruct (detect_currency text) as [source_currency cleaned].
  cbn [snd] in Hc. rewrite (parse_no_digit unicode_decimal cleaned Hc).
  eauto.
Qed.

Lemma C8_witness :
  List.Forall (fun c => is_decimal ascii_only c = false) (str "Free") /\
  exists source_currency : pystr,
    normalize_price ascii_only (str "Free") (str "USD")
    = Some (None, source_currency).
Proof.
  assert (H : List.Forall (fun c => is_decimal ascii_only c = false) (str "Free")).
  { repeat constructor. }
  exact (conj H (C8_no_digits_no_amount ascii_only (str "Free") (str "USD") H)).
Defined.

(** ** Claims on the mock data service *)

Section MockShape.

Variable py_lower : pystr -> pystr.
Variable py_title : pystr -> pystr.
Variable py_hash : pystr -> Z.









End MockShape.



(** ** Ranking of a scored frame *)

Section Ranking.

Context {A : Type} (key : A -> float).

Lemma insert_desc_descending (x : A) (l : list A) :
  is_nan (key x) = false -> (forall y, In y l -> is_nan (key y) = false) ->
  descending key l -> descending key (insert_desc key x l).
Proof.
  intros Nx Nl H. induction H as [| y l Hs IH Hy]; cbn [insert_desc].
  - constructor; constructor.
  - destruct (flt (key x) (key y)) eqn:E.
    + constructor.
      * apply IH. intros z Hz. apply Nl. right. exact Hz.
      * apply List.Forall_forall. intros z Hz.
        apply (Permutation_in _ (insert_desc_perm key x l)) in Hz.
        destruct Hz as [<- | Hz]; [apply flt_fle, E |].
        rewrite List.Forall_forall in Hy. apply Hy, Hz.
    + assert (Hxy : fle (key y) (key x) = true).
      { apply flt_false_fle; [exact Nx | apply Nl; left; reflexivity | exact E]. }
      constructor; [constructor; assumption |].
      constructor; [exact Hxy |].
      apply List.Forall_forall. intros z Hz.
      rewrite List.Forall_forall in Hy.
      eapply fle_trans; [apply Hy, Hz | exact Hxy].
Qed.

Lemma sort_desc_descending (l : list A) :
  (forall y, In y l -> is_nan (key y) = false) -> descending key (sort_desc key l).
Proof.
  induction l as [| x l IH]; intros Hn; cbn; [constructor |].
  apply insert_desc_descending.
  - apply Hn. left. reflexivity.
  - intros y Hy. apply (Permutation_in _ (sort_desc_perm key l)) in Hy.
    apply Hn. right. exact Hy.
  - apply IH. intros y Hy. apply Hn. right. exact Hy.
Qed.

Lemma feq_flt_false (x y v : float) :
  flt x y = true -> feq x v = true -> feq y v = false.
Proof.
  destruct x, y, v; cbn; try reflexivity; try discriminate. lia.
Qed.

(** An item is inserted behind the items with a greater key only, so the
    items of any one key keep their order. *)
Lemma insert_desc_with_key (v : float) (x : A) (l : list A) :
  with_key key v (insert_desc key x l) = with_key key v (x :: l).
Proof.
  unfold with_key. induction l as [| y l IH]; cbn [insert_desc]; [reflexivity |].
  destruct (flt (key x) (key y)) eqn:E; [| reflexivity].
  cbn [List.filter] in *. rewrite IH.
  destruct (feq (key x) v) eqn:Ex; [| reflexivity].
  rewrite (feq_flt_false _ _ _ E Ex). reflexivity.
Qed.

Lemma sort_desc_with_key (v : float) (l : list A) :
  with_key key v (sort_desc key l) = with_key key v l.
Proof.
  induction l as [| x l IH]; [reflexivity |].
  cbn [sort_desc foldr]. rewrite insert_desc_with_key.
  unfold with_key in *. cbn [List.filter]. fold (sort_desc key l). rewrite IH.
  reflexivity.
Qed.

(** In a descending list the scan of [max] never leaves the first item. *)
Lemma descending_head_max (x : A) (xs : list A) :
  descending key (x :: xs) -> fold_left (keep_greater key) xs x = x.
Proof.
  intros H. inversion H as [| ? ? _ Hx]; subst. clear H.
  induction Hx as [| y xs Hy _ IH]; [reflexivity |].
  cbn [fold_left]. unfold keep_greater at 2.
  rewrite (fle_flt_false _ _ Hy). exact IH.
Qed.

End Ranking.

Lemma in_0_10_not_nan (x : float) : in_0_10 x -> is_nan x = false.
Proof. intros [L _]. apply (fle_not_nan _ _ L). Qed.

(** What [score_products] returns: the scored candidates, one per product
    and in the order of the products, sorted. *)
Lemma score_products_shape (products : list Product)
    (reviews_map : gmap pystr (list Review))
    (sentiments_map : gmap pystr SentimentAnalysis)
    (quality_map : option (gmap pystr (gmap pystr float))) :
  exists scored : list ProductWithAnalysis,
    score_products get_settings products reviews_map sentiments_map quality_map
    = Some (sort_desc value_score scored) /\
    map product scored = products /\ Forall scores_ok scored.
Proof.
  unfold score_products.
  destruct products as [| p0 ps].
  - exists []. split; [reflexivity |]. split; [reflexivity | constructor].
  - cbn [map py_list_min py_list_max mbind option_bind].
    match goal with
    | |- context [mapM ?f ?l] =>
        destruct (mapM_total f (fun p sc => product sc = p /\ scores_ok sc) l)
          as (out & -> & Ho)
    end.
    { intros p. apply score_product_total. }
    cbn [mbind option_bind].
    exists out. split; [reflexivity |].
    split.
    + clear -Ho. induction Ho as [| p sc l k [E _] _ IH]; cbn;
        [reflexivity | rewrite E, IH; reflexivity].
    + clear -Ho. induction Ho as [| p sc l k [_ E] _ IH]; constructor; assumption.
Qed.

Lemma scored_descending (scored : list ProductWithAnalysis) :
  Forall scores_ok scored ->
  descending value_score (sort_desc value_score scored).
Proof.
  intros Hok. apply sort_desc_descending. intros y Hy.
  rewrite Forall_forall in Hok.
  destruct (Hok y (proj2 (list_elem_of_In _ _) Hy)) as (_ & _ & _ & Hv & _).
  apply in_0_10_not_nan, Hv.
Qed.

(** X1: the list that [score_products] returns is in descending order of
    value score: no candidate has a greater value score than one placed
    before it.  This holds for every input; the call never fails. *)
Theorem X1_ranking_descending (products : list Product)
    (reviews_map : gmap pystr (list Review))
    (sentiments_map : gmap pystr SentimentAnalysis)
    (quality_map : option (gmap pystr (gmap pystr float))) :
  exists out : list ProductWithAnalysis,
    score_products get_settings products reviews_map sentiments_map quality_map
    = Some out /\
    descending value_score out.
Proof.
  destruct (score_products_shape products reviews_map sentiments_map quality_map)
    as (scored & E & _ & Hok).
  eexists. split; [exact E | apply scored_descending, Hok].
Qed.

(** X2: the ranking of [score_products] is stable: for every value score,
    the candidates that have this score appear in the order in which their
    products were given. *)
Theorem X2_ranking_stable (products : list Product)
    (reviews_map : gmap pystr (list Review))
    (sentiments_map : gmap pystr SentimentAnalysis)
    (quality_map : option (gmap pystr (gmap pystr float))) :
  exists out : list ProductWithAnalysis,
    score_products get_settings products reviews_map sentiments_map quality_map
    = Some out /\
    forall v : float,
      sublist (map product (with_key value_score v out)) products.
Proof.
  destruct (score_products_shape products reviews_map sentiments_map quality_map)
    as (scored & E & Hp & _).
  eexists. split; [exact E |].
  intros v. rewrite sort_desc_with_key, <- Hp.
  unfold with_key.
  clear. induction scored as [| x l IH]; cbn [List.filter map]; [constructor |].
  destruct (feq (value_score x) v); cbn [map];
    [apply sublist_skip | apply sublist_cons]; exact IH.
Qed.

(** X3: for a non-empty list of products, the best-value candidate that
    [get_best_products] picks from the output of [score_products] (as
    [compare_products] does) is the first candidate of the ranking. *)
Theorem X3_best_value_ranked_first (products : list Product)
    (reviews_map : gmap pystr (list Review))
    (sentiments_map : gmap pystr SentimentAnalysis)
    (quality_map : option (gmap pystr (gmap pystr float))) :
  products <> [] ->
  exists (first : ProductWithAnalysis) (rest : list ProductWithAnalysis),
    score_products get_settings products reviews_map sentiments_map quality_map
    = Some (first :: rest) /\
    best_value (get_best_products (first :: rest)) = Some first.
Proof.
  intros Hne.
  destruct (score_products_shape products reviews_map sentiments_map quality_map)
    as (scored & E & Hp & Hok).
  pose proof (scored_descending scored Hok) as D.
  destruct (sort_desc value_score scored) as [| first rest] eqn:Es.
  - exfalso. pose proof (sort_desc_perm value_score scored) as P.
    rewrite Es in P. apply Permutation_nil in P. subst scored.
    cbn in Hp. congruence.
  - exists first, rest. split; [exact E |].
    cbn [get_best_products best_value py_max_by].
    rewrite (descending_head_max value_score first rest D). reflexivity.
Qed.

Lemma X3_witness :
  test_products <> [] /\
  exists (first : ProductWithAnalysis) (rest : list ProductWithAnalysis),
    score_products get_settings test_products ∅ test_sentiments None
    = Some (first :: rest) /\
    best_value (get_best_products (first :: rest)) = Some first.
Proof.
  assert (N : test_products <> []) by discriminate.
  exact (conj N (X3_best_value_ranked_first test_products ∅ test_sentiments None N)).
Defined.

(** ** Price scores within a frame *)

Section FrameEnds.

Lemma list_min_spec (xs : list float) :
  forall m : float,
    is_nan m = false -> (forall y, In y xs -> is_nan y = false) ->
    let r := fold_left (fun m y => if flt y m then y else m) xs m in
    In r (m :: xs) /\ forall y, In y (m :: xs) -> fle r y = true.
Proof.
  induction xs as [| x xs IH]; intros m Nm Nx; cbn [fold_left].
  - split; [left; reflexivity |]. intros y [<- | []]. apply fle_refl, Nm.
  - assert (Hx : is_nan x = false) by (apply Nx; left; reflexivity).
    destruct (flt x m) eqn:E.
    + destruct (IH x Hx ltac:(intros y Hy; apply Nx; right; exact Hy)) as [I L].
      cbv zeta in *. split.
      * destruct I as [<- | I]; [right; left; reflexivity | right; right; exact I].
      * intros y [<- | [<- | Hy]].
        -- eapply fle_trans; [apply L; left; reflexivity | apply flt_fle, E].
        -- apply L. left. reflexivity.
        -- apply L. right. exact Hy.
    + destruct (IH m Nm ltac:(intros y Hy; apply Nx; right; exact Hy)) as [I L].
      cbv zeta in *. split.
      * destruct I as [<- | I]; [left; reflexivity | right; right; exact I].
      * intros y [<- | [<- | Hy]].
        -- apply L. left. reflexivity.
        -- eapply fle_trans; [apply L; left; reflexivity |].
           apply flt_false_fle; assumption.
        -- apply L. right. exact Hy.
Qed.

Lemma list_max_spec (xs : list float) :
  forall m : float,
    is_nan m = false -> (forall y, In y xs -> is_nan y = false) ->
    let r := fold_left (fun m y => if flt m y then y else m) xs m in
    In r (m :: xs) /\ forall y, In y (m :: xs) -> fle y r = true.
Proof.
  induction xs as [| x xs IH]; intros m Nm Nx; cbn [fold_left].
  - split; [left; reflexivity |]. intros y [<- | []]. apply fle_refl, Nm.
  - assert (Hx : is_nan x = false) by (apply Nx; left; reflexivity).
    destruct (flt m x) eqn:E.
    + destruct (IH x Hx ltac:(intros y Hy; apply Nx; right; exact Hy)) as [I L].
      cbv zeta in *. split.
      * destruct I as [<- | I]; [right; left; reflexivity | right; right; exact I].
      * intros y [<- | [<- | Hy]].
        -- eapply fle_trans; [apply flt_fle, E | apply L; left; reflexivity].
        -- apply L. left. reflexivity.
        -- apply L. right. exact Hy.
    + destruct (IH m Nm ltac:(intros y Hy; apply Nx; right; exact Hy)) as [I L].
      cbv zeta in *. split.
      * destruct I as [<- | I]; [left; reflexivity | right; right; exact I].
      * intros y [<- | [<- | Hy]].
        -- apply L. left. reflexivity.
        -- eapply fle_trans; [| apply L; left; reflexivity].
           apply flt_false_fle; assumption.
        -- apply L. right. exact Hy.
Qed.

(** With a finite spread, the frame's minimum scores 10 and its maximum
    scores 0. *)
Lemma price_score_frame_ends (mn mx : float) :
  feq mx mn = false -> finite (fsub mx mn) = true ->
  calculate_price_score mn mn mx = Some (dec 100 1) /\
  calculate_price_score mx mn mx = Some (dec 0 1).
Proof.
  intros H Hfin. destruct price_score_ends as (E10 & E0 & Z0).
  unfold calculate_price_score. rewrite H.
  pose proof (fsub_nonzero _ _ H) as Hne.
  destruct mx as [a | | |], mn as [b | | |]; try discriminate Hfin.
  destruct (fsub (Fin a) (Fin b)) as [d | | |] eqn:Ed; try discriminate Hfin.
  assert (Hd : d <> 0) by congruence.
  split.
  - rewrite fdiv_self by assumption.
    change (Some (clamp_round (fmul (Fin unit) (of_int 10))) = Some (dec 100 1)).
    rewrite E10. reflexivity.
  - unfold fsub at 1. cbn [fneg fadd]. rewrite Z.add_opp_diag_r, Z0.
    rewrite fdiv_zero by assumption.
    change (Some (clamp_round (fmul (Fin 0) (of_int 10))) = Some (dec 0 1)).
    rewrite E0. reflexivity.
Qed.

Lemma price_ok_fin (x : float) : price_ok x -> exists n, x = Fin n /\ 0 <= n.
Proof.
  intros (F & _ & L). destruct x as [n | | |]; try discriminate F.
  exists n. split; [reflexivity | apply fle_fin, L].
Qed.

Lemma price_ok_not_nan (x : float) : price_ok x -> is_nan x = false.
Proof. intros H. destruct (price_ok_fin x H) as (n & -> & _). reflexivity. Qed.

(** The price scores within a frame of admissible prices. *)
Lemma frame_price_scores (prices : list float) (lo hi x v : float) :
  List.Forall price_ok prices ->
  py_list_min prices = Some lo -> py_list_max prices = Some hi ->
  In x prices -> calculate_price_score x lo hi = Some v ->
  ((forall y, In y prices -> feq y x = true) -> v = dec 75 1) /\
  ((exists y, In y prices /\ feq y x = false) ->
   (forall y, In y prices -> fle x y = true) -> v = dec 100 1) /\
  ((exists y, In y prices /\ feq y x = false) ->
   (forall y, In y prices -> fle y x = true) -> v = dec 0 1).
Proof.
  intros Hok Hlo Hhi Hx Hv.
  rewrite List.Forall_forall in Hok.
  assert (Nn : forall y, In y prices -> is_nan y = false)
    by (intros y Hy; apply price_ok_not_nan, Hok, Hy).
  destruct prices as [| p0 ps]; [destruct Hx |].
  cbn [py_list_min py_list_max] in Hlo, Hhi.
  injection Hlo as Hlo. injection Hhi as Hhi.
  destruct (list_min_spec ps p0 (Nn p0 ltac:(left; reflexivity))
              ltac:(intros y Hy; apply Nn; right; exact Hy)) as [Ilo Llo].
  destruct (list_max_spec ps p0 (Nn p0 ltac:(left; reflexivity))
              ltac:(intros y Hy; apply Nn; right; exact Hy)) as [Ihi Lhi].
  cbv zeta in *. rewrite Hlo in Ilo, Llo. rewrite Hhi in Ihi, Lhi.
  clear Hlo Hhi.
  destruct (price_ok_fin x (Hok x Hx)) as (nx & -> & Px).
  destruct (price_ok_fin lo (Hok lo Ilo)) as (nl & -> & Pl).
  destruct (price_ok_fin hi (Hok hi Ihi)) as (nh & El & Ph).
  pose proof (Hok hi Ihi) as (Fh & Rh & _). rewrite El in *.
  assert (Blo : nl <= nx) by (apply fle_fin, Llo, Hx).
  assert (Bhi : nx <= nh) by (apply fle_fin, Lhi, Hx).
  assert (Spread : nl <> nh ->
                   calculate_price_score (Fin nl) (Fin nl) (Fin nh) = Some (dec 100 1) /\
                   calculate_price_score (Fin nh) (Fin nl) (Fin nh) = Some (dec 0 1)).
  { intros Hne. apply price_score_frame_ends.
    - cbn. apply Z.eqb_neq. lia.
    - apply spread_finite; [exact Fh | exact Rh | |]; apply fle_fin; lia. }
  split; [| split].
  - intros Hall.
    pose proof (Hall _ Ilo) as A. pose proof (Hall _ Ihi) as B.
    cbn [feq] in A, B. apply Z.eqb_eq in A, B. subst nl nh.
    unfold calculate_price_score in Hv. cbn [feq] in Hv.
    rewrite Z.eqb_refl in Hv. congruence.
  - intros (y & Hy & Ny) Hmin.
    destruct (price_ok_fin y (Hok y Hy)) as (ny & -> & _).
    cbn [feq] in Ny. apply Z.eqb_neq in Ny.
    pose proof (proj1 (fle_fin _ _) (Hmin _ Ilo)).
    pose proof (proj1 (fle_fin _ _) (Hmin _ Hy)).
    pose proof (proj1 (fle_fin _ _) (Lhi _ Hy)).
    assert (nl = nx) by lia. subst nl.
    destruct (Spread ltac:(lia)) as [S _]. congruence.
  - intros (y & Hy & Ny) Hmax.
    destruct (price_ok_fin y (Hok y Hy)) as (ny & -> & _).
    cbn [feq] in Ny. apply Z.eqb_neq in Ny.
    pose proof (proj1 (fle_fin _ _) (Hmax _ Ihi)).
    pose proof (proj1 (fle_fin _ _) (Hmax _ Hy)).
    pose proof (proj1 (fle_fin _ _) (Llo _ Hy)).
    assert (nh = nx) by lia. subst nh.
    destruct (Spread ltac:(lia)) as [_ S]. congruence.
Qed.

Lemma score_product_price (st : Settings) (p : Product) (mn mx : float)
    (rs : list Review) (s : option SentimentAnalysis)
    (qi : option (gmap pystr float)) (sc : ProductWithAnalysis) :
  score_product st p mn mx rs s qi = Some sc ->
  product sc = p /\
  calculate_price_score (price p) mn mx = Some (price_score sc).
Proof.
  unfold score_product.
  destruct (calculate_price_score (price p) mn mx) as [ps |]; [| discriminate].
  destruct (calculate_review_score _ _ s) as [rv |]; [| discriminate].
  destruct (calculate_quality_score s qi) as [qs |]; [| discriminate].
  cbn. intros [= <-]. split; reflexivity.
Qed.

Lemma mapM_in {A B} (f : A -> option B) (l : list A) (out : list B) (y : B) :
  mapM f l = Some out -> In y out -> exists x, In x l /\ f x = Some y.
Proof.
  revert out. induction l as [| x l IH]; intros out.
  - cbn. intros [= <-] [].
  - cbn. destruct (f x) as [fx |] eqn:Ex; cbn; [| discriminate].
    destruct (mapM f l) as [o |]; cbn; [| discriminate].
    intros [= <-] [<- | Hy].
    + exists x. split; [left; reflexivity | exact Ex].
    + destruct (IH o eq_refl Hy) as (x' & Hx' & E').
      exists x'. split; [right; exact Hx' | exact E'].
Qed.

End FrameEnds.

(** X4: in a frame whose prices are finite, representable and not
    negative, every candidate that [score_products] returns is one of the
    products given, and its price score is 7.5 when all products have its
    price, 10.0 when prices differ and no product is cheaper, and 0.0 when
    prices differ and no product is dearer. *)
Theorem X4_frame_price_scores (products : list Product)
    (reviews_map : gmap pystr (list Review))
    (sentiments_map : gmap pystr SentimentAnalysis)
    (quality_map : option (gmap pystr (gmap pystr float)))
    (out : list ProductWithAnalysis) (sc : ProductWithAnalysis) :
  List.Forall (fun p => price_ok (price p)) products ->
  score_products get_settings products reviews_map sentiments_map quality_map
  = Some out ->
  In sc out ->
  let x := price (product sc) in
  In (product sc) products /\
  ((forall q, In q products -> feq (price q) x = true) ->
   price_score sc = dec 75 1) /\
  ((exists q, In q products /\ feq (price q) x = false) ->
   (forall q, In q products -> fle x (price q) = true) ->
   price_score sc = dec 100 1) /\
  ((exists q, In q products /\ feq (price q) x = false) ->
   (forall q, In q products -> fle (price q) x = true) ->
   price_score sc = dec 0 1).
Proof.
  intros Hok E Hsc. cbv zeta.
  unfold score_products in E.
  destruct products as [| p0 ps] eqn:Ep; [injection E as <-; destruct Hsc |].
  rewrite <- Ep in *.
  destruct (py_list_min (map price products)) as [lo |] eqn:Elo;
    [| rewrite Ep in Elo; discriminate Elo].
  destruct (py_list_max (map price products)) as [hi |] eqn:Ehi;
    [| rewrite Ep in Ehi; discriminate Ehi].
  cbn [mbind option_bind] in E.
  match type of E with
  | context [mapM ?f ?l] => destruct (mapM f l) as [scored |] eqn:Em
  end; [| discriminate E].
  cbn [mbind option_bind] in E. injection E as <-.
  apply (Permutation_in _ (sort_desc_perm value_score scored)) in Hsc.
  destruct (mapM_in _ _ _ _ Em Hsc) as (p & Hp & Es).
  apply score_product_price in Es as [Eprod Eprice].
  rewrite Eprod.
  assert (Hprices : List.Forall price_ok (map price products)).
  { apply List.Forall_forall. intros y Hy.
    apply List.in_map_iff in Hy as (q & <- & Hq).
    rewrite List.Forall_forall in Hok. apply Hok, Hq. }
  destruct (frame_price_scores (map price products) lo hi (price p)
              (price_score sc) Hprices Elo Ehi (List.in_map price _ _ Hp) Eprice)
    as (F1 & F2 & F3).
  split; [exact Hp |]. split; [| split].
  - intros Hall. apply F1. intros y Hy.
    apply List.in_map_iff in Hy as (q & <- & Hq). apply Hall, Hq.
  - intros (q & Hq & Nq) Hmin. apply F2.
    + exists (price q). split; [apply List.in_map, Hq | exact Nq].
    + intros y Hy. apply List.in_map_iff in Hy as (q' & <- & Hq'). apply Hmin, Hq'.
  - intros (q & Hq & Nq) Hmax. apply F3.
    + exists (price q). split; [apply List.in_map, Hq | exact Nq].
    + intros y Hy. apply List.in_map_iff in Hy as (q' & <- & Hq'). apply Hmax, Hq'.
Qed.

(** In the frame of the repository's tests the cheapest product (7.99)
    scores 10. *)
Lemma X4_witness :
  List.Forall (fun p => price_ok (price p)) test_products /\
  score_products get_settings test_products ∅ test_sentiments None
  = Some scored_test_frame /\
  In cheapest_scored scored_test_frame /\
  price_score cheapest_scored = dec 100 1.
Proof.
  assert (H1 : List.Forall (fun p => price_ok (price p)) test_products).
  { unfold test_products.
    repeat (constructor;
            [split; [vm_compute; reflexivity |];
             split; vm_compute; reflexivity |]).
    constructor. }
  assert (H2 : score_products get_settings test_products ∅ test_sentiments None
               = Some scored_test_frame) by (vm_compute; reflexivity).
  assert (H3 : In cheapest_scored scored_test_frame).
  { vm_compute. do 3 right. left. reflexivity. }
  refine (conj H1 (conj H2 (conj H3 _))).
  destruct (X4_frame_price_scores test_products ∅ test_sentiments None
              scored_test_frame cheapest_scored H1 H2 H3) as (_ & _ & Hmin & _).
  apply Hmin.
  - eexists. split; [left; reflexivity | vm_compute; reflexivity].
  - intros q Hq. unfold test_products in Hq. cbn [In] in Hq.
    destruct Hq as [<- | [<- | [<- | [<- | [<- | []]]]]]; vm_compute; reflexivity.
Defined.

(** ** Monotonicity of the component scores *)

(** X5: within a frame whose minimum is below its maximum and whose spread
    [max - min] is a finite float, [calculate_price_score] never fails and
    is non-increasing in the price: a higher price never scores higher. *)
Theorem X5_price_score_antitone (p p' min_price max_price : float) :
  flt min_price max_price = true ->
  finite (fsub max_price min_price) = true ->
  fle p p' = true ->
  exists s s' : float,
    calculate_price_score p min_price max_price = Some s /\
    calculate_price_score p' min_price max_price = Some s' /\
    fle s' s = true.
Proof.
  intros Hlt Hfin Hp.
  destruct scale_pos as (c5 & c10 & _ & E10 & _ & P10).
  destruct max_price as [a | | |], min_price as [b | | |];
    try discriminate Hfin; try discriminate Hlt.
  cbn [flt] in Hlt. apply Z.ltb_lt in Hlt.
  unfold calculate_price_score.
  assert (Ne : feq (Fin a) (Fin b) = false) by (cbn; apply Z.eqb_neq; lia).
  rewrite Ne.
  destruct (fsub (Fin a) (Fin b)) as [d | | |] eqn:Ed; try discriminate Hfin.
  assert (Hd : 0 < d).
  { cbn in Ed.
    pose proof (round_z_pos (a + - b) 1 ltac:(lia) ltac:(lia)) as P.
    unfold rnd, of_z in Ed.
    destruct (top <=? _); [discriminate Ed |].
    destruct (_ <=? - top); [discriminate Ed |]. injection Ed as <-. lia. }
  assert (M : fle (fsub (Fin a) p') (fsub (Fin a) p) = true).
  { unfold fsub. apply fadd_mono_r, fneg_antitone, Hp. }
  destruct (fdiv_pos_mono _ _ d Hd M) as (q' & q & -> & -> & Hq).
  cbn [mbind option_bind]. rewrite E10.
  do 2 eexists. split; [reflexivity |]. split; [reflexivity |].
  apply clamp_round_mono, fmul_pos_mono; assumption.
Qed.

Lemma X5_witness :
  let lo := dec 799 2 in
  let hi := dec 34999 2 in
  flt lo hi = true /\ finite (fsub hi lo) = true /\
  fle (dec 2999 2) (dec 8999 2) = true /\
  exists s s' : float,
    calculate_price_score (dec 2999 2) lo hi = Some s /\
    calculate_price_score (dec 8999 2) lo hi = Some s' /\
    fle s' s = true.
Proof.
  intros lo hi.
  assert (H1 : flt lo hi = true) by (vm_compute; reflexivity).
  assert (H2 : finite (fsub hi lo) = true) by (vm_compute; reflexivity).
  assert (H3 : fle (dec 2999 2) (dec 8999 2) = true) by (vm_compute; reflexivity).
  refine (conj H1 (conj H2 (conj H3 _))).
  exact (X5_price_score_antitone (dec 2999 2) (dec 8999 2) lo hi H1 H2 H3).
Defined.

(** X6: for every review count and every sentiment with a finite score (or
    none), [calculate_review_score] never fails and is non-decreasing in
    the rating. *)
Theorem X6_review_score_monotone_rating (r r' : float) (c : option Z)
    (s : option SentimentAnalysis) :
  sentiment_finite s -> fle r r' = true ->
  exists v v' : float,
    calculate_review_score (Some r) c s = Some v /\
    calculate_review_score (Some r') c s = Some v' /\
    fle v v' = true.
Proof. apply review_score_rating_mono. Qed.

Lemma X6_witness :
  sentiment_finite None /\ fle (dec 35 1) (dec 45 1) = true /\
  exists v v' : float,
    calculate_review_score (Some (dec 35 1)) (Some 150) None = Some v /\
    calculate_review_score (Some (dec 45 1)) (Some 150) None = Some v' /\
    fle v v' = true.
Proof.
  assert (H : fle (dec 35 1) (dec 45 1) = true) by (vm_compute; reflexivity).
  refine (conj I (conj H _)).
  exact (X6_review_score_monotone_rating (dec 35 1) (dec 45 1) (Some 150) None I H).
Defined.

(** X7: for every rating that is a number (or absent) and every review
    count, [calculate_review_score] is non-decreasing in the sentiment
    score: of two sentiments with finite scores the one with the higher
    score never gives the lower review score. *)
Theorem X7_review_score_monotone_sentiment (r : option float) (c : option Z)
    (s s' : SentimentAnalysis) :
  rating_is_number r ->
  finite (sentiment_score s) = true -> finite (sentiment_score s') = true ->
  fle (sentiment_score s) (sentiment_score s') = true ->
  exists v v' : float,
    calculate_review_score r c (Some s) = Some v /\
    calculate_review_score r c (Some s') = Some v' /\
    fle v v' = true.
Proof.
  intros Hr Fs Fs' Hs.
  destruct scale_pos as (c5 & c10 & E5 & E10 & P5 & P10).
  destruct (modifier_pos c) as (m & Em & Pm).
  destruct (finite_is_fin _ Fs) as [x Ex], (finite_is_fin _ Fs') as [x' Ex'].
  rewrite Ex in Fs. rewrite Ex' in Fs'. rewrite Ex, Ex' in Hs.
  destruct (fmul_weight x _ Fs half_weight) as [j Ej].
  destruct (fmul_weight x' _ Fs' half_weight) as [j' Ej'].
  assert (Hj : j <= j').
  { apply fle_fin. rewrite <- Ej, <- Ej'.
    destruct half_weight as (n & -> & Hn & _).
    apply fmul_mono_l; [exact Hn | apply fle_fin, Hs]. }
  assert (Hb : exists b, match r with
                         | Some r0 => q ← fdiv r0 (of_int 5); Some (fmul q (of_int 10))
                         | None => Some (dec 50 1)
                         end = Some b /\ is_nan b = false).
  { destruct r as [r0 |].
    - rewrite E5, E10.
      destruct (fdiv_some r0 (Fin c5)) as [q Eq]; [intros [= ->]; lia |].
      rewrite Eq. cbn [mbind option_bind]. eexists. split; [reflexivity |].
      apply fmul_pos_not_nan; [assumption |].
      eapply fdiv_pos_not_nan; [exact P5 | exact Hr | exact Eq].
    - eexists. split; [reflexivity | vm_compute; reflexivity]. }
  destruct Hb as (b & Eb & Nb).
  unfold calculate_review_score. rewrite Eb, Em, Ex, Ex', Ej, Ej'.
  cbn [mbind option_bind].
  do 2 eexists. split; [reflexivity |]. split; [reflexivity |].
  apply clamp_round_mono, fadd_fin_mono_r; [| exact Hj].
  apply fmul_pos_not_nan; assumption.
Qed.

Lemma X7_witness :
  let s := test_sentiment (dec (-65) 2) 1 4 in
  let s' := test_sentiment (dec 75 2) 3 2 in
  rating_is_number (Some (dec 40 1)) /\
  finite (sentiment_score s) = true /\ finite (sentiment_score s') = true /\
  fle (sentiment_score s) (sentiment_score s') = true /\
  exists v v' : float,
    calculate_review_score (Some (dec 40 1)) (Some 50) (Some s) = Some v /\
    calculate_review_score (Some (dec 40 1)) (Some 50) (Some s') = Some v' /\
    fle v v' = true.
Proof.
  intros s s'.
  assert (H0 : rating_is_number (Some (dec 40 1))) by (vm_compute; reflexivity).
  assert (H1 : finite (sentiment_score s) = true) by (vm_compute; reflexivity).
  assert (H2 : finite (sentiment_score s') = true) by (vm_compute; reflexivity).
  assert (H3 : fle (sentiment_score s) (sentiment_score s') = true)
    by (vm_compute; reflexivity).
  refine (conj H0 (conj H1 (conj H2 (conj H3 _)))).
  exact (X7_review_score_monotone_sentiment (Some (dec 40 1)) (Some 50) s s'
           H0 H1 H2 H3).
Defined.

(** X8: quality indicators are read through the four keys "durability",
    "performance", "build_quality" and "value_for_money" only: a dict that
    has none of them (the empty dict included) gives the same quality score
    as no dict at all. *)
Theorem X8_quality_unknown_keys (s : option SentimentAnalysis)
    (qi : gmap pystr float) :
  (forall key, In key quality_keys -> qi !! key = None) ->
  calculate_quality_score s (Some qi) = calculate_quality_score s None.
Proof.
  intros H. unfold calculate_quality_score.
  assert (E : omap (fun key => (fun v => fmul v (of_int 10)) <$> qi !! key)
                   quality_keys = []).
  { unfold quality_keys in *. cbn [omap list_omap].
    rewrite !H by (cbn [In]; tauto). reflexivity. }
  rewrite E. destruct (bool_decide (qi = ∅)); reflexivity.
Qed.

Lemma X8_witness :
  let qi : gmap pystr float := <[str "colour" := dec 9 1]> ∅ in
  (forall key, In key quality_keys -> qi !! key = None) /\
  calculate_quality_score None (Some qi) = calculate_quality_score None None.
Proof.
  intros qi.
  assert (H : forall key, In key quality_keys -> qi !! key = None).
  { intros key [<- | [<- | [<- | [<- | []]]]]; vm_compute; reflexivity. }
  exact (conj H (X8_quality_unknown_keys None qi H)).
Defined.

(** ** Discount percentage *)

Lemma percent_constants :
  exists c100 : Z,
    of_int 100 = Fin c100 /\ of_int 0 = Fin 0 /\ dec 0 1 = Fin 0 /\ 0 < c100 /\
    fmul (Fin 0) (Fin c100) = Fin 0 /\ fmul (Fin unit) (Fin c100) = Fin c100 /\
    round1 (Fin 0) = Fin 0 /\ round1 (Fin c100) = Fin c100.
Proof.
  eexists.
  split; [vm_compute; reflexivity |].
  split; [vm_compute; reflexivity |].
  split; [vm_compute; reflexivity |].
  split; [apply Z.ltb_lt; vm_compute; reflexivity |].
  split; [vm_compute; reflexivity |].
  split; [vm_compute; reflexivity |].
  split; vm_compute; reflexivity.
Qed.

(** The ratio [(original - current) / original] of a positive finite
    original price and a current price from 0 up to it. *)
Lemma discount_ratio (a b : Z) :
  finite (Fin a) = true -> representable (Fin a) = true -> 0 <= b -> b < a ->
  exists q : Z,
    fdiv (fsub (Fin a) (Fin b)) (Fin a) = Some (Fin q) /\ 0 <= q <= unit.
Proof.
  intros Fa Ra Hb Hlt.
  pose proof unit_pos as U. pose proof top_pos as T.
  cbn [representable] in Ra. rewrite Fa in Ra. cbn [andb] in Ra.
  apply Z.eqb_eq in Ra. rewrite Z.abs_eq in Ra by lia.
  cbn [finite] in Fa. apply andb_true_iff in Fa as [_ Fa]. apply Z.ltb_lt in Fa.
  pose proof (round_z_representable a ltac:(lia) Ra) as Ea.
  pose proof (round_z_mono (a + - b) 1 a 1 ltac:(lia) ltac:(lia) ltac:(lia)) as M.
  pose proof (round_z_pos (a + - b) 1 ltac:(lia) ltac:(lia)) as N.
  cbn [fsub fneg fadd]. unfold rnd at 1. rewrite of_z_fin by lia.
  set (d := round_z (a + - b) 1) in *.
  assert (Q : fdiv (Fin d) (Fin a) = Some (rnd (d * unit) a)).
  { cbn [fdiv]. destruct d as [| d' | d']; try lia;
      destruct a as [| a' | a']; try lia; reflexivity. }
  rewrite Q.
  assert (R : 0 <= round_z (d * unit) a <= unit).
  { split; [apply round_z_nonneg; nia |].
    pose proof (round_z_unit a ltac:(lia)) as E.
    pose proof (round_z_mono (d * unit) a (unit * a) a ltac:(lia) ltac:(lia)) as M'.
    rewrite E in M'. apply M'.
    apply Z.mul_le_mono_nonneg_r; [lia |]. nia. }
  unfold rnd. rewrite of_z_fin.
  - eexists. split; [reflexivity | exact R].
  - destruct scale_constants as (c5 & c10 & _ & _ & _ & _ & _ & _ & _ & BU). lia.
Qed.

Lemma discount_of_ratio (q : Z) :
  0 <= q <= unit ->
  fle (of_int 0) (round1 (fmul (Fin q) (of_int 100))) = true /\
  fle (round1 (fmul (Fin q) (of_int 100))) (of_int 100) = true.
Proof.
  intros [L U].
  destruct percent_constants as (c100 & E100 & E0 & _ & P & M0 & M1 & R0 & R1).
  rewrite E100, E0.
  pose proof (fmul_mono_l 0 q c100 ltac:(lia) L) as A.
  pose proof (fmul_mono_l q unit c100 ltac:(lia) U) as B.
  rewrite M0 in A. rewrite M1 in B.
  apply round1_mono in A, B. rewrite R0 in A. rewrite R1 in B.
  split; assumption.
Qed.

Lemma discount_range (original_price current_price : float) :
  finite original_price = true -> representable original_price = true ->
  is_nan current_price = false ->
  exists d : float,
    calculate_discount_percentage original_price current_price = Some d /\
    fle (of_int 0) d = true /\ fle d (of_int 100) = true.
Proof.
  intros Fo Ro Nc.
  assert (Z0 : fle (of_int 0) (dec 0 1) = true /\ fle (dec 0 1) (of_int 100) = true)
    by (split; vm_compute; reflexivity).
  unfold calculate_discount_percentage.
  destruct (fle original_price (of_int 0) || flt current_price (of_int 0)) eqn:G1;
    [eexists; split; [reflexivity | exact Z0] |].
  destruct (fle original_price current_price) eqn:G2;
    [eexists; split; [reflexivity | exact Z0] |].
  apply orb_false_iff in G1 as [G1 G1'].
  destruct percent_constants as (c100 & E100 & E0 & _).
  rewrite E0 in G1, G1'.
  destruct original_price as [a | | |]; try discriminate Fo.
  cbn [fle] in G1. apply Z.leb_gt in G1.
  destruct current_price as [b | | |]; try discriminate Nc;
    try discriminate G1'; try discriminate G2.
  cbn [flt] in G1'. apply Z.ltb_ge in G1'.
  cbn [fle] in G2. apply Z.leb_gt in G2.
  destruct (discount_ratio a b Fo Ro G1' G2) as (q & -> & Hq).
  cbn [mbind option_bind].
  eexists. split; [reflexivity |]. apply discount_of_ratio, Hq.
Qed.

(** X9: for a finite original price and a current price that is a number
    (infinities included), [calculate_discount_percentage] does not fail
    and returns a percentage between 0 and 100. *)
Theorem X9_discount_range (original_price current_price : float) :
  finite original_price = true -> representable original_price = true ->
  is_nan current_price = false ->
  exists d : float,
    calculate_discount_percentage original_price current_price = Some d /\
    fle (of_int 0) d = true /\ fle d (of_int 100) = true.
Proof. apply discount_range. Qed.

Lemma X9_witness :
  finite (of_int 100) = true /\ representable (of_int 100) = true /\
  is_nan (dec 755 1) = false /\
  exists d : float,
    calculate_discount_percentage (of_int 100) (dec 755 1) = Some d /\
    fle (of_int 0) d = true /\ fle d (of_int 100) = true.
Proof.
  assert (H1 : finite (of_int 100) = true) by (vm_compute; reflexivity).
  assert (H2 : representable (of_int 100) = true) by (vm_compute; reflexivity).
  assert (H3 : is_nan (dec 755 1) = false) by (vm_compute; reflexivity).
  refine (conj H1 (conj H2 (conj H3 _))).
  exact (X9_discount_range (of_int 100) (dec 755 1) H1 H2 H3).
Defined.

(** X10: for a finite original price, the discount is non-increasing in
    the current price over the current prices that are not negative: a
    higher current price never gives a higher discount. *)
Theorem X10_discount_antitone (original_price c c' : float) :
  finite original_price = true -> representable original_price = true ->
  fle (of_int 0) c = true -> fle c c' = true ->
  exists d d' : float,
    calculate_discount_percentage original_price c = Some d /\
    calculate_discount_percentage original_price c' = Some d' /\
    fle d' d = true.
Proof.
  intros Fo Ro Hc Hcc.
  destruct (fle_not_nan _ _ Hcc) as [Nc Nc'].
  destruct (discount_range original_price c Fo Ro Nc) as (d & Ed & Ld & Ud).
  exists d.
  assert (Z0 : fle (dec 0 1) d = true).
  { replace (dec 0 1) with (of_int 0) by (vm_compute; reflexivity). exact Ld. }
  rewrite Ed. revert Ed.
  unfold calculate_discount_percentage.
  assert (G0 : flt c (of_int 0) = false) by (apply fle_flt_false, Hc).
  assert (G0' : flt c' (of_int 0) = false).
  { apply fle_flt_false. exact (fle_trans _ _ _ Hc Hcc). }
  rewrite G0, G0', !orb_false_r.
  destruct (fle original_price (of_int 0)) eqn:G1.
  { intros _. eexists. split; [reflexivity |]. split; [reflexivity | exact Z0]. }
  destruct (fle original_price c') eqn:G2'.
  { intros _. eexists. split; [reflexivity |]. split; [reflexivity | exact Z0]. }
  destruct (fle original_price c) eqn:G2.
  { rewrite (fle_trans _ _ _ G2 Hcc) in G2'. discriminate G2'. }
  destruct percent_constants as (c100 & E100 & E0 & _ & P100 & _).
  rewrite E0 in G1, Hc.
  destruct original_price as [a | | |]; try discriminate Fo.
  cbn [fle] in G1. apply Z.leb_gt in G1.
  assert (M : fle (fsub (Fin a) c') (fsub (Fin a) c) = true).
  { unfold fsub. apply fadd_mono_r, fneg_antitone, Hcc. }
  destruct (fdiv_pos_mono _ _ a G1 M) as (q' & q & -> & -> & Hq).
  cbn [mbind option_bind]. intros [= <-].
  eexists. split; [reflexivity |]. split; [reflexivity |].
  rewrite E100. apply round1_mono, fmul_pos_mono; assumption.
Qed.

Lemma X10_witness :
  finite (of_int 100) = true /\ representable (of_int 100) = true /\
  fle (of_int 0) (of_int 25) = true /\ fle (of_int 25) (of_int 80) = true /\
  exists d d' : float,
    calculate_discount_percentage (of_int 100) (of_int 25) = Some d /\
    calculate_discount_percentage (of_int 100) (of_int 80) = Some d' /\
    fle d' d = true.
Proof.
  assert (H1 : finite (of_int 100) = true) by (vm_compute; reflexivity).
  assert (H2 : representable (of_int 100) = true) by (vm_compute; reflexivity).
  assert (H3 : fle (of_int 0) (of_int 25) = true) by (vm_compute; reflexivity).
  assert (H4 : fle (of_int 25) (of_int 80) = true) by (vm_compute; reflexivity).
  refine (conj H1 (conj H2 (conj H3 (conj H4 _)))).
  exact (X10_discount_antitone (of_int 100) (of_int 25) (of_int 80) H1 H2 H3 H4).
Defined.

(** The values that Python computes for these inputs. *)
Example discount_values :
  calculate_discount_percentage (of_int 100) (dec 33333 3) = Some (dec 667 1) /\
  calculate_discount_percentage (dec 1 1) (dec 3 2) = Some (dec 700 1) /\
  calculate_discount_percentage (of_int 100) (of_int 0) = Some (dec 1000 1) /\
  calculate_discount_percentage (of_int 0) (of_int 0) = Some (dec 0 1) /\
  calculate_discount_percentage (of_int 50) (of_int 80) = Some (dec 0 1).
Proof.
  split; [vm_compute; reflexivity |].
  split; [vm_compute; reflexivity |].
  split; [vm_compute; reflexivity |].
  split; vm_compute; reflexivity.
Qed.

(** ** Bounds and identifiers of the mock products *)

Section MockBounds.

Variable py_lower : pystr -> pystr.
Variable py_title : pystr -> pystr.
Variable py_hash : pystr -> Z.

Lemma mock_loop_bounds (query query_lower : pystr)
    (sources : list ProductSource) (limit : Z) (items : list MockItem) :
  forall (i : Z) (ps : list Product) (g : Rng),
    let out := (mock_loop py_lower py_title py_hash query query_lower sources
                          limit items i ps g).1 in
    (List.Forall (from_sources sources) ps ->
     List.Forall (from_sources sources) out) /\
    Z.of_nat (length out) <= Z.max (Z.of_nat (length ps)) limit /\
    (length out <= length ps + length items)%nat.
Proof.
  induction items as [| item items IH]; intros i ps g; cbn [mock_loop].
  - cbn. split; [auto | lia].
  - destruct (existsb _ sources) eqn:Es; cbn [andb].
    + destruct (Z.ltb_spec (Z.of_nat (length ps)) limit) as [L | L].
      * destruct (uniform (-5) 5 g) as [v g'].
        match goal with
        | |- context [mock_loop _ _ _ _ _ _ _ _ ?i' ?ps' ?g'] =>
            destruct (IH i' ps' g') as (F & B & N)
        end.
        cbv zeta in *. rewrite List.length_app in B, N. cbn [length] in *.
        split; [| lia].
        intros Hps. apply F, List.Forall_app. split; [exact Hps |].
        constructor; [exact Es | constructor].
      * destruct (IH (i + 1) ps g) as (F & B & N). cbv zeta in *.
        cbn [length]. split; [exact F | lia].
    + destruct (IH (i + 1) ps g) as (F & B & N). cbv zeta in *.
      cbn [length]. split; [exact F | lia].
Qed.

Lemma select_mock_data_length (table : list (pystr * list MockItem))
    (query_lower : pystr) (default : list MockItem) (n : nat) :
  List.Forall (fun kv => (length kv.2 <= n)%nat) table ->
  (length default <= n)%nat ->
  (length (select_mock_data table query_lower default) <= n)%nat.
Proof.
  intros H Hd. induction H as [| [k v] table Hv _ IH]; cbn; [exact Hd |].
  destruct (contains k query_lower); [exact Hv | exact IH].
Qed.

Lemma templates_length :
  List.Forall (fun kv : pystr * list MockItem => (length kv.2 <= 5)%nat)
              MOCK_PRODUCTS.
Proof.
  unfold MOCK_PRODUCTS. repeat constructor.
Qed.

End MockBounds.

(** X11: [get_mock_products] returns at most [limit] products (none when
    the limit is zero or negative), never more than five, and only
    products of the requested sources (so none when no source is given). *)
Theorem X11_mock_products_bounds (py_lower py_title : pystr -> pystr)
    (py_hash : pystr -> Z) (query : pystr) (sources : list ProductSource)
    (limit : Z) (g : Rng) :
  let out := (get_mock_products py_lower py_title py_hash query sources limit g).1 in
  Z.of_nat (length out) <= Z.max 0 limit /\
  (length out <= 5)%nat /\
  List.Forall (from_sources sources) out.
Proof.
  cbv zeta. unfold get_mock_products.
  match goal with
  | |- context [mock_loop _ _ _ ?q ?ql ?s ?l ?items ?i ?ps g] =>
      destruct (mock_loop_bounds py_lower py_title py_hash q ql s l items i ps g)
        as (F & B & N);
      pose proof (select_mock_data_length
                    MOCK_PRODUCTS ql (dict_get_items MOCK_PRODUCTS (str "default") []) 5
                    templates_length) as L
  end.
  cbv zeta in *. cbn [length] in *.
  split; [exact B |]. split; [| apply F; constructor].
  assert (length (dict_get_items MOCK_PRODUCTS (str "default") []) <= 5)%nat
    by (vm_compute; lia).
  specialize (L ltac:(assumption)). lia.
Qed.

Section Decimal.

Lemma number_from_app (a b : pystr) (acc : Z) :
  number_from (a ++ b) acc = number_from b (number_from a acc).
Proof.
  revert acc. induction a as [| c a IH]; intros acc; [reflexivity |].
  cbn. apply IH.
Qed.

Lemma number_from_acc (s : pystr) (acc : Z) :
  number_from s acc = acc * 10 ^ Z.of_nat (length s) + number s.
Proof.
  unfold number. revert acc. induction s as [| c s IH]; intros acc.
  - cbn. lia.
  - cbn [number_from length]. rewrite IH, (IH (0 * 10 + (c - 48))).
    rewrite Nat2Z.inj_succ, Z.pow_succ_r by lia. ring.
Qed.

Lemma number_nonneg (s : pystr) : ascii_digits s -> 0 <= number s.
Proof.
  unfold number. intros H.
  assert (G : forall acc, 0 <= acc -> 0 <= number_from s acc).
  { induction H as [| c s Hc _ IH]; intros acc Ha; [exact Ha |].
    cbn. apply IH. unfold is_ascii_digit in Hc. lia. }
  apply G. lia.
Qed.

Lemma ascii_digits_app (a b : pystr) :
  ascii_digits a -> ascii_digits b -> ascii_digits (a ++ b).
Proof. intros Ha Hb. apply List.Forall_app. split; assumption. Qed.

Lemma decimal_digits_spec (fuel : nat) :
  forall (n : Z) (acc : pystr),
    (0 < fuel)%nat -> 0 <= n < 10 ^ Z.of_nat fuel ->
    exists ds : pystr,
      decimal_digits fuel n acc = ds ++ acc /\ ascii_digits ds /\ ds <> [] /\
      number ds = n.
Proof.
  induction fuel as [| fuel IH]; intros n acc Hf Hn; [lia |].
  cbn [decimal_digits].
  pose proof (Z.mod_pos_bound n 10 ltac:(lia)) as Hm.
  destruct (Z.ltb_spec n 10) as [L | L].
  - exists [48 + n mod 10]. split; [reflexivity |].
    split; [constructor; [unfold is_ascii_digit; lia | constructor] |].
    split; [discriminate |].
    unfold number. cbn. rewrite Z.mod_small by lia. lia.
  - assert (Hf' : (0 < fuel)%nat).
    { destruct fuel; [| lia]. cbn in Hn. lia. }
    rewrite Nat2Z.inj_succ, Z.pow_succ_r in Hn by lia.
    destruct (IH (n / 10) ((48 + n mod 10) :: acc) Hf') as (ds & E & D & _ & N).
    { split; [apply Z.div_pos; lia |].
      apply Z.div_lt_upper_bound; lia. }
    exists (ds ++ [48 + n mod 10]).
    split; [rewrite E, <- app_assoc; reflexivity |].
    split; [apply ascii_digits_app;
            [exact D | constructor; [unfold is_ascii_digit; lia | constructor]] |].
    split; [destruct ds; discriminate |].
    unfold number in *. rewrite number_from_app, N. cbn.
    pose proof (Z.div_mod n 10 ltac:(lia)). lia.
Qed.

Lemma pow10_log2 (n : Z) : 0 <= n -> n < 10 ^ (Z.log2 n + 1).
Proof.
  intros Hn. pose proof (Z.log2_nonneg n) as Hl.
  assert (P : 2 ^ (Z.log2 n + 1) <= 10 ^ (Z.log2 n + 1))
    by (apply Z.pow_le_mono_l; lia).
  destruct (Z.eq_dec n 0) as [-> | Hne].
  - cbn. lia.
  - pose proof (Z.log2_spec n ltac:(lia)) as [_ U].
    replace (Z.succ (Z.log2 n)) with (Z.log2 n + 1) in U by lia. lia.
Qed.

(** [str(n)] of an int that is not negative is its decimal numeral. *)
Lemma str_of_int_spec (n : Z) :
  0 <= n ->
  ascii_digits (str_of_int n) /\ str_of_int n <> [] /\ number (str_of_int n) = n.
Proof.
  intros Hn. unfold str_of_int.
  destruct (Z.ltb_spec n 0) as [L | _]; [lia |].
  pose proof (Z.log2_nonneg n) as Hl.
  destruct (decimal_digits_spec (Z.to_nat (Z.log2 n + 1)) n []) as (ds & E & D & N & V).
  - lia.
  - rewrite Z2Nat.id by lia. split; [lia | apply pow10_log2, Hn].
  - rewrite E, app_nil_r. auto.
Qed.

Lemma str_of_int_inj (a b : Z) :
  0 <= a -> 0 <= b -> str_of_int a = str_of_int b -> a = b.
Proof.
  intros Ha Hb E.
  destruct (str_of_int_spec a Ha) as (_ & _ & <-).
  destruct (str_of_int_spec b Hb) as (_ & _ & <-).
  rewrite E. reflexivity.
Qed.

End Decimal.

Section MockIds.

Variable py_lower : pystr -> pystr.
Variable py_title : pystr -> pystr.
Variable py_hash : pystr -> Z.

Lemma mock_id_inj (s s' : ProductSource) (i j : Z) (tail : pystr) :
  0 <= i -> 0 <= j ->
  str "mock_" ++ source_value s ++ str "_" ++ str_of_int i ++ tail
  = str "mock_" ++ source_value s' ++ str "_" ++ str_of_int j ++ tail ->
  i = j.
Proof.
  intros Hi Hj E. apply app_inv_head in E.
  assert (E' : str_of_int i ++ tail = str_of_int j ++ tail).
  { destruct s, s'; cbn in E; try discriminate E;
      repeat (injection E as E); exact E. }
  apply app_inv_tail in E'. apply str_of_int_inj; assumption.
Qed.

Lemma mock_loop_ids (query query_lower : pystr)
    (sources : list ProductSource) (limit : Z) (items : list MockItem) :
  forall (i : Z) (ps : list Product) (g : Rng),
    0 <= i ->
    List.Forall
      (fun p => exists (s : ProductSource) (j : Z),
         0 <= j < i /\
         id p = str "mock_" ++ source_value s ++ str "_" ++ str_of_int j
                ++ str "_" ++ str_of_int (py_hash query mod 10000)) ps ->
    NoDup (map id ps) ->
    NoDup (map id (mock_loop py_lower py_title py_hash query query_lower sources
                             limit items i ps g).1).
Proof.
  induction items as [| item items IH]; intros i ps g Hi Hps Hnd; [exact Hnd |].
  cbn [mock_loop].
  assert (W : List.Forall
      (fun p => exists (s : ProductSource) (j : Z),
         0 <= j < i + 1 /\
         id p = str "mock_" ++ source_value s ++ str "_" ++ str_of_int j
                ++ str "_" ++ str_of_int (py_hash query mod 10000)) ps).
  { eapply List.Forall_impl; [| exact Hps].
    intros p (s & j & B & E). exists s, j. split; [lia | exact E]. }
  destruct (existsb _ sources && (Z.of_nat (length ps) <? limit)).
  - destruct (uniform (-5) 5 g) as [v g'].
    apply IH; [lia | |].
    + apply List.Forall_app. split; [exact W |].
      constructor; [| constructor].
      exists (item_source item), i. split; [lia | reflexivity].
    + rewrite List.map_app. cbn [map].
      apply NoDup_app. split; [exact Hnd |].
      split; [| apply NoDup_singleton].
      intros x Hx Hx'. apply list_elem_of_singleton in Hx'. subst x.
      apply list_elem_of_In, List.in_map_iff in Hx as (p & Ep & Hp).
      rewrite List.Forall_forall in Hps.
      destruct (Hps p Hp) as (s & j & B & Ej).
      rewrite Ej in Ep. unfold mock_product in Ep. cbn [id] in Ep.
      apply mock_id_inj in Ep; lia.
  - apply IH; [lia | exact W | exact Hnd].
Qed.

End MockIds.

(** X12: the products of one call of [get_mock_products] have pairwise
    distinct ids (the ids key the review and sentiment maps of
    [compare_products]). *)
Theorem X12_mock_ids_distinct (py_lower py_title : pystr -> pystr)
    (py_hash : pystr -> Z) (query : pystr) (sources : list ProductSource)
    (limit : Z) (g : Rng) :
  NoDup (map id (get_mock_products py_lower py_title py_hash query sources limit g).1).
Proof.
  unfold get_mock_products. apply mock_loop_ids; [lia | constructor | constructor].
Qed.

(** ** Reading numbers: [parse_numeric_value] *)

Section StringFacts.

Lemma filter_all (f : Z -> bool) (s : pystr) :
  List.Forall (fun c => f c = true) s -> List.filter f s = s.
Proof.
  induction 1 as [| c s Hc _ IH]; cbn; [reflexivity |].
  rewrite Hc, IH. reflexivity.
Qed.

Lemma filter_idem (f : Z -> bool) (s : pystr) :
  List.filter f (List.filter f s) = List.filter f s.
Proof.
  apply filter_all, List.Forall_forall. intros c Hc.
  apply List.filter_In in Hc. apply Hc.
Qed.

Lemma count_app (c : Z) (a b : pystr) : count c (a ++ b) = count c a + count c b.
Proof.
  unfold count. rewrite List.filter_app, List.length_app. lia.
Qed.

Lemma count_cons (c x : Z) (s : pystr) :
  count c (x :: s) = (if x =? c then 1 else 0) + count c s.
Proof.
  unfold count. cbn [List.filter]. destruct (x =? c); cbn [length]; lia.
Qed.

Lemma count_none (c : Z) (s : pystr) :
  List.Forall (fun x => x <> c) s -> count c s = 0.
Proof.
  induction 1 as [| x s Hx _ IH]; [reflexivity |].
  rewrite count_cons, IH. destruct (Z.eqb_spec x c); [contradiction | reflexivity].
Qed.

Lemma count_nonneg (c : Z) (s : pystr) : 0 <= count c s.
Proof. unfold count. lia. Qed.

(** Replacing a one-character string. *)
Lemma replace1_cons (c x : Z) (new s : pystr) :
  replace [c] new (x :: s)
  = if c =? x then new ++ replace [c] new s else x :: replace [c] new s.
Proof.
  unfold replace. cbn [replace_from starts_with length Nat.sub].
  rewrite andb_true_r. reflexivity.
Qed.

Lemma replace1_app (c : Z) (new a b : pystr) :
  replace [c] new (a ++ b) = replace [c] new a ++ replace [c] new b.
Proof.
  induction a as [| x a IH]; [reflexivity |].
  rewrite <- app_comm_cons, !replace1_cons, IH.
  destruct (c =? x); [rewrite app_assoc |]; reflexivity.
Qed.

Lemma replace1_none (c : Z) (new s : pystr) :
  List.Forall (fun x => x <> c) s -> replace [c] new s = s.
Proof.
  induction 1 as [| x s Hx _ IH]; [reflexivity |].
  rewrite replace1_cons, IH.
  destruct (Z.eqb_spec c x); [congruence | reflexivity].
Qed.

Lemma replace1_delete (c : Z) (s : pystr) : replace [c] [] s = without c s.
Proof.
  unfold without. induction s as [| x s IH]; [reflexivity |].
  rewrite replace1_cons, IH. cbn [List.filter].
  rewrite (Z.eqb_sym x c). destruct (c =? x); reflexivity.
Qed.

Lemma split_on_none (c : Z) (s : pystr) :
  List.Forall (fun x => x <> c) s -> split_on c s = [s].
Proof.
  induction 1 as [| x s Hx _ IH]; [reflexivity |].
  cbn [split_on]. rewrite IH.
  destruct (Z.eqb_spec x c); [contradiction | reflexivity].
Qed.

Lemma split_on_one (c : Z) (a b : pystr) :
  List.Forall (fun x => x <> c) a -> List.Forall (fun x => x <> c) b ->
  split_on c (a ++ c :: b) = [a; b].
Proof.
  intros Ha Hb. induction Ha as [| x a Hx _ IH].
  - cbn [app split_on]. rewrite Z.eqb_refl, split_on_none by assumption.
    reflexivity.
  - rewrite <- app_comm_cons. cbn [split_on]. rewrite IH.
    destruct (Z.eqb_spec x c); [contradiction | reflexivity].
Qed.

Lemma rfind_from_app (c : Z) (a b : pystr) (i last : Z) :
  rfind_from c (a ++ b) i last
  = rfind_from c b (i + Z.of_nat (length a)) (rfind_from c a i last).
Proof.
  revert i last. induction a as [| x a IH]; intros i last.
  - cbn. rewrite Z.add_0_r. reflexivity.
  - cbn [app rfind_from length]. rewrite IH. f_equal. lia.
Qed.

Lemma rfind_from_none (c : Z) (s : pystr) (i last : Z) :
  List.Forall (fun x => x <> c) s -> rfind_from c s i last = last.
Proof.
  intros H. revert i last. induction H as [| x s Hx _ IH]; intros i last;
    [reflexivity |].
  cbn [rfind_from]. rewrite IH.
  destruct (Z.eqb_spec x c); [contradiction | reflexivity].
Qed.

Lemma rfind_from_bound (c : Z) (s : pystr) (i last : Z) :
  last < i -> rfind_from c s i last < i + Z.of_nat (length s).
Proof.
  revert i last. induction s as [| x s IH]; intros i last H.
  - cbn. lia.
  - cbn [rfind_from length].
    pose proof (IH (i + 1) (if x =? c then i else last)
                  ltac:(destruct (x =? c); lia)). lia.
Qed.

Lemma rfind_last (c : Z) (a b : pystr) :
  List.Forall (fun x => x <> c) b -> rfind c (a ++ c :: b) = Z.of_nat (length a).
Proof.
  intros Hb. unfold rfind. rewrite rfind_from_app. cbn [rfind_from].
  rewrite Z.eqb_refl, rfind_from_none by assumption. lia.
Qed.

Lemma rfind_before (c x : Z) (a b : pystr) :
  x <> c -> List.Forall (fun y => y <> c) b ->
  rfind c (a ++ x :: b) < Z.of_nat (length a).
Proof.
  intros Hx Hb. unfold rfind. rewrite rfind_from_app. cbn [rfind_from].
  destruct (Z.eqb_spec x c); [contradiction |].
  rewrite rfind_from_none by assumption.
  pose proof (rfind_from_bound c a 0 (-1) ltac:(lia)). lia.
Qed.

Lemma count_without (sep : Z) (s : pystr) :
  count sep s = 0 -> without sep s = s.
Proof.
  unfold count, without. induction s as [| x s IH]; [reflexivity |].
  cbn [List.filter]. destruct (x =? sep); cbn [negb length]; [lia |].
  intros H. rewrite IH by exact H. reflexivity.
Qed.

Lemma without_grouped (sep : Z) (s : pystr) :
  is_ascii_digit sep = false -> grouped sep s -> ascii_digits (without sep s).
Proof.
  intros Hs H. unfold without. induction H as [| c s Hc _ IH]; cbn; [constructor |].
  destruct (Z.eqb_spec c sep) as [-> | Hne]; cbn; [exact IH |].
  constructor; [| exact IH]. destruct Hc; [assumption | contradiction].
Qed.

Lemma without_digits (sep : Z) (s : pystr) :
  is_ascii_digit sep = false -> ascii_digits s -> without sep s = s.
Proof.
  intros Hs H. apply filter_all.
  eapply List.Forall_impl; [| exact H]. cbn. intros c Hc.
  destruct (Z.eqb_spec c sep) as [-> | _]; [congruence | reflexivity].
Qed.

Lemma grouped_not (sep x : Z) (s : pystr) :
  is_ascii_digit x = false -> x <> sep -> grouped sep s ->
  List.Forall (fun c => c <> x) s.
Proof.
  intros Hx Hne. apply List.Forall_impl. intros c [Hc | ->] E; congruence.
Qed.

Lemma digits_not (x : Z) (s : pystr) :
  is_ascii_digit x = false -> ascii_digits s -> List.Forall (fun c => c <> x) s.
Proof.
  intros Hx. apply List.Forall_impl. intros c Hc ->. congruence.
Qed.

Lemma digits_grouped (sep : Z) (s : pystr) : ascii_digits s -> grouped sep s.
Proof. apply List.Forall_impl. intros c Hc. left. exact Hc. Qed.

Lemma first_not_minus (s t : pystr) (x : Z) :
  List.Forall (fun c => c <> 45) s -> x <> 45 ->
  exists c r, s ++ x :: t = c :: r /\ c <> 45.
Proof.
  intros Hs Hx. destruct Hs as [| c s Hc _].
  - exists x, t. auto.
  - exists c, (s ++ x :: t). auto.
Qed.

End StringFacts.

Section ParseFacts.

Variable unicode_decimal : Z -> option Z.

Lemma digit_kept (c : Z) :
  is_ascii_digit c = true -> kept unicode_decimal c = true.
Proof.
  unfold is_ascii_digit, kept, is_decimal, decimal_value. intros ->. reflexivity.
Qed.

Lemma digit_value (c : Z) :
  is_ascii_digit c = true -> decimal_value unicode_decimal c = Some (c - 48).
Proof. unfold is_ascii_digit, decimal_value. intros ->. reflexivity. Qed.

Lemma digits_kept (s : pystr) :
  ascii_digits s -> List.Forall (fun c => kept unicode_decimal c = true) s.
Proof. apply List.Forall_impl. exact digit_kept. Qed.

Lemma grouped_kept (sep : Z) (s : pystr) :
  kept unicode_decimal sep = true -> grouped sep s ->
  List.Forall (fun c => kept unicode_decimal c = true) s.
Proof.
  intros Hs. apply List.Forall_impl. intros c [Hc | ->];
    [apply digit_kept, Hc | exact Hs].
Qed.

(** Reading a run of ASCII digits. *)
Lemma digits_run (s rest : pystr) (acc n : Z) :
  ascii_digits s ->
  digits unicode_decimal (s ++ rest) acc n
  = digits unicode_decimal rest (number_from s acc) (n + Z.of_nat (length s)).
Proof.
  intros H. revert acc n. induction H as [| c s Hc _ IH]; intros acc n.
  - cbn. rewrite Z.add_0_r. reflexivity.
  - cbn [app digits number_from length]. rewrite (digit_value c Hc), IH.
    f_equal. lia.
Qed.

Lemma digits_all (s : pystr) (acc n : Z) :
  ascii_digits s ->
  digits unicode_decimal s acc n
  = (number_from s acc, n + Z.of_nat (length s), []).
Proof.
  intros H. rewrite <- (app_nil_r s) at 1. rewrite digits_run by assumption.
  reflexivity.
Qed.

(** [float] of a run of digits, and of digits with a point. *)
Lemma py_float_int (s : pystr) :
  ascii_digits s -> s <> [] ->
  py_float unicode_decimal s = Some (of_int (number s)).
Proof.
  intros H Hne. unfold py_float.
  destruct s as [| c t]; [congruence |].
  assert (Hc : (c =? 45) = false).
  { inversion H; subst. unfold is_ascii_digit in *. lia. }
  rewrite Hc, digits_all by assumption.
  destruct (Z.ltb_spec 0 (0 + Z.of_nat (length (c :: t)))) as [_ | L];
    [reflexivity | cbn [length] in L; lia].
Qed.

Lemma py_float_point (ip fp : pystr) :
  ascii_digits ip -> ascii_digits fp -> ip ++ fp <> [] ->
  py_float unicode_decimal (ip ++ 46 :: fp)
  = Some (rnd (number (ip ++ fp) * unit) (10 ^ Z.of_nat (length fp))).
Proof.
  intros Hi Hf Hne. unfold py_float.
  assert (Hs : match ip ++ 46 :: fp with
               | c :: s' => if c =? 45 then (true, s') else (false, ip ++ 46 :: fp)
               | [] => (false, ip ++ 46 :: fp)
               end = (false, ip ++ 46 :: fp)).
  { destruct ip as [| c t]; [reflexivity |]. cbn.
    inversion Hi; subst. unfold is_ascii_digit in *.
    destruct (Z.eqb_spec c 45); [lia | reflexivity]. }
  rewrite Hs, digits_run by assumption.
  cbn [digits]. change (decimal_value unicode_decimal 46) with (@None Z).
  cbv iota. change (46 =? 46) with true. cbv iota.
  rewrite digits_all by assumption.
  change (number_from ip 0) with (number ip).
  replace (number_from fp (number ip)) with (number (ip ++ fp))
    by (unfold number; apply number_from_app).
  destruct (Z.ltb_spec 0 (0 + Z.of_nat (length ip) + (0 + Z.of_nat (length fp))))
    as [_ | L]; [reflexivity |].
  exfalso. apply Hne. destruct ip, fp; cbn [length] in L; try lia. reflexivity.
Qed.

Lemma to_float_plain (s : pystr) :
  to_float unicode_decimal false s = py_float unicode_decimal s.
Proof. unfold to_float. destruct (py_float unicode_decimal s); reflexivity. Qed.

Lemma to_float_negative (s : pystr) :
  to_float unicode_decimal true s = fneg <$> py_float unicode_decimal s.
Proof. unfold to_float. destruct (py_float unicode_decimal s); reflexivity. Qed.

(** On a text of kept characters [parse_numeric_value] is [float] of the
    text with its separators replaced. *)
Lemma parse_kept (c : Z) (t : pystr) :
  List.Forall (fun x => kept unicode_decimal x = true) (c :: t) -> c <> 45 ->
  parse_numeric_value unicode_decimal (c :: t)
  = py_float unicode_decimal (separated (c :: t)).
Proof.
  intros H Hc. unfold parse_numeric_value.
  change (fun c0 => is_decimal unicode_decimal c0 || (c0 =? 46) || (c0 =? 44) || (c0 =? 45))
    with (kept unicode_decimal).
  rewrite (filter_all (kept unicode_decimal) (c :: t) H). cbv zeta.
  change (str "-") with [45]. change (str ",") with [44]. change (str ".") with [46].
  cbn [starts_with lstrip_by].
  destruct (Z.eqb_spec 45 c) as [E | _]; [lia |].
  destruct (Z.eqb_spec c 45) as [E | _]; [lia |].
  cbn [andb]. unfold separated. cbv zeta.
  repeat match goal with
         | |- context [if ?b then _ else _] => destruct b
         end; apply to_float_plain.
Qed.

Lemma parse_minus (c : Z) (t : pystr) :
  List.Forall (fun x => kept unicode_decimal x = true) (c :: t) -> c <> 45 ->
  parse_numeric_value unicode_decimal (45 :: c :: t)
  = fneg <$> py_float unicode_decimal (separated (c :: t)).
Proof.
  intros H Hc. unfold parse_numeric_value.
  change (fun c0 => is_decimal unicode_decimal c0 || (c0 =? 46) || (c0 =? 44) || (c0 =? 45))
    with (kept unicode_decimal).
  assert (H' : List.Forall (fun x => kept unicode_decimal x = true) (45 :: c :: t)).
  { constructor; [| exact H]. unfold kept. rewrite orb_true_r. reflexivity. }
  rewrite (filter_all (kept unicode_decimal) _ H'). cbv zeta.
  change (str "-") with [45]. change (str ",") with [44]. change (str ".") with [46].
  cbn [starts_with lstrip_by]. change (45 =? 45) with true. cbv iota.
  destruct (Z.eqb_spec c 45) as [E | _]; [lia |].
  cbn [andb]. unfold separated. cbv zeta.
  repeat match goal with
         | |- context [if ?b then _ else _] => destruct b
         end; apply to_float_negative.
Qed.

Lemma parse_filter (s : pystr) :
  parse_numeric_value unicode_decimal s
  = parse_numeric_value unicode_decimal (List.filter (kept unicode_decimal) s).
Proof.
  unfold parse_numeric_value.
  change (fun c0 => is_decimal unicode_decimal c0 || (c0 =? 46) || (c0 =? 44) || (c0 =? 45))
    with (kept unicode_decimal).
  rewrite filter_idem.
  destruct s as [| c t]; [reflexivity |].
  destruct (List.filter (kept unicode_decimal) (c :: t)); reflexivity.
Qed.

Lemma parse_with_separator (a b : pystr) (sep : Z) :
  List.Forall (fun c => kept unicode_decimal c = true) a ->
  List.Forall (fun c => c <> 45) a ->
  kept unicode_decimal sep = true -> sep <> 45 ->
  List.Forall (fun c => kept unicode_decimal c = true) b ->
  parse_numeric_value unicode_decimal (a ++ sep :: b)
  = py_float unicode_decimal (separated (a ++ sep :: b)).
Proof.
  intros Ha Ha' Hs Hs' Hb.
  assert (K : List.Forall (fun c => kept unicode_decimal c = true) (a ++ sep :: b)).
  { apply List.Forall_app. split; [exact Ha | constructor; assumption]. }
  destruct (first_not_minus a b sep Ha' Hs') as (c & r & E & Hc).
  rewrite E in K |- *. apply parse_kept; assumption.
Qed.

(** The text [g ++ "." ++ f] with commas between the digits of [g]. *)
Lemma separated_point (g f : pystr) :
  grouped 44 g -> ascii_digits f ->
  separated (g ++ 46 :: f) = without 44 g ++ 46 :: f.
Proof.
  intros Hg Hf.
  pose proof (grouped_not 44 46 g eq_refl ltac:(lia) Hg) as G46.
  pose proof (digits_not 46 f eq_refl Hf) as F46.
  pose proof (digits_not 44 f eq_refl Hf) as F44.
  assert (Dc : count 46 (g ++ 46 :: f) = 1).
  { rewrite count_app, count_cons, (count_none 46 g), (count_none 46 f) by assumption.
    reflexivity. }
  assert (Cc : count 44 (g ++ 46 :: f) = count 44 g).
  { rewrite count_app, count_cons, (count_none 44 f) by assumption. cbn. lia. }
  assert (R : replace [44] [] (g ++ 46 :: f) = without 44 g ++ 46 :: f).
  { rewrite replace1_delete. unfold without.
    rewrite List.filter_app. cbn [List.filter]. change (negb (46 =? 44)) with true.
    cbv iota. fold (without 44 f). rewrite (without_digits 44 f eq_refl Hf).
    reflexivity. }
  unfold separated. cbv zeta. rewrite Dc, Cc.
  pose proof (count_nonneg 44 g) as N.
  destruct (Z.eqb_spec (count 44 g) 0) as [E0 | E0].
  - cbn. rewrite (count_without 44 g E0). reflexivity.
  - cbn [andb]. change (1 =? 0) with false. rewrite andb_false_r.
    change (1 <=? 1) with true. cbn [andb].
    destruct (Z.leb_spec 1 (count 44 g)); [| lia].
    rewrite (rfind_last 46 g f F46).
    pose proof (rfind_before 44 46 g f ltac:(lia) F44) as B.
    destruct (Z.ltb_spec (rfind 44 (g ++ 46 :: f)) (Z.of_nat (length g))); [| lia].
    exact R.
Qed.

(** The text [g ++ "," ++ f] with points between the digits of [g]. *)
Lemma separated_comma_last (g f : pystr) :
  grouped 46 g -> ascii_digits f -> 1 <= count 46 g ->
  separated (g ++ 44 :: f) = without 46 g ++ 46 :: f.
Proof.
  intros Hg Hf Hd.
  pose proof (grouped_not 46 44 g eq_refl ltac:(lia) Hg) as G44.
  pose proof (digits_not 46 f eq_refl Hf) as F46.
  pose proof (digits_not 44 f eq_refl Hf) as F44.
  assert (Cc : count 44 (g ++ 44 :: f) = 1).
  { rewrite count_app, count_cons, (count_none 44 g), (count_none 44 f) by assumption.
    reflexivity. }
  assert (Dc : count 46 (g ++ 44 :: f) = count 46 g).
  { rewrite count_app, count_cons, (count_none 46 f) by assumption. cbn. lia. }
  unfold separated. cbv zeta. rewrite Dc, Cc.
  change (1 =? 0) with false. cbn [andb]. change (1 =? 1) with true. cbn [andb].
  destruct (Z.eqb_spec (count 46 g) 0) as [E0 | _]; [lia |].
  destruct (Z.leb_spec 1 (count 46 g)); [| lia].
  change (1 <=? 1) with true. cbn [andb].
  rewrite (rfind_last 44 g f F44).
  pose proof (rfind_before 46 44 g f ltac:(lia) F46) as B.
  destruct (Z.ltb_spec (Z.of_nat (length g)) (rfind 46 (g ++ 44 :: f))); [lia |].
  rewrite replace1_delete. unfold without.
  rewrite List.filter_app. cbn [List.filter]. change (negb (44 =? 46)) with true.
  cbv iota. fold (without 46 f) (without 46 g).
  rewrite (without_digits 46 f eq_refl Hf).
  pose proof (without_grouped 46 g eq_refl Hg) as W.
  rewrite replace1_app, (replace1_none 44 [46] (without 46 g))
    by (apply (digits_not 44 _ eq_refl W)).
  rewrite replace1_cons. change (44 =? 44) with true. cbv iota.
  rewrite (replace1_none 44 [46] f) by assumption. reflexivity.
Qed.

(** A single comma and no point. *)
Lemma separated_comma (ip f : pystr) :
  ascii_digits ip -> ascii_digits f ->
  separated (ip ++ 44 :: f)
  = if Z.of_nat (length f) =? 2 then ip ++ 46 :: f else ip ++ f.
Proof.
  intros Hi Hf.
  pose proof (digits_not 46 ip eq_refl Hi) as I46.
  pose proof (digits_not 44 ip eq_refl Hi) as I44.
  pose proof (digits_not 46 f eq_refl Hf) as F46.
  pose proof (digits_not 44 f eq_refl Hf) as F44.
  assert (Cc : count 44 (ip ++ 44 :: f) = 1).
  { rewrite count_app, count_cons, (count_none 44 ip), (count_none 44 f) by assumption.
    reflexivity. }
  assert (Dc : count 46 (ip ++ 44 :: f) = 0).
  { rewrite count_app, count_cons, (count_none 46 ip), (count_none 46 f) by assumption.
    reflexivity. }
  unfold separated. cbv zeta. rewrite Dc, Cc. cbn [andb Z.eqb].
  rewrite (split_on_one 44 ip f I44 F44). cbn [nth].
  rewrite !replace1_app, !replace1_cons. change (44 =? 44) with true. cbv iota.
  rewrite !(replace1_none 44 _ ip), !(replace1_none 44 _ f) by assumption.
  reflexivity.
Qed.

(** A number with commas between its digits before the point. *)
Lemma parse_point (g fp : pystr) :
  grouped 44 g -> ascii_digits fp -> without 44 g ++ fp <> [] ->
  parse_numeric_value unicode_decimal (g ++ 46 :: fp)
  = Some (rnd (number (without 44 g ++ fp) * unit) (10 ^ Z.of_nat (length fp))).
Proof.
  intros Hg Hf Hne.
  rewrite parse_with_separator;
    [| apply (grouped_kept 44 g eq_refl Hg)
     | apply (grouped_not 44 45 g eq_refl ltac:(lia) Hg) | reflexivity
     | lia | apply digits_kept, Hf].
  rewrite separated_point by assumption.
  apply py_float_point; [apply without_grouped; [reflexivity | exact Hg] | |];
    assumption.
Qed.

End ParseFacts.

(** X13: [parse_numeric_value] ignores every character other than decimal
    digits, the point, the comma and the minus sign: a text and the text
    with those other characters removed give the same result. *)
Theorem X13_parse_ignores_other_characters (unicode_decimal : Z -> option Z)
    (s : pystr) :
  parse_numeric_value unicode_decimal s
  = parse_numeric_value unicode_decimal (List.filter (kept unicode_decimal) s).
Proof. apply parse_filter. Qed.

(** X14: a non-empty string of ASCII digits is read as the integer it
    denotes (as the float nearest to it). *)
Theorem X14_parse_integer (unicode_decimal : Z -> option Z) (ip : pystr) :
  ascii_digits ip -> ip <> [] ->
  parse_numeric_value unicode_decimal ip = Some (of_int (number ip)).
Proof.
  intros Hi Hne. destruct ip as [| c t]; [congruence |].
  assert (Hc : c <> 45).
  { inversion Hi; subst. unfold is_ascii_digit in *. lia. }
  rewrite parse_kept; [| apply digits_kept, Hi | exact Hc].
  assert (S : separated (c :: t) = c :: t).
  { unfold separated. cbv zeta.
    rewrite (count_none 44 _ (digits_not 44 _ eq_refl Hi)).
    rewrite (count_none 46 _ (digits_not 46 _ eq_refl Hi)). reflexivity. }
  rewrite S. apply py_float_int; [exact Hi | discriminate].
Qed.

Lemma X14_witness :
  ascii_digits (str "1299") /\ str "1299" <> [] /\
  parse_numeric_value ascii_only (str "1299") = Some (of_int (number (str "1299"))).
Proof.
  assert (H1 : ascii_digits (str "1299")) by (repeat constructor).
  assert (H2 : str "1299" <> []) by discriminate.
  exact (conj H1 (conj H2 (X14_parse_integer ascii_only (str "1299") H1 H2))).
Defined.

(** X15: digits, one comma, digits, and no point: when exactly two digits
    follow the comma it is read as the decimal point, otherwise it is
    dropped (so "99,50" is 99.5, "1,500" is 1500 and "1,5" is 15). *)
Theorem X15_parse_single_comma (unicode_decimal : Z -> option Z)
    (ip fp : pystr) :
  ascii_digits ip -> ascii_digits fp -> ip ++ fp <> [] ->
  parse_numeric_value unicode_decimal (ip ++ str "," ++ fp)
  = if Z.of_nat (length fp) =? 2
    then Some (rnd (number (ip ++ fp) * unit) 100)
    else Some (of_int (number (ip ++ fp))).
Proof.
  intros Hi Hf Hne. change (str ",") with [44]. cbn [app].
  rewrite parse_with_separator;
    [| apply digits_kept, Hi | apply (digits_not 45 _ eq_refl Hi) | reflexivity
     | lia | apply digits_kept, Hf].
  rewrite separated_comma by assumption.
  destruct (Z.eqb_spec (Z.of_nat (length fp)) 2) as [E | _].
  - rewrite py_float_point by assumption. rewrite E. reflexivity.
  - apply py_float_int; [apply ascii_digits_app; assumption | exact Hne].
Qed.

Lemma X15_witness :
  ascii_digits (str "1") /\ ascii_digits (str "5") /\ str "1" ++ str "5" <> [] /\
  parse_numeric_value ascii_only (str "1" ++ str "," ++ str "5")
  = Some (of_int 15).
Proof.
  assert (H1 : ascii_digits (str "1")) by (repeat constructor).
  assert (H2 : ascii_digits (str "5")) by (repeat constructor).
  assert (H3 : str "1" ++ str "5" <> []) by discriminate.
  refine (conj H1 (conj H2 (conj H3 _))).
  exact (X15_parse_single_comma ascii_only (str "1") (str "5") H1 H2 H3).
Defined.

(** X16: digits with commas anywhere among them, a point, and digits: the
    commas are dropped and the point is the decimal point ("1,299.99" is
    1299.99); without a comma this is the plain decimal notation. *)
Theorem X16_parse_point_after_commas (unicode_decimal : Z -> option Z)
    (g fp : pystr) :
  grouped 44 g -> ascii_digits fp -> without 44 g ++ fp <> [] ->
  parse_numeric_value unicode_decimal (g ++ str "." ++ fp)
  = Some (rnd (number (without 44 g ++ fp) * unit) (10 ^ Z.of_nat (length fp))).
Proof.
  intros Hg Hf Hne. change (str ".") with [46]. cbn [app].
  apply parse_point; assumption.
Qed.

Lemma X16_witness :
  grouped 44 (str "1,299") /\ ascii_digits (str "99") /\
  without 44 (str "1,299") ++ str "99" <> [] /\
  parse_numeric_value ascii_only (str "1,299" ++ str "." ++ str "99")
  = Some (dec 129999 2).
Proof.
  assert (H1 : grouped 44 (str "1,299")).
  { repeat (constructor; [first [left; reflexivity | right; reflexivity] |]).
    constructor. }
  assert (H2 : ascii_digits (str "99")) by (repeat constructor).
  assert (H3 : without 44 (str "1,299") ++ str "99" <> []) by discriminate.
  refine (conj H1 (conj H2 (conj H3 _))).
  exact (X16_parse_point_after_commas ascii_only (str "1,299") (str "99") H1 H2 H3).
Defined.

(** X17: digits with at least one point among them, a comma, and digits:
    the points are dropped and the comma is the decimal point ("1.299,99"
    is 1299.99). *)
Theorem X17_parse_comma_after_points (unicode_decimal : Z -> option Z)
    (g fp : pystr) :
  grouped 46 g -> 1 <= count 46 g -> ascii_digits fp ->
  without 46 g ++ fp <> [] ->
  parse_numeric_value unicode_decimal (g ++ str "," ++ fp)
  = Some (rnd (number (without 46 g ++ fp) * unit) (10 ^ Z.of_nat (length fp))).
Proof.
  intros Hg Hd Hf Hne. change (str ",") with [44]. cbn [app].
  rewrite parse_with_separator;
    [| apply (grouped_kept unicode_decimal 46 g eq_refl Hg)
     | apply (grouped_not 46 45 g eq_refl ltac:(lia) Hg) | reflexivity
     | lia | apply digits_kept, Hf].
  rewrite separated_comma_last by assumption.
  apply py_float_point; [apply without_grouped; [reflexivity | exact Hg] | |];
    assumption.
Qed.

Lemma X17_witness :
  grouped 46 (str "1.299") /\ 1 <= count 46 (str "1.299") /\
  ascii_digits (str "99") /\ without 46 (str "1.299") ++ str "99" <> [] /\
  parse_numeric_value ascii_only (str "1.299" ++ str "," ++ str "99")
  = Some (dec 129999 2).
Proof.
  assert (H1 : grouped 46 (str "1.299")).
  { repeat (constructor; [first [left; reflexivity | right; reflexivity] |]).
    constructor. }
  assert (H2 : 1 <= count 46 (str "1.299")) by (vm_compute; discriminate).
  assert (H3 : ascii_digits (str "99")) by (repeat constructor).
  assert (H4 : without 46 (str "1.299") ++ str "99" <> []) by discriminate.
  refine (conj H1 (conj H2 (conj H3 (conj H4 _)))).
  exact (X17_parse_comma_after_points ascii_only (str "1.299") (str "99")
           H1 H2 H3 H4).
Defined.

(** X18: a minus sign in front of a text that starts with a digit, a point
    or a comma negates the number read from that text (and keeps a
    failure). *)
Theorem X18_parse_minus_sign (unicode_decimal : Z -> option Z)
    (c : Z) (t : pystr) :
  kept unicode_decimal c = true -> c <> 45 ->
  parse_numeric_value unicode_decimal (str "-" ++ c :: t)
  = fneg <$> parse_numeric_value unicode_decimal (c :: t).
Proof.
  intros Hk Hc. change (str "-") with [45]. cbn [app].
  rewrite (parse_filter unicode_decimal (45 :: c :: t)).
  rewrite (parse_filter unicode_decimal (c :: t)).
  cbn [List.filter]. rewrite Hk.
  change (kept unicode_decimal 45) with
    (is_decimal unicode_decimal 45 || false || false || true).
  rewrite orb_true_r.
  assert (K : List.Forall (fun x => kept unicode_decimal x = true)
                (c :: List.filter (kept unicode_decimal) t)).
  { constructor; [exact Hk |]. apply List.Forall_forall. intros x Hx.
    apply List.filter_In in Hx. apply Hx. }
  rewrite parse_minus, parse_kept by assumption. reflexivity.
Qed.

Lemma X18_witness :
  kept ascii_only 53 = true /\ 53 <> 45 /\
  parse_numeric_value ascii_only (str "-" ++ 53 :: str ".25")
  = fneg <$> parse_numeric_value ascii_only (53 :: str ".25").
Proof.
  assert (H1 : kept ascii_only 53 = true) by reflexivity.
  assert (H2 : 53 <> 45) by discriminate.
  exact (conj H1 (conj H2 (X18_parse_minus_sign ascii_only 53 (str ".25") H1 H2))).
Defined.

(** ** [normalize_price]: totality, canonical prices, and the way back from
    [format_price] *)

Section Total.

Variable unicode_decimal : Z -> option Z.

Lemma rate_positive (d : list (pystr * float)) (key : pystr) (default : float) :
  List.Forall (fun kv : pystr * float => exists r, kv.2 = Fin r /\ 0 < r) d ->
  (exists r, default = Fin r /\ 0 < r) ->
  exists r, dict_get d key default = Fin r /\ 0 < r.
Proof.
  intros H Hd. induction H as [| [k v] d Hv _ IH]; cbn [dict_get]; [exact Hd |].
  destruct (str_eqb k key); [exact Hv | exact IH].
Qed.

Lemma rates_positive :
  List.Forall (fun kv : pystr * float => exists r, kv.2 = Fin r /\ 0 < r)
              EXCHANGE_RATES_TO_USD /\
  exists r, dec 10 1 = Fin r /\ 0 < r.
Proof.
  assert (P : forall x, (exists r, x = Fin r /\ (0 <? r) = true) ->
                        exists r, x = Fin r /\ 0 < r).
  { intros x (r & E & H). exists r. split; [exact E | apply Z.ltb_lt, H]. }
  split.
  - unfold EXCHANGE_RATES_TO_USD.
    repeat (constructor; [apply P; eexists; split; vm_compute; reflexivity |]).
    constructor.
  - apply P. eexists. split; vm_compute; reflexivity.
Qed.

Lemma normalize_price_total (text target : pystr) :
  exists amount : option float,
    normalize_price unicode_decimal text target
    = Some (amount, (detect_currency text).1).
Proof.
  unfold normalize_price.
  destruct text as [| c t] eqn:Es; [exists None; vm_compute; reflexivity |].
  rewrite <- Es. destruct (detect_currency text) as [code cleaned]. cbn [fst].
  destruct (parse_numeric_value unicode_decimal cleaned) as [value |]; [| eauto].
  destruct (negb (str_eqb code target)); [| cbn; eauto].
  destruct rates_positive as [T D].
  destruct (rate_positive EXCHANGE_RATES_TO_USD target (dec 10 1) T D)
    as (r & -> & Hr).
  destruct (fdiv_some (fmul value (dict_get EXCHANGE_RATES_TO_USD code (dec 10 1)))
              (Fin r)) as [q ->]; [intros [= ->]; lia |].
  cbn. eauto.
Qed.

End Total.

(** X19: [normalize_price] never raises, whatever the text and the target
    currency (every exchange rate, the default 1.0 included, is positive,
    so the division by the target rate is defined), and the currency it
    returns is the one that [detect_currency] finds in the text. *)
Theorem X19_normalize_price_total (unicode_decimal : Z -> option Z)
    (text target : pystr) :
  exists amount : option float,
    normalize_price unicode_decimal text target
    = Some (amount, (detect_currency text).1).
Proof. apply normalize_price_total. Qed.

Section Cleaning.

Lemma ci_low (p c : Z) :
  ascii_is_alpha p = true -> c < 65 -> re_ignorecase_eq p c = false.
Proof.
  unfold ascii_is_alpha, re_ignorecase_eq, ascii_lower. intros Hp Hc.
  destruct ((65 <=? p) && (p <=? 90)) eqn:Up;
    destruct ((65 <=? c) && (c <=? 90)) eqn:Uc; lia.
Qed.

Lemma match_alt_low (alts : list pystr) (s : pystr) :
  List.Forall starts_alpha alts -> starts_low s -> match_alt_ci alts s = None.
Proof.
  intros Ha Hs. induction Ha as [| alt alts Halt _ IH]; [reflexivity |].
  cbn [match_alt_ci].
  destruct alt as [| p pat]; [contradiction |].
  destruct s as [| c s]; [exact IH |].
  cbn [match_ci]. rewrite (ci_low p c Halt Hs). exact IH.
Qed.

Lemma lstrip_none (f : Z -> bool) (s : pystr) :
  List.Forall (fun c => f c = false) s -> lstrip_by f s = s.
Proof. intros [| c t Hc _]; cbn; [| rewrite Hc]; reflexivity. Qed.

Lemma strip_none (s : pystr) :
  List.Forall (fun c => is_space c = false) s -> strip s = s.
Proof.
  intros H. unfold strip, rstrip_by.
  rewrite (lstrip_none is_space s H).
  rewrite lstrip_none by (apply List.Forall_rev, H).
  apply rev_involutive.
Qed.

Lemma split_ws_word (s cur : pystr) :
  List.Forall (fun c => is_space c = false) s -> rev cur ++ s <> [] ->
  split_ws s cur = [rev cur ++ s].
Proof.
  intros H. revert cur. induction H as [| c s Hc _ IH]; intros cur Hne.
  - rewrite app_nil_r in *. cbn. destruct cur; [cbn in Hne; congruence | reflexivity].
  - cbn [split_ws]. rewrite Hc, IH.
    + cbn [rev]. rewrite <- app_assoc. reflexivity.
    + cbn [rev]. rewrite <- app_assoc. cbn. destruct (rev cur); discriminate.
Qed.

Lemma prefix_alts :
  List.Forall starts_alpha [str "from"; str "starting at"; str "price:"; str "now"].
Proof. repeat (constructor; [vm_compute; reflexivity |]). constructor. Qed.

Lemma suffix_alts :
  List.Forall starts_alpha (map (@rev Z) [str "per unit"; str "each"; str "/ea"]).
Proof. cbn [map]. repeat (constructor; [vm_compute; reflexivity |]). constructor. Qed.

Lemma iso_alts : List.Forall starts_alpha iso_codes.
Proof.
  unfold iso_codes. repeat (constructor; [vm_compute; reflexivity |]). constructor.
Qed.

Lemma starts_low_rev (s : pystr) :
  List.Forall (fun c => c < 65) s -> starts_low (rev s).
Proof.
  intros H. apply List.Forall_rev in H. destruct H; [exact I | assumption].
Qed.

(** A text of characters from ['!'] to ['@'] (digits and punctuation) is
    left as it is by [clean_price_string]. *)
Lemma clean_low (s : pystr) :
  List.Forall (fun c => 33 <= c <= 64) s -> clean_price_string s = s.
Proof.
  intros H. unfold clean_price_string.
  destruct s as [| c t] eqn:Es; [reflexivity |]. rewrite <- Es in *.
  assert (Sp : List.Forall (fun c => is_space c = false) s).
  { eapply List.Forall_impl; [| exact H]. cbn. intros x Hx.
    unfold is_space. lia. }
  assert (Lo : List.Forall (fun c => c < 65) s).
  { eapply List.Forall_impl; [| exact H]. cbn. intros x Hx. lia. }
  rewrite (strip_none s Sp).
  unfold sub_prefix_ci. rewrite (match_alt_low _ s prefix_alts)
    by (rewrite Es in Lo |- *; inversion Lo; subst; cbn; lia).
  unfold sub_suffix_ci. rewrite (match_alt_low _ (rev s) suffix_alts)
    by (apply starts_low_rev, Lo).
  rewrite (split_ws_word s [] Sp) by (rewrite Es; discriminate).
  reflexivity.
Qed.

Lemma contains_head (p : Z) (pat s : pystr) :
  List.Forall (fun c => c <> p) s -> contains (p :: pat) s = false.
Proof.
  induction 1 as [| c s Hc _ IH]; [reflexivity |].
  cbn [contains starts_with]. rewrite IH.
  destruct (Z.eqb_spec p c); [congruence | reflexivity].
Qed.

Lemma detect_symbol_none (symbols : list (pystr * pystr)) (s : pystr) :
  List.Forall (fun kv : pystr * pystr =>
                 match kv.1 with
                 | p :: _ => numeric p = false
                 | [] => False
                 end) symbols ->
  List.Forall (fun c => numeric c = true) s ->
  detect_symbol symbols s = None.
Proof.
  intros Hsym Hs. induction Hsym as [| [sym code] symbols Hk _ IH]; [reflexivity |].
  cbn [detect_symbol]. cbn [fst] in Hk.
  destruct sym as [| p pat]; [contradiction |].
  rewrite contains_head; [exact IH |].
  eapply List.Forall_impl; [| exact Hs]. cbn. intros c Hc ->. congruence.
Qed.

Lemma symbols_not_numeric :
  List.Forall (fun kv : pystr * pystr =>
                 match kv.1 with
                 | p :: _ => numeric p = false
                 | [] => False
                 end) CURRENCY_SYMBOLS.
Proof.
  unfold CURRENCY_SYMBOLS. repeat (constructor; [vm_compute; reflexivity |]).
  constructor.
Qed.

Lemma numeric_low (s : pystr) :
  List.Forall (fun c => numeric c = true) s ->
  List.Forall (fun c => 33 <= c <= 64) s.
Proof.
  apply List.Forall_impl. intros c. unfold numeric, is_ascii_digit. lia.
Qed.

Lemma digits_numeric (s : pystr) :
  ascii_digits s -> List.Forall (fun c => numeric c = true) s.
Proof.
  apply List.Forall_impl. intros c Hc. unfold numeric. rewrite Hc. reflexivity.
Qed.

(** In a text that consists of a number only, no currency is found: the
    default is US dollars and the text is left as it is. *)
Lemma detect_currency_numeric (s : pystr) :
  List.Forall (fun c => numeric c = true) s ->
  detect_currency s = (str "USD", s).
Proof.
  intros H. unfold detect_currency.
  pose proof (numeric_low s H) as Lo.
  rewrite (clean_low s Lo), (detect_symbol_none _ s symbols_not_numeric H).
  rewrite (match_alt_low _ s iso_alts); [reflexivity |].
  destruct Lo; cbn; [exact I | lia].
Qed.

(** A dollar sign in front of a number is found and removed. *)
Lemma detect_currency_dollar (s : pystr) :
  List.Forall (fun c => numeric c = true) s ->
  detect_currency (36 :: s) = (str "USD", s).
Proof.
  intros H. unfold detect_currency.
  pose proof (numeric_low s H) as Lo.
  rewrite (clean_low (36 :: s)) by (constructor; [lia | exact Lo]).
  change CURRENCY_SYMBOLS with ((str "$", str "USD") :: tl CURRENCY_SYMBOLS).
  cbn [detect_symbol]. change (str "$") with [36].
  cbn [contains starts_with]. change (36 =? 36) with true. cbn [andb orb].
  rewrite replace1_cons. change (36 =? 36) with true. cbv iota. cbn [app].
  rewrite replace1_none.
  - rewrite strip_none; [reflexivity |].
    eapply List.Forall_impl; [| exact Lo]. cbn. intros x Hx. unfold is_space. lia.
  - eapply List.Forall_impl; [| exact H]. cbn. intros c Hc ->. discriminate Hc.
Qed.

End Cleaning.

(** X20: a canonical price text (ASCII digits, a point, two digits, below
    [2^52] cents) is normalised to exactly the float that Python reads
    from it, in US dollars: rounding to two decimals does not move it. *)
Theorem X20_normalize_canonical (unicode_decimal : Z -> option Z)
    (ip fp : pystr) :
  ascii_digits ip -> ascii_digits fp -> length fp = 2%nat ->
  number (ip ++ fp) < 2 ^ 52 ->
  normalize_price unicode_decimal (ip ++ str "." ++ fp) (str "USD")
  = Some (Some (dec (number (ip ++ fp)) 2), str "USD").
Proof.
  intros Hi Hf Hl Hn. change (str ".") with [46]. cbn [app].
  assert (Num : List.Forall (fun c => numeric c = true) (ip ++ 46 :: fp)).
  { apply List.Forall_app. split; [apply digits_numeric, Hi |].
    constructor; [reflexivity | apply digits_numeric, Hf]. }
  assert (Hne : without 44 ip ++ fp <> []).
  { destruct fp; [discriminate Hl |]. destruct (without 44 ip); discriminate. }
  pose proof (parse_point unicode_decimal ip fp (digits_grouped 44 ip Hi) Hf Hne) as P.
  rewrite (without_digits 44 ip eq_refl Hi) in P.
  unfold normalize_price.
  destruct (ip ++ 46 :: fp) as [| c t] eqn:Es; [destruct ip; discriminate Es |].
  rewrite <- Es in *.
  rewrite (detect_currency_numeric _ Num), P.
  change (negb (str_eqb (str "USD") (str "USD"))) with false. cbv iota.
  cbn [mbind option_bind]. rewrite Hl. change (Z.of_nat 2) with 2.
  fold (dec (number (ip ++ fp)) 2).
  rewrite round2_cents; [reflexivity |].
  split; [apply number_nonneg, ascii_digits_app; assumption | exact Hn].
Qed.

Lemma X20_witness :
  ascii_digits (str "29") /\ ascii_digits (str "99") /\
  length (str "99") = 2%nat /\ number (str "29" ++ str "99") < 2 ^ 52 /\
  normalize_price ascii_only (str "29" ++ str "." ++ str "99") (str "USD")
  = Some (Some (dec 2999 2), str "USD").
Proof.
  assert (H1 : ascii_digits (str "29")) by (repeat constructor).
  assert (H2 : ascii_digits (str "99")) by (repeat constructor).
  assert (H3 : length (str "99") = 2%nat) by reflexivity.
  assert (H4 : number (str "29" ++ str "99") < 2 ^ 52) by reflexivity.
  refine (conj H1 (conj H2 (conj H3 (conj H4 _)))).
  exact (X20_normalize_canonical ascii_only (str "29") (str "99") H1 H2 H3 H4).
Defined.

Section Grouping.

Lemma group3_step (a b c d : Z) (r : pystr) :
  group3 (a :: b :: c :: d :: r) = a :: b :: c :: 44 :: group3 (d :: r).
Proof. reflexivity. Qed.

Lemma group3_spec (n : nat) :
  forall r : pystr,
    (length r <= n)%nat -> ascii_digits r ->
    grouped 44 (group3 r) /\ without 44 (group3 r) = r.
Proof.
  induction n as [| n IH]; intros r Hl Hr.
  - destruct r; [| cbn in Hl; lia]. split; [constructor | reflexivity].
  - assert (Base : grouped 44 r /\ without 44 r = r).
    { split; [apply digits_grouped, Hr |].
      apply without_digits; [reflexivity | exact Hr]. }
    destruct r as [| a [| b [| c [| d r']]]]; try exact Base.
    rewrite group3_step.
    inversion Hr as [| ? ? Ha Hr1]; subst.
    inversion Hr1 as [| ? ? Hb Hr2]; subst.
    inversion Hr2 as [| ? ? Hc Hr3]; subst.
    destruct (IH (d :: r')) as [G W]; [cbn [length] in *; lia | exact Hr3 |].
    split.
    + repeat (constructor; [auto |]). exact G.
    + unfold without in *. cbn [List.filter].
      assert (Nc : forall x, is_ascii_digit x = true -> negb (x =? 44) = true).
      { intros x Hx. unfold is_ascii_digit in Hx.
        destruct (Z.eqb_spec x 44); [lia | reflexivity]. }
      rewrite (Nc a Ha), (Nc b Hb), (Nc c Hc).
      change (negb (44 =? 44)) with false. cbv iota.
      rewrite W. reflexivity.
Qed.

(** Grouping the digits by commas adds commas only. *)
Lemma with_commas_spec (ds : pystr) :
  ascii_digits ds ->
  grouped 44 (with_commas ds) /\ without 44 (with_commas ds) = ds.
Proof.
  intros H. unfold with_commas.
  destruct (group3_spec (length (rev ds)) (rev ds) ltac:(lia)
              (List.Forall_rev H)) as [G W].
  split; [apply List.Forall_rev, G |].
  unfold without in *. rewrite List.filter_rev, W. apply rev_involutive.
Qed.

Lemma dollar_symbol :
  dict_get_str (fold_left (fun d kv => dict_set d kv.2 kv.1) CURRENCY_SYMBOLS [])
               (str "USD") (str "USD" ++ str " ") = [36] /\
  existsb (fun c => str_eqb (str "USD") c) [str "JPY"; str "KRW"] = false.
Proof. split; vm_compute; reflexivity. Qed.

Lemma two_digits (r : Z) :
  0 <= r < 100 ->
  ascii_digits [48 + r / 10; 48 + r mod 10] /\
  number [48 + r / 10; 48 + r mod 10] = r.
Proof.
  intros Hr.
  pose proof (Z.mod_pos_bound r 10 ltac:(lia)) as M.
  pose proof (Z.div_mod r 10 ltac:(lia)) as E.
  assert (0 <= r / 10 < 10)
    by (split; [apply Z.div_pos; lia | apply Z.div_lt_upper_bound; lia]).
  split.
  - repeat constructor; unfold is_ascii_digit; lia.
  - unfold number. cbn. lia.
Qed.

End Grouping.

(** What [format_price] writes, as Python does. *)
Example format_price_values :
  format_price (dec 12345 1) (str "USD") = Some (str "$1,234.50") /\
  format_price (dec 1234567891 3) (str "EUR") = Some (str "€1,234,567.89") /\
  format_price (dec 12345 1) (str "JPY") = Some (str "¥1,234") /\
  format_price (dec (-12345) 1) (str "KRW") = Some (str "₩-1,234") /\
  format_price (of_int 12) (str "XYZ") = Some (str "XYZ 12.00") /\
  format_price (dec 999995 3) (str "USD") = Some (str "$1,000.00") /\
  format_price (dec 125 3) (str "GBP") = Some (str "£0.12") /\
  format_price PInf (str "USD") = Some (str "$inf") /\
  format_price PInf (str "JPY") = None.
Proof.
  split; [vm_compute; reflexivity |].
  split; [vm_compute; reflexivity |].
  split; [vm_compute; reflexivity |].
  split; [vm_compute; reflexivity |].
  split; [vm_compute; reflexivity |].
  split; [vm_compute; reflexivity |].
  split; [vm_compute; reflexivity |].
  split; vm_compute; reflexivity.
Qed.

(** X21: formatting a price of [k] cents ([0 <= k < 2^52]) in US dollars
    and normalising the text gives the price back: [format_price] writes
    "$", the digits with commas, a point and two digits, and
    [normalize_price] reads exactly the same float from it. *)
Theorem X21_format_normalize_round_trip (unicode_decimal : Z -> option Z)
    (k : Z) :
  0 <= k < 2 ^ 52 ->
  exists text : pystr,
    format_price (dec k 2) (str "USD") = Some text /\
    normalize_price unicode_decimal text (str "USD")
    = Some (Some (dec k 2), str "USD").
Proof.
  intros Hk. destruct (round_cents k Hk) as (x & Ex & Px & Rx).
  destruct dollar_symbol as [Sy Br].
  assert (Ed : dec k 2 = Fin x) by (unfold dec; change (10 ^ 2) with 100; exact Ex).
  unfold format_price. cbv zeta. rewrite Sy, Br, Ed.
  cbn [mbind option_bind format_fixed2_grouped].
  rewrite Z.abs_eq, Rx by exact Px.
  destruct (Z.ltb_spec x 0) as [L | _]; [lia |]. cbn [app].
  eexists. split; [reflexivity |].
  pose proof (Z.mod_pos_bound k 100 ltac:(lia)) as M.
  pose proof (Z.div_mod k 100 ltac:(lia)) as E.
  assert (Q : 0 <= k / 100) by (apply Z.div_pos; lia).
  destruct (str_of_int_spec (k / 100) Q) as (Di & Ni & Vi).
  destruct (with_commas_spec _ Di) as [G W].
  replace (k mod 10) with (k mod 100 mod 10)
    by (apply Z.mod_mod_divide; exists 10; reflexivity).
  destruct (two_digits (k mod 100) M) as [Df Vf].
  set (fp := [48 + k mod 100 / 10; 48 + k mod 100 mod 10]) in *.
  set (g := with_commas (str_of_int (k / 100))) in *.
  assert (Num : List.Forall (fun c => numeric c = true) (g ++ 46 :: fp)).
  { apply List.Forall_app. split.
    - eapply List.Forall_impl; [| exact G]. cbn. intros c [Hc | ->];
        [unfold numeric; rewrite Hc |]; reflexivity.
    - constructor; [reflexivity | apply digits_numeric, Df]. }
  unfold normalize_price.
  rewrite (detect_currency_dollar _ Num).
  assert (P : parse_numeric_value unicode_decimal (g ++ 46 :: fp)
              = Some (rnd (k * unit) 100)).
  { rewrite parse_point; [| exact G | exact Df |].
    - rewrite W.
      assert (Nk : number (str_of_int (k / 100) ++ fp) = k).
      { unfold number. rewrite number_from_app.
        fold (number (str_of_int (k / 100))).
        rewrite Vi, number_from_acc, Vf. subst fp. cbn [length].
        change (10 ^ Z.of_nat 2) with 100. lia. }
      rewrite Nk. reflexivity.
    - rewrite W. destruct (str_of_int (k / 100)); [congruence | discriminate]. }
  rewrite P, Ex.
  change (negb (str_eqb (str "USD") (str "USD"))) with false. cbv iota.
  cbn [mbind option_bind round2]. rewrite Rx, Ex. reflexivity.
Qed.

Lemma X21_witness :
  0 <= 129999 < 2 ^ 52 /\
  exists text : pystr,
    format_price (dec 129999 2) (str "USD") = Some text /\
    normalize_price ascii_only text (str "USD")
    = Some (Some (dec 129999 2), str "USD").
Proof.
  assert (H : 0 <= 129999 < 2 ^ 52) by (split; [discriminate | reflexivity]).
  exact (conj H (X21_format_normalize_round_trip ascii_only 129999 H)).
Defined.

(** ** Price ranges *)

Section Ranges.

Variable unicode_decimal : Z -> option Z.

Lemma dash_separator_solid (t : pystr) :
  List.Forall solid t -> dash_separator t = None.
Proof.
  intros [| c r [Hs Hd] _]; [reflexivity |].
  unfold dash_separator. cbn [lstrip_by]. rewrite Hs, Hd. reflexivity.
Qed.

Lemma word_separator_solid (word t : pystr) :
  List.Forall solid t -> word_separator word t = None.
Proof.
  intros [| c r [Hs Hd] _]; [reflexivity |].
  unfold word_separator. rewrite Hs. reflexivity.
Qed.

Lemma range_match_cons (separator : pystr -> option pystr) (g1 s : pystr)
    (c : Z) :
  range_match separator g1 (c :: s)
  = if c =? 10 then None
    else match separator s with
         | Some g2 => Some (rev (c :: g1), g2)
         | None => range_match separator (c :: g1) s
         end.
Proof. reflexivity. Qed.

Lemma range_match_none (separator : pystr -> option pystr) (s : pystr) :
  (forall t, List.Forall solid t -> separator t = None) ->
  List.Forall solid s -> forall g1, range_match separator g1 s = None.
Proof.
  intros Hsep H. induction H as [| c s Hc Hs IH]; intros g1; [reflexivity |].
  rewrite range_match_cons, (Hsep s Hs), IH.
  destruct (c =? 10); reflexivity.
Qed.

(** No pattern matches when nothing after the first character is
    whitespace or a dash. *)
Lemma first_range_solid (x : Z) (s : pystr) :
  List.Forall solid s -> first_range range_patterns (x :: s) = None.
Proof.
  intros H. unfold range_patterns. cbn [first_range].
  rewrite !range_match_cons.
  rewrite (dash_separator_solid s H).
  rewrite (word_separator_solid (str "to") s H).
  rewrite (word_separator_solid (str "~") s H).
  rewrite (range_match_none dash_separator s dash_separator_solid H).
  rewrite (range_match_none _ s (word_separator_solid (str "to")) H).
  rewrite (range_match_none _ s (word_separator_solid (str "~")) H).
  destruct (x =? 10); reflexivity.
Qed.

Lemma space_not_dash (c : Z) : is_space c = true -> is_dash c = false.
Proof. unfold is_space, is_dash. lia. Qed.

Lemma newline_space (c : Z) : is_space c = false -> (c =? 10) = false.
Proof. unfold is_space. lia. Qed.

Lemma lstrip_spaces (ws t : pystr) :
  List.Forall (fun c => is_space c = true) ws ->
  lstrip_by is_space (ws ++ t) = lstrip_by is_space t.
Proof.
  induction 1 as [| c ws Hc _ IH]; [reflexivity |].
  cbn [app lstrip_by]. rewrite Hc. exact IH.
Qed.

Lemma line_all (s : pystr) :
  List.Forall (fun c => c <> 10) s -> line s = s.
Proof.
  induction 1 as [| c s Hc _ IH]; [reflexivity |].
  cbn [line]. rewrite IH. destruct (Z.eqb_spec c 10); [contradiction | reflexivity].
Qed.

Lemma tail_group_spaces (ws : pystr) (c : Z) (b : pystr) :
  List.Forall (fun x => is_space x = true) ws -> is_space c = false ->
  tail_group (ws ++ c :: b) = Some (line (c :: b)).
Proof.
  intros H Hc. induction H as [| x ws Hx _ IH].
  - cbn [app tail_group]. rewrite Hc. reflexivity.
  - cbn [app tail_group]. rewrite Hx, IH. reflexivity.
Qed.

Lemma range_match_dash (a ws1 ws2 b : pystr) (d c : Z) :
  List.Forall solid a ->
  List.Forall (fun x => is_space x = true) ws1 -> is_dash d = true ->
  List.Forall (fun x => is_space x = true) ws2 ->
  is_space c = false -> List.Forall (fun x => x <> 10) b ->
  forall (x : Z) (g1 : pystr),
    solid x ->
    range_match dash_separator g1 (x :: a ++ ws1 ++ d :: ws2 ++ c :: b)
    = Some (rev g1 ++ x :: a, c :: b).
Proof.
  intros Ha H1 Hd H2 Hc Hb.
  assert (Sep : dash_separator (ws1 ++ d :: ws2 ++ c :: b) = Some (c :: b)).
  { unfold dash_separator. rewrite (lstrip_spaces ws1 _ H1).
    assert (Sd : is_space d = false).
    { destruct (is_space d) eqn:E; [| reflexivity].
      apply space_not_dash in E. congruence. }
    cbn [lstrip_by]. rewrite Sd, Hd, (tail_group_spaces ws2 c b H2 Hc).
    rewrite line_all; [reflexivity |].
    constructor; [| exact Hb]. intros ->. discriminate Hc. }
  induction Ha as [| y a Hy _ IH]; intros x g1 [Xs Xd].
  - cbn [app]. rewrite range_match_cons, (newline_space x Xs), Sep.
    reflexivity.
  - rewrite <- app_comm_cons, range_match_cons, (newline_space x Xs).
    assert (N : dash_separator (y :: a ++ ws1 ++ d :: ws2 ++ c :: b) = None).
    { unfold dash_separator. destruct Hy as [Ys Yd]. cbn [lstrip_by].
      rewrite Ys, Yd. reflexivity. }
    rewrite N. rewrite (IH y (x :: g1) Hy). cbn [rev].
    rewrite <- app_assoc. reflexivity.
Qed.

End Ranges.

(** X22: a text in which nothing after the first character is whitespace
    or a dash (a single price, "-5" and "$29.99" included) is not taken
    for a range: [extract_price_range] returns its normalised amount as
    both ends. *)
Theorem X22_extract_single_price (unicode_decimal : Z -> option Z)
    (x : Z) (s : pystr) :
  List.Forall solid s ->
  exists (amount : option float) (code : pystr),
    normalize_price unicode_decimal (x :: s) (str "USD") = Some (amount, code) /\
    extract_price_range unicode_decimal (x :: s) = Some (amount, amount).
Proof.
  intros H.
  destruct (normalize_price_total unicode_decimal (x :: s) (str "USD")) as [amount E].
  exists amount, (detect_currency (x :: s)).1. split; [exact E |].
  unfold extract_price_range. rewrite (first_range_solid x s H), E. reflexivity.
Qed.

Lemma X22_witness :
  List.Forall solid (str "29.99") /\
  exists (amount : option float) (code : pystr),
    normalize_price ascii_only (36 :: str "29.99") (str "USD")
    = Some (amount, code) /\
    extract_price_range ascii_only (36 :: str "29.99") = Some (amount, amount).
Proof.
  assert (H : List.Forall solid (str "29.99")).
  { repeat (constructor; [split; reflexivity |]). constructor. }
  exact (conj H (X22_extract_single_price ascii_only 36 (str "29.99") H)).
Defined.

(** X23: two texts joined by a dash (hyphen, en dash or em dash) with any
    whitespace around it are taken for a range when the first text is not
    empty and has no whitespace and no dash, and the second starts with a
    character that is not whitespace and has no newline: the ends are the
    normalised amounts of the two texts. *)
Theorem X23_extract_dash_range (unicode_decimal : Z -> option Z)
    (a ws1 ws2 b : pystr) (x d c : Z) :
  List.Forall solid (x :: a) ->
  List.Forall (fun y => is_space y = true) ws1 -> is_dash d = true ->
  List.Forall (fun y => is_space y = true) ws2 ->
  is_space c = false -> List.Forall (fun y => y <> 10) b ->
  exists (lo hi : option float) (code1 code2 : pystr),
    normalize_price unicode_decimal (x :: a) (str "USD") = Some (lo, code1) /\
    normalize_price unicode_decimal (c :: b) (str "USD") = Some (hi, code2) /\
    extract_price_range unicode_decimal (x :: a ++ ws1 ++ d :: ws2 ++ c :: b)
    = Some (lo, hi).
Proof.
  intros Ha H1 Hd H2 Hc Hb. inversion Ha as [| ? ? Hx Ha']; subst.
  destruct (normalize_price_total unicode_decimal (x :: a) (str "USD")) as [lo El].
  destruct (normalize_price_total unicode_decimal (c :: b) (str "USD")) as [hi Eh].
  exists lo, hi, (detect_currency (x :: a)).1, (detect_currency (c :: b)).1.
  split; [exact El |]. split; [exact Eh |].
  unfold extract_price_range, range_patterns. cbn [first_range].
  rewrite (range_match_dash a ws1 ws2 b d c Ha' H1 Hd H2 Hc Hb x [] Hx).
  cbn [rev app]. rewrite El, Eh. reflexivity.
Qed.

Lemma X23_witness :
  List.Forall solid (str "$10") /\
  List.Forall (fun y => is_space y = true) (str " ") /\ is_dash 45 = true /\
  List.Forall (fun y => is_space y = true) (str " ") /\
  is_space 36 = false /\ List.Forall (fun y => y <> 10) (str "20") /\
  exists (lo hi : option float) (code1 code2 : pystr),
    normalize_price ascii_only (str "$10") (str "USD") = Some (lo, code1) /\
    normalize_price ascii_only (str "$20") (str "USD") = Some (hi, code2) /\
    extract_price_range ascii_only (str "$10 - $20") = Some (lo, hi).
Proof.
  assert (H1 : List.Forall solid (str "$10")).
  { repeat (constructor; [split; reflexivity |]). constructor. }
  assert (H2 : List.Forall (fun y => is_space y = true) (str " "))
    by (repeat constructor).
  assert (H3 : is_dash 45 = true) by reflexivity.
  assert (H4 : is_space 36 = false) by reflexivity.
  assert (H5 : List.Forall (fun y => y <> 10) (str "20"))
    by (repeat (constructor; [discriminate |]); constructor).
  refine (conj H1 (conj H2 (conj H3 (conj H2 (conj H4 (conj H5 _)))))).
  exact (X23_extract_dash_range ascii_only (str "10") (str " ") (str " ")
           (str "20") 36 45 36 H1 H2 H3 H2 H4 H5).
Defined.

(** The groups that Python's [re.match] returns for these texts. *)
Example range_examples :
  first_range range_patterns (str "$10 - $20") = Some (str "$10", str "$20") /\
  first_range range_patterns (str "10 TO 20") = Some (str "10", str "20") /\
  first_range range_patterns (str "-5") = None /\
  first_range range_patterns (str "1-2-3") = Some (str "1", str "2-3") /\
  first_range range_patterns (str "10 -  ") = Some (str "10", str " ") /\
  first_range range_patterns (str "$-5") = Some (str "$", str "5").
Proof.
  split; [vm_compute; reflexivity |].
  split; [vm_compute; reflexivity |].
  split; [vm_compute; reflexivity |].
  split; [vm_compute; reflexivity |].
  split; vm_compute; reflexivity.
Qed.

(** ** Currency symbols *)

Section Symbols.

Lemma caseless_low (c : Z) : c < 65 -> caseless c.
Proof. intros H p Hp. apply ci_low; assumption. Qed.

Lemma caseless_high (c : Z) :
  122 < c -> c <> 304 -> c <> 305 -> c <> 383 -> c <> 8490 -> caseless c.
Proof.
  intros H1 H2 H3 H4 H5 p Hp.
  unfold ascii_is_alpha in Hp. unfold re_ignorecase_eq, ascii_lower.
  destruct ((65 <=? p) && (p <=? 90)) eqn:Up;
    destruct ((65 <=? c) && (c <=? 90)) eqn:Uc; lia.
Qed.

Lemma match_alt_caseless (alts : list pystr) (c : Z) (s : pystr) :
  List.Forall starts_alpha alts -> caseless c -> match_alt_ci alts (c :: s) = None.
Proof.
  intros Ha Hc. induction Ha as [| alt alts Halt _ IH]; [reflexivity |].
  cbn [match_alt_ci].
  destruct alt as [| p pat]; [contradiction |].
  cbn [match_ci]. rewrite (Hc p Halt). exact IH.
Qed.

Lemma last_caseless (c : Z) (s : pystr) :
  caseless c -> List.Forall caseless s ->
  exists x r, rev (c :: s) = x :: r /\ caseless x.
Proof.
  intros Hc Hs.
  assert (F : List.Forall caseless (rev (c :: s)))
    by (apply List.Forall_rev; constructor; assumption).
  destruct (rev (c :: s)) as [| x r] eqn:E.
  - apply (f_equal (@length Z)) in E. rewrite length_rev in E. discriminate E.
  - inversion F; subst. eauto.
Qed.

(** A text of characters that are not whitespace and that no letter
    matches is left as it is by [clean_price_string]. *)
Lemma clean_caseless (s : pystr) :
  List.Forall (fun c => is_space c = false) s -> List.Forall caseless s ->
  clean_price_string s = s.
Proof.
  intros Sp Cl. unfold clean_price_string.
  destruct s as [| c t]; [reflexivity |].
  inversion Cl as [| ? ? Hc Ht]; subst.
  rewrite (strip_none (c :: t) Sp).
  unfold sub_prefix_ci. rewrite (match_alt_caseless _ c t prefix_alts Hc).
  unfold sub_suffix_ci.
  destruct (last_caseless c t Hc Ht) as (x & r & Er & Hx).
  rewrite Er, (match_alt_caseless _ x r suffix_alts Hx).
  rewrite (split_ws_word (c :: t) [] Sp) by discriminate.
  reflexivity.
Qed.

Lemma numeric_caseless (s : pystr) :
  List.Forall (fun c => numeric c = true) s -> List.Forall caseless s.
Proof.
  apply List.Forall_impl. intros c Hc. apply caseless_low.
  unfold numeric, is_ascii_digit in Hc. lia.
Qed.

Lemma numeric_no_space (s : pystr) :
  List.Forall (fun c => numeric c = true) s ->
  List.Forall (fun c => is_space c = false) s.
Proof.
  apply List.Forall_impl. intros c Hc.
  unfold numeric, is_ascii_digit in Hc. unfold is_space. lia.
Qed.

Lemma numeric_not (x : Z) (s : pystr) :
  numeric x = false -> List.Forall (fun c => numeric c = true) s ->
  List.Forall (fun c => c <> x) s.
Proof.
  intros Hx. apply List.Forall_impl. intros c Hc ->. congruence.
Qed.

(** The scan of the symbol table on a text that starts with the symbol
    [c] and goes on with a number: the entries before the one of [c] are
    not found. *)
Lemma detect_symbol_first (c : Z) (code : pystr) (n : pystr)
    (before after : list (pystr * pystr)) :
  List.Forall (fun kv : pystr * pystr =>
                 match kv.1 with
                 | p :: _ => numeric p = false /\ p <> c
                 | [] => False
                 end) before ->
  numeric c = false -> is_space c = false ->
  List.Forall (fun x => numeric x = true) n ->
  detect_symbol (before ++ ([c], code) :: after) (c :: n) = Some (code, n).
Proof.
  intros Hb Hc Hs Hn. induction Hb as [| [sym k] before Hk _ IH].
  - cbn [app detect_symbol contains starts_with]. rewrite Z.eqb_refl.
    cbn [andb orb]. rewrite replace1_cons, Z.eqb_refl. cbn [app].
    rewrite (replace1_none c [] n (numeric_not c n Hc Hn)).
    rewrite (strip_none n (numeric_no_space n Hn)). reflexivity.
  - cbn [app detect_symbol]. cbn [fst] in Hk.
    destruct sym as [| p pat]; [contradiction |]. destruct Hk as [Np Pc].
    rewrite contains_head; [exact IH |].
    constructor; [congruence | apply (numeric_not p n Np Hn)].
Qed.

End Symbols.

Ltac symbol_entry i c code :=
  match goal with
  | |- detect_currency (_ ++ ?n) = _ =>
      change (detect_currency (c :: n) = (code, n))
  end;
  unfold detect_currency;
  rewrite clean_caseless;
  [ change CURRENCY_SYMBOLS
      with (firstn i CURRENCY_SYMBOLS ++ ([c], code) :: skipn (S i) CURRENCY_SYMBOLS);
    rewrite detect_symbol_first;
    [ reflexivity
    | cbn [firstn CURRENCY_SYMBOLS];
      repeat (constructor; [split; [vm_compute; reflexivity | discriminate] |]);
      constructor
    | reflexivity
    | reflexivity
    | assumption ]
  | constructor; [reflexivity | apply numeric_no_space; assumption]
  | constructor; [apply caseless_high; lia || discriminate
                 | apply numeric_caseless; assumption] ].

Lemma single_symbol_detected (symbol code n : pystr) :
  In (symbol, code) CURRENCY_SYMBOLS -> length symbol = 1%nat ->
  List.Forall (fun c => numeric c = true) n ->
  detect_currency (symbol ++ n) = (code, n).
Proof.
  intros Hin Hlen Hn. unfold CURRENCY_SYMBOLS in Hin. cbn [In] in Hin.
  destruct Hin as [E | [E | [E | [E | [E | [E | [E | [E | [E | [E | []]]]]]]]]]];
    injection E as <- <-; try discriminate Hlen.
  - apply detect_currency_dollar, Hn.
  - symbol_entry 1%nat 8364 (str "EUR").
  - symbol_entry 2%nat 163 (str "GBP").
  - symbol_entry 3%nat 165 (str "JPY").
  - symbol_entry 4%nat 8377 (str "INR").
  - symbol_entry 7%nat 8381 (str "RUB").
  - symbol_entry 9%nat 8361 (str "KRW").
Qed.

(** X24: each one-character symbol of the currency table ($, the euro,
    pound, yen, rupee, rouble and won signs) in front of a number is
    detected: [detect_currency] returns the symbol's currency code and the
    number without the symbol. *)
Theorem X24_single_symbol_detected (symbol code n : pystr) :
  In (symbol, code) CURRENCY_SYMBOLS -> length symbol = 1%nat ->
  List.Forall (fun c => numeric c = true) n ->
  detect_currency (symbol ++ n) = (code, n).
Proof. apply single_symbol_detected. Qed.

Lemma X24_witness :
  In (str "€", str "EUR") CURRENCY_SYMBOLS /\ length (str "€") = 1%nat /\
  List.Forall (fun c => numeric c = true) (str "99,50") /\
  detect_currency (str "€99,50") = (str "EUR", str "99,50").
Proof.
  assert (H1 : In (str "€", str "EUR") CURRENCY_SYMBOLS)
    by (right; left; reflexivity).
  assert (H2 : length (str "€") = 1%nat) by reflexivity.
  assert (H3 : List.Forall (fun c => numeric c = true) (str "99,50"))
    by (repeat constructor).
  refine (conj H1 (conj H2 (conj H3 _))).
  exact (X24_single_symbol_detected (str "€") (str "EUR") (str "99,50") H1 H2 H3).
Defined.

Lemma str_eqb_refl (s : pystr) : str_eqb s s = true.
Proof.
  induction s as [| c s IH]; [reflexivity |].
  cbn [str_eqb]. rewrite Z.eqb_refl, IH. reflexivity.
Qed.

(** A text in which [detect_currency] finds the target currency and
    leaves a canonical amount. *)
Lemma normalize_detected (unicode_decimal : Z -> option Z)
    (text code ip fp : pystr) :
  text <> [] -> detect_currency text = (code, ip ++ 46 :: fp) ->
  ascii_digits ip -> ascii_digits fp -> length fp = 2%nat ->
  number (ip ++ fp) < 2 ^ 52 ->
  normalize_price unicode_decimal text code
  = Some (Some (dec (number (ip ++ fp)) 2), code).
Proof.
  intros Ht Hd Hi Hf Hl Hn.
  assert (Hne : without 44 ip ++ fp <> []).
  { destruct fp; [discriminate Hl |]. destruct (without 44 ip); discriminate. }
  pose proof (parse_point unicode_decimal ip fp (digits_grouped 44 ip Hi) Hf Hne) as P.
  rewrite (without_digits 44 ip eq_refl Hi) in P.
  unfold normalize_price.
  destruct text as [| c t] eqn:Es; [congruence |]. rewrite <- Es in *.
  rewrite Hd, P, str_eqb_refl. cbn [negb mbind option_bind].
  rewrite Hl. change (Z.of_nat 2) with 2.
  fold (dec (number (ip ++ fp)) 2).
  rewrite round2_cents; [reflexivity |].
  split; [apply number_nonneg, ascii_digits_app; assumption | exact Hn].
Qed.

(** X25: a canonical amount behind a one-character currency symbol,
    normalised to the currency of that symbol, is not converted: the
    amount returned is exactly the float that Python reads from the
    digits. *)
Theorem X25_same_currency_not_converted (unicode_decimal : Z -> option Z)
    (symbol code ip fp : pystr) :
  In (symbol, code) CURRENCY_SYMBOLS -> length symbol = 1%nat ->
  ascii_digits ip -> ascii_digits fp -> length fp = 2%nat ->
  number (ip ++ fp) < 2 ^ 52 ->
  normalize_price unicode_decimal (symbol ++ ip ++ str "." ++ fp) code
  = Some (Some (dec (number (ip ++ fp)) 2), code).
Proof.
  intros Hin Hlen Hi Hf Hl Hn. change (str ".") with [46]. cbn [app].
  apply normalize_detected; try assumption.
  - destruct symbol; [discriminate Hlen | discriminate].
  - apply single_symbol_detected; try assumption.
    apply List.Forall_app. split; [apply digits_numeric, Hi |].
    constructor; [reflexivity | apply digits_numeric, Hf].
Qed.

Lemma X25_witness :
  In (str "€", str "EUR") CURRENCY_SYMBOLS /\ length (str "€") = 1%nat /\
  ascii_digits (str "99") /\ ascii_digits (str "50") /\
  length (str "50") = 2%nat /\ number (str "99" ++ str "50") < 2 ^ 52 /\
  normalize_price ascii_only (str "€99.50") (str "EUR")
  = Some (Some (dec 9950 2), str "EUR").
Proof.
  assert (H1 : In (str "€", str "EUR") CURRENCY_SYMBOLS)
    by (right; left; reflexivity).
  assert (H2 : length (str "€") = 1%nat) by reflexivity.
  assert (H3 : ascii_digits (str "99")) by (repeat constructor).
  assert (H4 : ascii_digits (str "50")) by (repeat constructor).
  assert (H5 : length (str "50") = 2%nat) by reflexivity.
  assert (H6 : number (str "99" ++ str "50") < 2 ^ 52) by reflexivity.
  refine (conj H1 (conj H2 (conj H3 (conj H4 (conj H5 (conj H6 _)))))).
  exact (X25_same_currency_not_converted ascii_only (str "€") (str "EUR")
           (str "99") (str "50") H1 H2 H3 H4 H5 H6).
Defined.
